(** * Cedrus video engine driver: job pipeline, DPB slots and H.264 headers

    A shallow embedding of the parts of the Cedrus driver
    (drivers/staging/media/sunxi/cedrus) that carry the job completion
    protocol, the H.264 decoded-picture-buffer slot allocation, the H.265
    slice-data offset check and the H.264 encoder's frame bookkeeping,
    Exp-Golomb bit emission, picture parameter set and slice header,
    followed by the properties proved about them.

    C integers are unbounded [Z] values with the wrap-around of their
    width written out ([u32], [s32]); the kernel is built with
    -fno-strict-overflow, so signed arithmetic wraps as well. *)

From Stdlib Require Import ZArith List Bool Lia.
From stdpp Require Import base list.
Import ListNotations.
Local Open Scope Z_scope.

(* ================================================================== *)
(** ** Machine integers *)

(** [unsigned int] / [u32]: reduction modulo 2^32. *)
Definition u32 (x : Z) : Z := x mod 2 ^ 32.

(** [int] / [s32]: the two's-complement reading of the low 32 bits. *)
Definition s32 (x : Z) : Z := (x + 2 ^ 31) mod 2 ^ 32 - 2 ^ 31.

Definition INT_MIN : Z := - 2 ^ 31.
Definition INT_MAX : Z := 2 ^ 31 - 1.
Definition UINT_MAX : Z := 2 ^ 32 - 1.

(** [BIT(nr)] is [1UL << nr]. *)
Definition BIT (nr : Z) : Z := Z.shiftl 1 nr.

(** [__fls(word)]: index of the most significant set bit.  The kernel
    leaves the result undefined when no bit is set, hence [None]. *)
Definition __fls (word : Z) : option Z :=
  if word =? 0 then None else Some (Z.log2 word).

(* ================================================================== *)
(** ** H.264 encoder: the bit serializer (cedrus_enc_h264.c) *)

(** Modelled from the spec: the hardware put-bits port.  Its register
    layout (cedrus_regs.h) is not part of the sources; the spec describes
    it as a bit writer [append(value, bit_count)], and
    VE_ENC_AVC_STM_BIT_LEN_REG reads back the number of bits written.
    The coded stream is kept oldest bit first. *)
Record cedrus_device := mk_device {
  coded_stream : list bool
}.

(** The [n] low-order bits of [x], most significant first. *)
Fixpoint be_bits (n : nat) (x : Z) : list bool :=
  match n with
  | O => []
  | S n' => Z.testbit x (Z.of_nat n') :: be_bits n' x
  end.

(** Modelled from the spec: what one put-bits request appends. *)
Definition hw_put_bits (dev : cedrus_device) (value count : Z) : cedrus_device :=
  mk_device (coded_stream dev ++ be_bits (Z.to_nat count) value).

(** Modelled from the spec: reading VE_ENC_AVC_STM_BIT_LEN_REG. *)
Definition hw_stm_bit_len (dev : cedrus_device) : Z :=
  u32 (Z.of_nat (length (coded_stream dev))).

(** [cedrus_enc_h264_coded_append]: both operands are [unsigned int]. *)
Definition cedrus_enc_h264_coded_append (dev : cedrus_device)
    (value count : Z) : cedrus_device :=
  hw_put_bits dev (u32 value) (u32 count).

(** [cedrus_enc_h264_coded_ue]: [bits_count = 2 * __fls(value + 1) + 1],
    then append [value + 1]; [value + 1] is computed in [unsigned int]. *)
Definition cedrus_enc_h264_coded_ue (dev : cedrus_device) (value : Z)
    : option cedrus_device :=
  match __fls (u32 (value + 1)) with
  | Some msb =>
      let bits_count := u32 (2 * msb + 1) in
      Some (cedrus_enc_h264_coded_append dev (u32 (value + 1)) bits_count)
  | None => None
  end.

(** The [unsigned int value_ue] computed by [cedrus_enc_h264_coded_se]
    from its [int value]: the arithmetic is done in [int] and the result
    converted to [unsigned int]. *)
Definition coded_se_value_ue (value : Z) : Z :=
  if 0 <? value then u32 (s32 (2 * value - 1))
  else u32 (s32 (-2 * value)).

(** [cedrus_enc_h264_coded_se]. *)
Definition cedrus_enc_h264_coded_se (dev : cedrus_device) (value : Z)
    : option cedrus_device :=
  cedrus_enc_h264_coded_ue dev (coded_se_value_ue value).

(** [cedrus_enc_h264_coded_bit]. *)
Definition cedrus_enc_h264_coded_bit (dev : cedrus_device) (value : Z)
    : cedrus_device :=
  cedrus_enc_h264_coded_append dev value 1.

(** [cedrus_enc_h264_coded_align]. *)
Definition cedrus_enc_h264_coded_align (dev : cedrus_device) : cedrus_device :=
  let value := hw_stm_bit_len dev in
  let bits_count := u32 (value mod 8) in
  if bits_count =? 0 then dev
  else cedrus_enc_h264_coded_append dev 0 (8 - bits_count).

(** *** The standard Exp-Golomb decoding process (H.264, clause 9.1) *)

(** Count and drop the leading zero bits. *)
Fixpoint leading_zero_bits (bs : list bool) : nat * list bool :=
  match bs with
  | false :: bs' => let (k, rest) := leading_zero_bits bs' in (S k, rest)
  | _ => (O, bs)
  end.

(** Read [n] bits, most significant first, onto the accumulator. *)
Fixpoint read_bits (n : nat) (acc : Z) (bs : list bool) : option (Z * list bool) :=
  match n with
  | O => Some (acc, bs)
  | S n' =>
      match bs with
      | b :: bs' => read_bits n' (2 * acc + Z.b2z b) bs'
      | [] => None
      end
  end.

(** ue(v): codeNum = 2^leadingZeroBits - 1 + read_bits(leadingZeroBits);
    equivalently the (leadingZeroBits + 1)-bit number starting at the
    first set bit, minus one. *)
Definition decode_ue (bs : list bool) : option (Z * list bool) :=
  let (k, rest) := leading_zero_bits bs in
  match read_bits (S k) 0 rest with
  | Some (x, rest') => Some (x - 1, rest')
  | None => None
  end.

(** se(v): codeNum k maps to (-1)^(k+1) * ceil(k / 2). *)
Definition se_of_code_num (k : Z) : Z :=
  if Z.odd k then (k + 1) / 2 else - (k / 2).

Definition decode_se (bs : list bool) : option (Z * list bool) :=
  match decode_ue bs with
  | Some (k, rest) => Some (se_of_code_num k, rest)
  | None => None
  end.

(** The bits a call appended: the suffix of the new stream past the old one. *)
Definition appended (before after : cedrus_device) : list bool :=
  drop (length (coded_stream before)) (coded_stream after).

(* ================================================================== *)
(** ** H.264 encoder: controls, state and job (cedrus_enc_h264.[ch]) *)

Inductive cedrus_enc_h264_frame_type :=
  | CEDRUS_ENC_H264_FRAME_TYPE_IDR
  | CEDRUS_ENC_H264_FRAME_TYPE_I
  | CEDRUS_ENC_H264_FRAME_TYPE_P
  | CEDRUS_ENC_H264_FRAME_TYPE_B.

Inductive cedrus_enc_h264_step :=
  | CEDRUS_ENC_H264_STEP_START
  | CEDRUS_ENC_H264_STEP_SPS
  | CEDRUS_ENC_H264_STEP_PPS
  | CEDRUS_ENC_H264_STEP_SLICE.

(** The enumerators' values, for the ordered comparisons on [step]. *)
Definition step_value (s : cedrus_enc_h264_step) : Z :=
  match s with
  | CEDRUS_ENC_H264_STEP_START => 0
  | CEDRUS_ENC_H264_STEP_SPS => 1
  | CEDRUS_ENC_H264_STEP_PPS => 2
  | CEDRUS_ENC_H264_STEP_SLICE => 3
  end.

(** The V4L2 menu controls of the encoder, by enumerator name. *)
Inductive v4l2_mpeg_video_h264_profile :=
  | V4L2_MPEG_VIDEO_H264_PROFILE_BASELINE
  | V4L2_MPEG_VIDEO_H264_PROFILE_CONSTRAINED_BASELINE
  | V4L2_MPEG_VIDEO_H264_PROFILE_MAIN
  | V4L2_MPEG_VIDEO_H264_PROFILE_EXTENDED
  | V4L2_MPEG_VIDEO_H264_PROFILE_HIGH
  | V4L2_MPEG_VIDEO_H264_PROFILE_HIGH_10
  | V4L2_MPEG_VIDEO_H264_PROFILE_HIGH_422
  | V4L2_MPEG_VIDEO_H264_PROFILE_HIGH_444_PREDICTIVE
  | V4L2_MPEG_VIDEO_H264_PROFILE_HIGH_10_INTRA
  | V4L2_MPEG_VIDEO_H264_PROFILE_HIGH_422_INTRA
  | V4L2_MPEG_VIDEO_H264_PROFILE_HIGH_444_INTRA
  | V4L2_MPEG_VIDEO_H264_PROFILE_CAVLC_444_INTRA
  | V4L2_MPEG_VIDEO_H264_PROFILE_SCALABLE_BASELINE
  | V4L2_MPEG_VIDEO_H264_PROFILE_SCALABLE_HIGH
  | V4L2_MPEG_VIDEO_H264_PROFILE_SCALABLE_HIGH_INTRA
  | V4L2_MPEG_VIDEO_H264_PROFILE_STEREO_HIGH
  | V4L2_MPEG_VIDEO_H264_PROFILE_MULTIVIEW_HIGH
  | V4L2_MPEG_VIDEO_H264_PROFILE_CONSTRAINED_HIGH.

Inductive v4l2_mpeg_video_h264_level :=
  | V4L2_MPEG_VIDEO_H264_LEVEL_1_0 | V4L2_MPEG_VIDEO_H264_LEVEL_1B
  | V4L2_MPEG_VIDEO_H264_LEVEL_1_1 | V4L2_MPEG_VIDEO_H264_LEVEL_1_2
  | V4L2_MPEG_VIDEO_H264_LEVEL_1_3 | V4L2_MPEG_VIDEO_H264_LEVEL_2_0
  | V4L2_MPEG_VIDEO_H264_LEVEL_2_1 | V4L2_MPEG_VIDEO_H264_LEVEL_2_2
  | V4L2_MPEG_VIDEO_H264_LEVEL_3_0 | V4L2_MPEG_VIDEO_H264_LEVEL_3_1
  | V4L2_MPEG_VIDEO_H264_LEVEL_3_2 | V4L2_MPEG_VIDEO_H264_LEVEL_4_0
  | V4L2_MPEG_VIDEO_H264_LEVEL_4_1 | V4L2_MPEG_VIDEO_H264_LEVEL_4_2
  | V4L2_MPEG_VIDEO_H264_LEVEL_5_0 | V4L2_MPEG_VIDEO_H264_LEVEL_5_1
  | V4L2_MPEG_VIDEO_H264_LEVEL_5_2 | V4L2_MPEG_VIDEO_H264_LEVEL_6_0
  | V4L2_MPEG_VIDEO_H264_LEVEL_6_1 | V4L2_MPEG_VIDEO_H264_LEVEL_6_2.

Inductive v4l2_mpeg_video_h264_entropy_mode :=
  | V4L2_MPEG_VIDEO_H264_ENTROPY_MODE_CAVLC
  | V4L2_MPEG_VIDEO_H264_ENTROPY_MODE_CABAC.

Inductive v4l2_mpeg_video_h264_loop_filter_mode :=
  | V4L2_MPEG_VIDEO_H264_LOOP_FILTER_MODE_ENABLED
  | V4L2_MPEG_VIDEO_H264_LOOP_FILTER_MODE_DISABLED
  | V4L2_MPEG_VIDEO_H264_LOOP_FILTER_MODE_DISABLED_AT_SLICE_BOUNDARY.

(** The integer controls cached in [struct cedrus_enc_h264_context]. *)
Inductive v4l2_cid :=
  | V4L2_CID_MPEG_VIDEO_PREPEND_SPSPPS_TO_IDR
  | V4L2_CID_MPEG_VIDEO_H264_VUI_SAR_ENABLE
  | V4L2_CID_MPEG_VIDEO_H264_VUI_SAR_IDC
  | V4L2_CID_MPEG_VIDEO_H264_VUI_EXT_SAR_WIDTH
  | V4L2_CID_MPEG_VIDEO_H264_VUI_EXT_SAR_HEIGHT
  | V4L2_CID_MPEG_VIDEO_H264_CHROMA_QP_INDEX_OFFSET
  | V4L2_CID_MPEG_VIDEO_H264_LOOP_FILTER_ALPHA
  | V4L2_CID_MPEG_VIDEO_H264_LOOP_FILTER_BETA
  | V4L2_CID_MPEG_VIDEO_H264_MIN_QP
  | V4L2_CID_MPEG_VIDEO_H264_MAX_QP
  | V4L2_CID_MPEG_VIDEO_H264_I_FRAME_QP
  | V4L2_CID_MPEG_VIDEO_H264_P_FRAME_QP
  | V4L2_CID_MPEG_VIDEO_GOP_CLOSURE
  | V4L2_CID_MPEG_VIDEO_GOP_SIZE
  | V4L2_CID_MPEG_VIDEO_H264_I_PERIOD.

Definition v4l2_cid_eqb (a b : v4l2_cid) : bool :=
  match a, b with
  | V4L2_CID_MPEG_VIDEO_PREPEND_SPSPPS_TO_IDR,
    V4L2_CID_MPEG_VIDEO_PREPEND_SPSPPS_TO_IDR
  | V4L2_CID_MPEG_VIDEO_H264_VUI_SAR_ENABLE,
    V4L2_CID_MPEG_VIDEO_H264_VUI_SAR_ENABLE
  | V4L2_CID_MPEG_VIDEO_H264_VUI_SAR_IDC,
    V4L2_CID_MPEG_VIDEO_H264_VUI_SAR_IDC
  | V4L2_CID_MPEG_VIDEO_H264_VUI_EXT_SAR_WIDTH,
    V4L2_CID_MPEG_VIDEO_H264_VUI_EXT_SAR_WIDTH
  | V4L2_CID_MPEG_VIDEO_H264_VUI_EXT_SAR_HEIGHT,
    V4L2_CID_MPEG_VIDEO_H264_VUI_EXT_SAR_HEIGHT
  | V4L2_CID_MPEG_VIDEO_H264_CHROMA_QP_INDEX_OFFSET,
    V4L2_CID_MPEG_VIDEO_H264_CHROMA_QP_INDEX_OFFSET
  | V4L2_CID_MPEG_VIDEO_H264_LOOP_FILTER_ALPHA,
    V4L2_CID_MPEG_VIDEO_H264_LOOP_FILTER_ALPHA
  | V4L2_CID_MPEG_VIDEO_H264_LOOP_FILTER_BETA,
    V4L2_CID_MPEG_VIDEO_H264_LOOP_FILTER_BETA
  | V4L2_CID_MPEG_VIDEO_H264_MIN_QP, V4L2_CID_MPEG_VIDEO_H264_MIN_QP
  | V4L2_CID_MPEG_VIDEO_H264_MAX_QP, V4L2_CID_MPEG_VIDEO_H264_MAX_QP
  | V4L2_CID_MPEG_VIDEO_H264_I_FRAME_QP, V4L2_CID_MPEG_VIDEO_H264_I_FRAME_QP
  | V4L2_CID_MPEG_VIDEO_H264_P_FRAME_QP, V4L2_CID_MPEG_VIDEO_H264_P_FRAME_QP
  | V4L2_CID_MPEG_VIDEO_GOP_CLOSURE, V4L2_CID_MPEG_VIDEO_GOP_CLOSURE
  | V4L2_CID_MPEG_VIDEO_GOP_SIZE, V4L2_CID_MPEG_VIDEO_GOP_SIZE
  | V4L2_CID_MPEG_VIDEO_H264_I_PERIOD, V4L2_CID_MPEG_VIDEO_H264_I_PERIOD => true
  | _, _ => false
  end.

(** One control change as it reaches [ctrl_prepare]: the id with
    [ctrl->cur.val].  A profile without CABAC makes [ctrl_prepare] call
    [__v4l2_ctrl_s_ctrl] on the entropy-mode control; what that does is
    the control framework's business, which is not part of the sources:
    [entropy_s_ctrl] is [None] when the framework does not call [s_ctrl]
    back, and [Some v] when it does, [v] being the [cur.val] the
    entropy-mode control holds during that call. *)
Inductive v4l2_ctrl :=
  | Ctrl_int (id : v4l2_cid) (val : Z)
  | Ctrl_profile (val : v4l2_mpeg_video_h264_profile)
      (entropy_s_ctrl : option v4l2_mpeg_video_h264_entropy_mode)
  | Ctrl_level (val : v4l2_mpeg_video_h264_level)
  | Ctrl_entropy_mode (val : v4l2_mpeg_video_h264_entropy_mode)
  | Ctrl_loop_filter_mode (val : v4l2_mpeg_video_h264_loop_filter_mode)
  | Ctrl_force_key_frame
  | Ctrl_unhandled.

(** [struct cedrus_enc_h264_state]. *)
Record cedrus_enc_h264_state := mk_state {
  step : cedrus_enc_h264_step;
  gop_index : Z;
  state_frame_num : Z;
  state_pic_order_cnt_lsb : Z;
  qp_init : Z
}.

(** [struct cedrus_enc_h264_context], without the DMA scratch buffers
    and frame dimensions.  The [int] fields that cache an integer
    control are kept together in [cached], indexed by control id. *)
Record cedrus_enc_h264_context := mk_context {
  state : cedrus_enc_h264_state;
  pic_order_cnt_type : Z;
  log2_max_pic_order_cnt_lsb : Z;
  log2_max_frame_num : Z;
  profile : v4l2_mpeg_video_h264_profile;
  level : v4l2_mpeg_video_h264_level;
  entropy_mode : v4l2_mpeg_video_h264_entropy_mode;
  loop_filter_mode : v4l2_mpeg_video_h264_loop_filter_mode;
  cached : v4l2_cid -> Z;
  force_key_frame : bool
}.

Definition prepend_sps_pps_idr c := cached c V4L2_CID_MPEG_VIDEO_PREPEND_SPSPPS_TO_IDR.
Definition chroma_qp_index_offset c := cached c V4L2_CID_MPEG_VIDEO_H264_CHROMA_QP_INDEX_OFFSET.
Definition loop_filter_alpha c := cached c V4L2_CID_MPEG_VIDEO_H264_LOOP_FILTER_ALPHA.
Definition loop_filter_beta c := cached c V4L2_CID_MPEG_VIDEO_H264_LOOP_FILTER_BETA.
Definition qp_min c := cached c V4L2_CID_MPEG_VIDEO_H264_MIN_QP.
Definition qp_max c := cached c V4L2_CID_MPEG_VIDEO_H264_MAX_QP.
Definition qp_i c := cached c V4L2_CID_MPEG_VIDEO_H264_I_FRAME_QP.
Definition qp_p c := cached c V4L2_CID_MPEG_VIDEO_H264_P_FRAME_QP.
Definition gop_closure c := cached c V4L2_CID_MPEG_VIDEO_GOP_CLOSURE.
Definition gop_size c := cached c V4L2_CID_MPEG_VIDEO_GOP_SIZE.
Definition gop_open_i_period c := cached c V4L2_CID_MPEG_VIDEO_H264_I_PERIOD.

(** [struct cedrus_enc_h264_job]. *)
Record cedrus_enc_h264_job := mk_job {
  nal_ref_idc : Z;
  frame_type : cedrus_enc_h264_frame_type;
  frame_num : Z;
  pic_order_cnt_lsb : Z;
  qp : Z;
  seq_parameter_set_id : Z;
  pic_parameter_set_id : Z;
  idr_pic_id : Z;
  profile_idc : Z;
  level_idc : Z;
  constraint_set_flags : Z;
  entropy_coding_mode_flag : Z;
  job_chroma_qp_index_offset : Z;
  disable_deblocking_filter_idc : Z;
  slice_alpha_c0_offset_div2 : Z;
  slice_beta_offset_div2 : Z;
  cabac_init_idc : Z
}.

(** Field updates. *)
Definition set_state (c : cedrus_enc_h264_context) (s : cedrus_enc_h264_state) :=
  mk_context s (pic_order_cnt_type c) (log2_max_pic_order_cnt_lsb c)
    (log2_max_frame_num c) (profile c) (level c) (entropy_mode c)
    (loop_filter_mode c) (cached c) (force_key_frame c).
Definition set_step (c : cedrus_enc_h264_context) (s : cedrus_enc_h264_step) :=
  set_state c (mk_state s (gop_index (state c)) (state_frame_num (state c))
                 (state_pic_order_cnt_lsb (state c)) (qp_init (state c))).
Definition set_profile (c : cedrus_enc_h264_context) v :=
  mk_context (state c) (pic_order_cnt_type c) (log2_max_pic_order_cnt_lsb c)
    (log2_max_frame_num c) v (level c) (entropy_mode c)
    (loop_filter_mode c) (cached c) (force_key_frame c).
Definition set_level (c : cedrus_enc_h264_context) v :=
  mk_context (state c) (pic_order_cnt_type c) (log2_max_pic_order_cnt_lsb c)
    (log2_max_frame_num c) (profile c) v (entropy_mode c)
    (loop_filter_mode c) (cached c) (force_key_frame c).
Definition set_entropy_mode (c : cedrus_enc_h264_context) v :=
  mk_context (state c) (pic_order_cnt_type c) (log2_max_pic_order_cnt_lsb c)
    (log2_max_frame_num c) (profile c) (level c) v
    (loop_filter_mode c) (cached c) (force_key_frame c).
Definition set_loop_filter_mode (c : cedrus_enc_h264_context) v :=
  mk_context (state c) (pic_order_cnt_type c) (log2_max_pic_order_cnt_lsb c)
    (log2_max_frame_num c) (profile c) (level c) (entropy_mode c)
    v (cached c) (force_key_frame c).
Definition set_cached (c : cedrus_enc_h264_context) (id : v4l2_cid) (v : Z) :=
  mk_context (state c) (pic_order_cnt_type c) (log2_max_pic_order_cnt_lsb c)
    (log2_max_frame_num c) (profile c) (level c) (entropy_mode c)
    (loop_filter_mode c)
    (fun i => if v4l2_cid_eqb id i then v else cached c i)
    (force_key_frame c).
Definition set_force_key_frame (c : cedrus_enc_h264_context) (b : bool) :=
  mk_context (state c) (pic_order_cnt_type c) (log2_max_pic_order_cnt_lsb c)
    (log2_max_frame_num c) (profile c) (level c) (entropy_mode c)
    (loop_filter_mode c) (cached c) b.

(** *** Helpers *)

Definition cedrus_enc_h264_profile_idc (p : v4l2_mpeg_video_h264_profile) : Z :=
  match p with
  | V4L2_MPEG_VIDEO_H264_PROFILE_BASELINE
  | V4L2_MPEG_VIDEO_H264_PROFILE_CONSTRAINED_BASELINE => 66
  | V4L2_MPEG_VIDEO_H264_PROFILE_MAIN => 77
  | V4L2_MPEG_VIDEO_H264_PROFILE_EXTENDED => 88
  | V4L2_MPEG_VIDEO_H264_PROFILE_HIGH
  | V4L2_MPEG_VIDEO_H264_PROFILE_CONSTRAINED_HIGH => 100
  | V4L2_MPEG_VIDEO_H264_PROFILE_HIGH_10
  | V4L2_MPEG_VIDEO_H264_PROFILE_HIGH_10_INTRA => 110
  | V4L2_MPEG_VIDEO_H264_PROFILE_HIGH_422
  | V4L2_MPEG_VIDEO_H264_PROFILE_HIGH_422_INTRA => 122
  | V4L2_MPEG_VIDEO_H264_PROFILE_HIGH_444_PREDICTIVE
  | V4L2_MPEG_VIDEO_H264_PROFILE_HIGH_444_INTRA => 244
  | V4L2_MPEG_VIDEO_H264_PROFILE_CAVLC_444_INTRA => 44
  | V4L2_MPEG_VIDEO_H264_PROFILE_SCALABLE_BASELINE => 83
  | V4L2_MPEG_VIDEO_H264_PROFILE_SCALABLE_HIGH
  | V4L2_MPEG_VIDEO_H264_PROFILE_SCALABLE_HIGH_INTRA => 86
  | V4L2_MPEG_VIDEO_H264_PROFILE_STEREO_HIGH => 128
  | V4L2_MPEG_VIDEO_H264_PROFILE_MULTIVIEW_HIGH => 118
  end.

Definition cedrus_enc_h264_profile_cabac_check
    (p : v4l2_mpeg_video_h264_profile) : bool :=
  match p with
  | V4L2_MPEG_VIDEO_H264_PROFILE_BASELINE
  | V4L2_MPEG_VIDEO_H264_PROFILE_CONSTRAINED_BASELINE
  | V4L2_MPEG_VIDEO_H264_PROFILE_EXTENDED
  | V4L2_MPEG_VIDEO_H264_PROFILE_CAVLC_444_INTRA => false
  | _ => true
  end.

Definition cedrus_enc_h264_level_idc (l : v4l2_mpeg_video_h264_level) : Z :=
  match l with
  | V4L2_MPEG_VIDEO_H264_LEVEL_1_0 => 10 | V4L2_MPEG_VIDEO_H264_LEVEL_1B => 9
  | V4L2_MPEG_VIDEO_H264_LEVEL_1_1 => 11 | V4L2_MPEG_VIDEO_H264_LEVEL_1_2 => 12
  | V4L2_MPEG_VIDEO_H264_LEVEL_1_3 => 13 | V4L2_MPEG_VIDEO_H264_LEVEL_2_0 => 20
  | V4L2_MPEG_VIDEO_H264_LEVEL_2_1 => 21 | V4L2_MPEG_VIDEO_H264_LEVEL_2_2 => 22
  | V4L2_MPEG_VIDEO_H264_LEVEL_3_0 => 30 | V4L2_MPEG_VIDEO_H264_LEVEL_3_1 => 31
  | V4L2_MPEG_VIDEO_H264_LEVEL_3_2 => 32 | V4L2_MPEG_VIDEO_H264_LEVEL_4_0 => 40
  | V4L2_MPEG_VIDEO_H264_LEVEL_4_1 => 41 | V4L2_MPEG_VIDEO_H264_LEVEL_4_2 => 42
  | V4L2_MPEG_VIDEO_H264_LEVEL_5_0 => 50 | V4L2_MPEG_VIDEO_H264_LEVEL_5_1 => 51
  | V4L2_MPEG_VIDEO_H264_LEVEL_5_2 => 52 | V4L2_MPEG_VIDEO_H264_LEVEL_6_0 => 60
  | V4L2_MPEG_VIDEO_H264_LEVEL_6_1 => 61 | V4L2_MPEG_VIDEO_H264_LEVEL_6_2 => 62
  end.

Definition CEDRUS_ENC_H264_CONSTRAINT_SET0_FLAG : Z := BIT 7.
Definition CEDRUS_ENC_H264_CONSTRAINT_SET1_FLAG : Z := BIT 6.
Definition CEDRUS_ENC_H264_CONSTRAINT_SET3_FLAG : Z := BIT 4.
Definition CEDRUS_ENC_H264_CONSTRAINT_SET4_FLAG : Z := BIT 3.
Definition CEDRUS_ENC_H264_CONSTRAINT_SET5_FLAG : Z := BIT 2.

Definition cedrus_enc_h264_constraint_set_flags
    (p : v4l2_mpeg_video_h264_profile) : Z :=
  match p with
  | V4L2_MPEG_VIDEO_H264_PROFILE_BASELINE =>
      CEDRUS_ENC_H264_CONSTRAINT_SET0_FLAG
  | V4L2_MPEG_VIDEO_H264_PROFILE_CONSTRAINED_BASELINE =>
      Z.lor CEDRUS_ENC_H264_CONSTRAINT_SET0_FLAG
            CEDRUS_ENC_H264_CONSTRAINT_SET1_FLAG
  | V4L2_MPEG_VIDEO_H264_PROFILE_MAIN =>
      CEDRUS_ENC_H264_CONSTRAINT_SET1_FLAG
  | V4L2_MPEG_VIDEO_H264_PROFILE_CONSTRAINED_HIGH =>
      Z.lor CEDRUS_ENC_H264_CONSTRAINT_SET4_FLAG
            CEDRUS_ENC_H264_CONSTRAINT_SET5_FLAG
  | V4L2_MPEG_VIDEO_H264_PROFILE_HIGH_10_INTRA
  | V4L2_MPEG_VIDEO_H264_PROFILE_HIGH_422_INTRA
  | V4L2_MPEG_VIDEO_H264_PROFILE_HIGH_444_INTRA
  | V4L2_MPEG_VIDEO_H264_PROFILE_CAVLC_444_INTRA
  | V4L2_MPEG_VIDEO_H264_PROFILE_SCALABLE_HIGH_INTRA =>
      CEDRUS_ENC_H264_CONSTRAINT_SET3_FLAG
  | _ => 0
  end.

Definition cedrus_enc_h264_disable_deblocking_filter_idc
    (m : v4l2_mpeg_video_h264_loop_filter_mode) : Z :=
  match m with
  | V4L2_MPEG_VIDEO_H264_LOOP_FILTER_MODE_ENABLED => 0
  | V4L2_MPEG_VIDEO_H264_LOOP_FILTER_MODE_DISABLED => 1
  | V4L2_MPEG_VIDEO_H264_LOOP_FILTER_MODE_DISABLED_AT_SLICE_BOUNDARY => 2
  end.

(** *** Ctrl *)

(** [if (state->step > limit) state->step = limit;] *)
Definition step_cap (c : cedrus_enc_h264_context) (limit : cedrus_enc_h264_step) :=
  if step_value limit <? step_value (step (state c)) then set_step c limit else c.

(** The [V4L2_CID_MPEG_VIDEO_H264_ENTROPY_MODE] case of
    [cedrus_enc_h264_ctrl_prepare]. *)
Definition ctrl_prepare_entropy_mode (c : cedrus_enc_h264_context)
    (val : v4l2_mpeg_video_h264_entropy_mode) :=
  step_cap (set_entropy_mode c val) CEDRUS_ENC_H264_STEP_PPS.

(** [cedrus_enc_h264_ctrl_prepare], for a session that has its codec
    context.  In the profile case [__v4l2_ctrl_s_ctrl] on the entropy
    control comes back, if it does, through this function's entropy-mode
    case, which reads that control's [cur.val] and not the value asked
    for. *)
Definition cedrus_enc_h264_ctrl_prepare (c : cedrus_enc_h264_context)
    (ctrl : v4l2_ctrl) : cedrus_enc_h264_context :=
  match ctrl with
  | Ctrl_int id val => set_cached c id val
  | Ctrl_profile val entropy_s_ctrl =>
      let c := set_profile c val in
      let c :=
        if cedrus_enc_h264_profile_cabac_check (profile c) then c
        else
          match entropy_s_ctrl with
          | Some cur_val => ctrl_prepare_entropy_mode c cur_val
          | None => c
          end in
      step_cap c CEDRUS_ENC_H264_STEP_SPS
  | Ctrl_level val =>
      step_cap (set_level c val) CEDRUS_ENC_H264_STEP_SPS
  | Ctrl_entropy_mode val => ctrl_prepare_entropy_mode c val
  | Ctrl_loop_filter_mode val => set_loop_filter_mode c val
  | Ctrl_force_key_frame => set_force_key_frame c true
  | Ctrl_unhandled => c
  end.

(** *** Context *)

(** [cedrus_enc_h264_setup]: the state and bitstream parameters it
    writes into the zero-allocated context, then
    [v4l2_ctrl_handler_setup], which hands every control's current value
    to [ctrl_prepare] ([initial] lists them); the control framework
    skips button controls there, and the force-key-frame request is one. *)
Definition v4l2_ctrl_is_button (ctrl : v4l2_ctrl) : bool :=
  match ctrl with Ctrl_force_key_frame => true | _ => false end.

Definition cedrus_enc_h264_setup (initial : list v4l2_ctrl)
    : cedrus_enc_h264_context :=
  let zeroed :=
    mk_context (mk_state CEDRUS_ENC_H264_STEP_START 0 0 0 0) 0 8 8
      V4L2_MPEG_VIDEO_H264_PROFILE_BASELINE V4L2_MPEG_VIDEO_H264_LEVEL_1_0
      V4L2_MPEG_VIDEO_H264_ENTROPY_MODE_CAVLC
      V4L2_MPEG_VIDEO_H264_LOOP_FILTER_MODE_ENABLED
      (fun _ => 0) false in
  fold_left cedrus_enc_h264_ctrl_prepare
    (List.filter (fun ctrl => negb (v4l2_ctrl_is_button ctrl)) initial) zeroed.

(** *** Job *)

(** The job structure after the dispatcher cleared it. *)
Definition cleared_job : cedrus_enc_h264_job :=
  mk_job 0 CEDRUS_ENC_H264_FRAME_TYPE_IDR 0 0 0 0 0 0 0 0 0 0 0 0 0 0 0.

Definition is_idr (t : cedrus_enc_h264_frame_type) : bool :=
  match t with CEDRUS_ENC_H264_FRAME_TYPE_IDR => true | _ => false end.

(** The GOP decision of [cedrus_enc_h264_job_prepare], before the
    force-key-frame override. *)
Definition gop_frame_type (c : cedrus_enc_h264_context)
    : cedrus_enc_h264_frame_type :=
  if negb (gop_closure c =? 0) then
    if gop_index (state c) =? 0 then CEDRUS_ENC_H264_FRAME_TYPE_IDR
    else CEDRUS_ENC_H264_FRAME_TYPE_P
  else
    if gop_index (state c) =? 0 then CEDRUS_ENC_H264_FRAME_TYPE_IDR
    else if (0 <? gop_open_i_period c) &&
            (gop_index (state c) mod u32 (gop_open_i_period c) =? 0)
    then CEDRUS_ENC_H264_FRAME_TYPE_I
    else CEDRUS_ENC_H264_FRAME_TYPE_P.

(** The QP block of [cedrus_enc_h264_job_prepare]: [job->qp] is
    [unsigned int], the cached controls are [int], and the comparisons
    are therefore unsigned. *)
Definition job_prepare_qp (c : cedrus_enc_h264_context)
    (t : cedrus_enc_h264_frame_type) (cleared : Z) : Z :=
  let qp0 :=
    match t with
    | CEDRUS_ENC_H264_FRAME_TYPE_IDR
    | CEDRUS_ENC_H264_FRAME_TYPE_I => u32 (qp_i c)
    | CEDRUS_ENC_H264_FRAME_TYPE_P => u32 (qp_p c)
    | CEDRUS_ENC_H264_FRAME_TYPE_B => cleared
    end in
  if u32 (qp_max c) <? qp0 then u32 (qp_max c)
  else if qp0 <? u32 (qp_min c) then u32 (qp_min c)
  else qp0.

(** [cedrus_enc_h264_job_prepare]: returns the context it leaves and the
    job it fills in (the job starts out cleared). *)
Definition cedrus_enc_h264_job_prepare (c : cedrus_enc_h264_context)
    : cedrus_enc_h264_context * cedrus_enc_h264_job :=
  let st := state c in
  (* GOP *)
  let t := gop_frame_type c in
  let t := if force_key_frame c then CEDRUS_ENC_H264_FRAME_TYPE_IDR else t in
  let force := if force_key_frame c then false else force_key_frame c in
  let gop := u32 (gop_index st + 1) in
  let gop := if negb (gop_closure c =? 0) then gop mod u32 (gop_size c) else gop in
  (* Identification *)
  let fnum := if is_idr t then 0 else state_frame_num st in
  let poc := if is_idr t then 0 else state_pic_order_cnt_lsb st in
  let stp :=
    if is_idr t && negb (prepend_sps_pps_idr c =? 0)
    then CEDRUS_ENC_H264_STEP_SPS else step st in
  let fnum' := u32 (u32 (fnum + 1) mod BIT (log2_max_frame_num c)) in
  let poc' := u32 (u32 (poc + 2) mod BIT (log2_max_pic_order_cnt_lsb c)) in
  (* Features *)
  let cabac :=
    match entropy_mode c with
    | V4L2_MPEG_VIDEO_H264_ENTROPY_MODE_CABAC => true
    | V4L2_MPEG_VIDEO_H264_ENTROPY_MODE_CAVLC => false
    end in
  let init_idc :=
    if cabac then
      match t with
      | CEDRUS_ENC_H264_FRAME_TYPE_IDR | CEDRUS_ENC_H264_FRAME_TYPE_I => 0
      | _ => 1
      end
    else 0 in
  let deblock := cedrus_enc_h264_disable_deblocking_filter_idc (loop_filter_mode c) in
  let alpha := if deblock =? 1 then slice_alpha_c0_offset_div2 cleared_job
               else loop_filter_alpha c in
  let beta := if deblock =? 1 then slice_beta_offset_div2 cleared_job
              else loop_filter_beta c in
  (* QP *)
  let q := job_prepare_qp c t (qp cleared_job) in
  let qinit :=
    if step_value stp <? step_value CEDRUS_ENC_H264_STEP_SLICE then q
    else qp_init st in
  let job :=
    mk_job 2 t fnum poc q 0 0 0
      (cedrus_enc_h264_profile_idc (profile c))
      (cedrus_enc_h264_level_idc (level c))
      (cedrus_enc_h264_constraint_set_flags (profile c))
      (if cabac then 1 else 0)
      (u32 (chroma_qp_index_offset c))
      deblock alpha beta init_idc in
  (set_force_key_frame (set_state c (mk_state stp gop fnum' poc' qinit)) force,
   job).

(** The QP syntax elements handed to [cedrus_enc_h264_coded_se]: the
    subtraction is unsigned, the parameter is [int]. *)
Definition pic_init_qp_minus26 (st : cedrus_enc_h264_state) : Z :=
  s32 (u32 (qp_init st - 26)).
Definition slice_qp_delta (job : cedrus_enc_h264_job)
    (st : cedrus_enc_h264_state) : Z :=
  s32 (u32 (qp job - qp_init st)).

(** The NAL units written by one pass of
    [cedrus_enc_h264_job_configure_headers]. *)
Inductive nal_unit := NAL_SPS | NAL_PPS | NAL_SLICE.

(** The [while (active)] loop of [cedrus_enc_h264_job_configure_headers]
    over [state->step]; every iteration moves one step forward, so four
    iterations always reach the slice header. *)
Fixpoint configure_headers_loop (fuel : nat) (s : cedrus_enc_h264_step)
    : cedrus_enc_h264_step * list nal_unit :=
  match fuel with
  | O => (s, [])
  | S fuel' =>
      match s with
      | CEDRUS_ENC_H264_STEP_START =>
          configure_headers_loop fuel' CEDRUS_ENC_H264_STEP_SPS
      | CEDRUS_ENC_H264_STEP_SPS =>
          let (s', nals) := configure_headers_loop fuel' CEDRUS_ENC_H264_STEP_PPS in
          (s', NAL_SPS :: nals)
      | CEDRUS_ENC_H264_STEP_PPS =>
          let (s', nals) := configure_headers_loop fuel' CEDRUS_ENC_H264_STEP_SLICE in
          (s', NAL_PPS :: nals)
      | CEDRUS_ENC_H264_STEP_SLICE => (s, [NAL_SLICE])
      end
  end.

Definition cedrus_enc_h264_job_configure_headers (c : cedrus_enc_h264_context)
    : cedrus_enc_h264_context * list nal_unit :=
  let (s, nals) := configure_headers_loop 4 (step (state c)) in
  (set_step c s, nals).

(** *** A session: control changes and jobs in the order they arrive *)

Inductive enc_event :=
  | Ev_ctrl (ctrl : v4l2_ctrl)
      (* a control is set: [cedrus_enc_h264_ctrl_prepare] *)
  | Ev_job (configured : bool).
      (* a job is dispatched: [job_prepare], then, unless the dispatcher
         failed before it, [job_configure] with its header pass *)

Fixpoint enc_run (c : cedrus_enc_h264_context) (es : list enc_event)
    : cedrus_enc_h264_context * list cedrus_enc_h264_job :=
  match es with
  | [] => (c, [])
  | Ev_ctrl ctrl :: es' => enc_run (cedrus_enc_h264_ctrl_prepare c ctrl) es'
  | Ev_job configured :: es' =>
      let (c1, job) := cedrus_enc_h264_job_prepare c in
      let c2 := if configured
                then fst (cedrus_enc_h264_job_configure_headers c1) else c1 in
      let (c3, jobs) := enc_run c2 es' in
      (c3, job :: jobs)
  end.

(** The jobs of a session, in dispatch order. *)
Definition enc_jobs (c : cedrus_enc_h264_context) (es : list enc_event) :=
  snd (enc_run c es).

(** The context a dispatched job leaves behind. *)
Definition after_job (c : cedrus_enc_h264_context) (configured : bool) :=
  let c1 := fst (cedrus_enc_h264_job_prepare c) in
  if configured then fst (cedrus_enc_h264_job_configure_headers c1) else c1.

(** Events that leave the GOP controls and the force-key-frame request
    alone. *)
Definition gop_neutral (e : enc_event) : bool :=
  match e with
  | Ev_ctrl (Ctrl_int V4L2_CID_MPEG_VIDEO_GOP_CLOSURE _)
  | Ev_ctrl (Ctrl_int V4L2_CID_MPEG_VIDEO_GOP_SIZE _)
  | Ev_ctrl (Ctrl_int V4L2_CID_MPEG_VIDEO_H264_I_PERIOD _)
  | Ev_ctrl Ctrl_force_key_frame => false
  | _ => true
  end.

(** The part of the context the GOP decision reads. *)
Definition gop_view (c : cedrus_enc_h264_context) :=
  (gop_closure c, gop_size c, gop_open_i_period c, force_key_frame c,
   gop_index (state c)).

(** The frame counters and their moduli. *)
Definition counters (c : cedrus_enc_h264_context) :=
  (log2_max_frame_num c, log2_max_pic_order_cnt_lsb c,
   state_frame_num (state c), state_pic_order_cnt_lsb (state c)).

Definition counters_ok (l1 l2 fn poc : Z) : Prop :=
  0 <= l1 < 32 /\ 0 <= l2 < 32 /\ 0 <= fn < 2 ^ l1 /\ 0 <= poc < 2 ^ l2.

(** The ranges [cedrus_enc_h264_ctrl_configs] declares for the four QP
    controls (min 0, max 51); the control framework enforces them. *)
Definition qp_controls_in_range (c : cedrus_enc_h264_context) : Prop :=
  0 <= qp_min c <= 51 /\ 0 <= qp_max c <= 51 /\
  0 <= qp_i c <= 51 /\ 0 <= qp_p c <= 51.

(** The per-frame-type QP control. *)
Definition frame_qp (c : cedrus_enc_h264_context)
    (t : cedrus_enc_h264_frame_type) : Z :=
  match t with
  | CEDRUS_ENC_H264_FRAME_TYPE_IDR | CEDRUS_ENC_H264_FRAME_TYPE_I => qp_i c
  | _ => qp_p c
  end.

(* ================================================================== *)
(** ** H.264 encoder: the picture parameter set and the slice header
       (cedrus_enc_h264.[ch]) *)

(** [u8]: reduction to the low 8 bits. *)
Definition u8 (x : Z) : Z := x mod 2 ^ 8.

(** [GENMASK(h, l)]: the bits [l] to [h], both included. *)
Definition GENMASK (h l : Z) : Z := Z.shiftl (Z.ones (h - l + 1)) l.

Definition CENDRUS_ENC_H264_NALU_TYPE_SLICE_NON_IDR : Z := 1.
Definition CENDRUS_ENC_H264_NALU_TYPE_SLICE_IDR : Z := 5.
Definition CENDRUS_ENC_H264_NALU_TYPE_SPS : Z := 7.
Definition CENDRUS_ENC_H264_NALU_TYPE_PPS : Z := 8.

Definition CEDRUS_ENC_H264_SLICE_TYPE_I : Z := 2.
Definition CEDRUS_ENC_H264_SLICE_TYPE_P : Z := 0.

(** [cedrus_enc_h264_nalu_header]: both parameters and the result are
    [u8]. *)
Definition cedrus_enc_h264_nalu_header (type ref_idc : Z) : Z :=
  u8 (Z.lor (Z.land (u8 type) (GENMASK 4 0))
            (Z.land (Z.shiftl (u8 ref_idc) 5) (GENMASK 6 5))).

(** The loop of [cedrus_enc_h264_coded_bytes], one round per byte left;
    [bits] is eight times the number of bytes left.  Shifting the
    32-bit [value] by 32 or more is undefined in C, hence [None]. *)
Fixpoint coded_bytes_loop (bytes_left : nat) (dev : cedrus_device) (value : Z)
    : option cedrus_device :=
  match bytes_left with
  | O => Some dev
  | S n =>
      let bits := 8 * Z.of_nat bytes_left in
      if 32 <=? bits - 8 then None
      else
        let value_slice :=
          u8 (Z.land (Z.shiftr value (bits - 8)) (GENMASK 7 0)) in
        coded_bytes_loop n (cedrus_enc_h264_coded_append dev value_slice 8)
          value
  end.

(** [cedrus_enc_h264_coded_bytes]. *)
Definition cedrus_enc_h264_coded_bytes (dev : cedrus_device)
    (value : Z) (bytes_count : Z) : option cedrus_device :=
  coded_bytes_loop (Z.to_nat (u32 bytes_count)) dev (u32 value).

(** [cedrus_enc_h264_coded_u32] and [cedrus_enc_h264_coded_u8]; the
    parameter types truncate. *)
Definition cedrus_enc_h264_coded_u32 (dev : cedrus_device) (value : Z) :=
  cedrus_enc_h264_coded_bytes dev (u32 value) 4.
Definition cedrus_enc_h264_coded_u8 (dev : cedrus_device) (value : Z) :=
  cedrus_enc_h264_coded_append dev (u8 value) 8.

(** One call on the bit writer, with the argument as the caller
    computes it. *)
Inductive coded_call :=
  | Coded_u32 (value : Z)
  | Coded_u8 (value : Z)
  | Coded_bit (value : Z)
  | Coded_append (value count : Z)
  | Coded_ue (value : Z)
  | Coded_se (value : Z)
  | Coded_align.

Definition coded_call_run (dev : cedrus_device) (call : coded_call)
    : option cedrus_device :=
  match call with
  | Coded_u32 v => cedrus_enc_h264_coded_u32 dev v
  | Coded_u8 v => Some (cedrus_enc_h264_coded_u8 dev v)
  | Coded_bit v => Some (cedrus_enc_h264_coded_bit dev v)
  | Coded_append v n => Some (cedrus_enc_h264_coded_append dev v n)
  | Coded_ue v => cedrus_enc_h264_coded_ue dev v
  | Coded_se v => cedrus_enc_h264_coded_se dev v
  | Coded_align => Some (cedrus_enc_h264_coded_align dev)
  end.

(** The calls of a function body, made one after the other. *)
Fixpoint coded_calls_run (dev : cedrus_device) (calls : list coded_call)
    : option cedrus_device :=
  match calls with
  | [] => Some dev
  | call :: calls' =>
      match coded_call_run dev call with
      | Some dev' => coded_calls_run dev' calls'
      | None => None
      end
  end.

(** [cedrus_enc_h264_job_configure_pps]: its calls on the bit writer. *)
Definition cedrus_enc_h264_job_configure_pps
    (c : cedrus_enc_h264_context) (job : cedrus_enc_h264_job)
    : list coded_call :=
  let header := cedrus_enc_h264_nalu_header CENDRUS_ENC_H264_NALU_TYPE_PPS 3 in
  [Coded_u32 1;                                 (* Annex-B start code *)
   Coded_u8 header;
   Coded_ue (pic_parameter_set_id job);
   Coded_ue (seq_parameter_set_id job);
   Coded_bit (entropy_coding_mode_flag job);
   Coded_bit 0;  (* bottom_field_pic_order_in_frame_present_flag *)
   Coded_ue 0;                             (* num_slice_groups_minus1 *)
   Coded_ue 0;              (* num_ref_idx_l0_default_active_minus1 *)
   Coded_ue 0;              (* num_ref_idx_l1_default_active_minus1 *)
   Coded_bit 0;                                  (* weighted_pred_flag *)
   Coded_append 0 2;                            (* weighted_bipred_idc *)
   Coded_se (pic_init_qp_minus26 (state c));
   Coded_se (pic_init_qp_minus26 (state c));     (* pic_init_qs_minus26 *)
   Coded_se (s32 (job_chroma_qp_index_offset job));
   Coded_bit 1;         (* deblocking_filter_control_present_flag *)
   Coded_bit 0;                         (* constrained_intra_pred_flag *)
   Coded_bit 0;                      (* redundant_pic_cnt_present_flag *)
   Coded_bit 1;                                   (* rbsp_stop_one_bit *)
   Coded_align].

(** [cedrus_enc_h264_job_configure_slice_header]: its calls on the bit
    writer. *)
Definition cedrus_enc_h264_job_configure_slice_header
    (c : cedrus_enc_h264_context) (job : cedrus_enc_h264_job)
    : list coded_call :=
  let nalu_type :=
    if is_idr (frame_type job) then CENDRUS_ENC_H264_NALU_TYPE_SLICE_IDR
    else CENDRUS_ENC_H264_NALU_TYPE_SLICE_NON_IDR in
  let header := cedrus_enc_h264_nalu_header nalu_type (nal_ref_idc job) in
  let slice_type :=
    match frame_type job with
    | CEDRUS_ENC_H264_FRAME_TYPE_IDR
    | CEDRUS_ENC_H264_FRAME_TYPE_I => CEDRUS_ENC_H264_SLICE_TYPE_I
    | _ => CEDRUS_ENC_H264_SLICE_TYPE_P
    end in
  [Coded_u32 1;                                 (* Annex-B start code *)
   Coded_u8 header;
   Coded_ue 0;                                    (* first_mb_in_slice *)
   Coded_ue slice_type;
   Coded_ue (pic_parameter_set_id job);
   Coded_append (frame_num job) (log2_max_frame_num c)] ++
  (if is_idr (frame_type job) then [Coded_ue (idr_pic_id job)] else []) ++
  (if pic_order_cnt_type c =? 0 then
     [Coded_append (pic_order_cnt_lsb job) (log2_max_pic_order_cnt_lsb c)]
   else []) ++
  (if slice_type =? CEDRUS_ENC_H264_SLICE_TYPE_P then
     [Coded_bit 0;                (* num_ref_idx_active_override_flag *)
      Coded_bit 0]               (* ref_pic_list_modification_flag_l0 *)
   else []) ++
  (if is_idr (frame_type job) then
     [Coded_bit 0;                      (* no_output_of_prior_pics_flag *)
      Coded_bit 0]                          (* long_term_reference_flag *)
   else
     [Coded_bit 0]) ++          (* adaptive_ref_pic_marking_mode_flag *)
  (if negb (slice_type =? CEDRUS_ENC_H264_SLICE_TYPE_I) &&
      negb (entropy_coding_mode_flag job =? 0)
   then [Coded_ue (cabac_init_idc job)] else []) ++
  [Coded_se (slice_qp_delta job (state c));
   Coded_ue (disable_deblocking_filter_idc job)] ++
  (if negb (disable_deblocking_filter_idc job =? 1) then
     [Coded_se (slice_alpha_c0_offset_div2 job);
      Coded_se (slice_beta_offset_div2 job)]
   else []).

(** *** A session with what each job leaves in the coded stream *)

Definition nal_unit_eqb (a b : nal_unit) : bool :=
  match a, b with
  | NAL_SPS, NAL_SPS | NAL_PPS, NAL_PPS | NAL_SLICE, NAL_SLICE => true
  | _, _ => false
  end.

(** One dispatched job: the context [job_prepare] finds, the job it
    fills in, the context it leaves, which is the one the header
    functions read (the header pass itself only moves [state->step]),
    and the NAL units the header pass writes, none when the dispatcher
    failed before [job_configure]. *)
Record enc_unit := mk_enc_unit {
  unit_context : cedrus_enc_h264_context;
  unit_job : cedrus_enc_h264_job;
  unit_state : cedrus_enc_h264_context;
  unit_nals : list nal_unit
}.

(** The jobs of a session with their header passes; the same run as
    [enc_run]. *)
Fixpoint enc_units (c : cedrus_enc_h264_context) (es : list enc_event)
    : list enc_unit :=
  match es with
  | [] => []
  | Ev_ctrl ctrl :: es' => enc_units (cedrus_enc_h264_ctrl_prepare c ctrl) es'
  | Ev_job configured :: es' =>
      let (c1, job) := cedrus_enc_h264_job_prepare c in
      let nals :=
        if configured then snd (cedrus_enc_h264_job_configure_headers c1)
        else [] in
      mk_enc_unit c job c1 nals :: enc_units (after_job c configured) es'
  end.

Definition nal_written (k : nal_unit) (u : enc_unit) : bool :=
  existsb (nal_unit_eqb k) (unit_nals u).

(** The job whose header pass wrote the picture parameter set that is
    in force after the jobs [us]: the last one that wrote one, [prev]
    if none did. *)
Definition active_pps_from (prev : option enc_unit) (us : list enc_unit)
    : option enc_unit :=
  fold_left (fun acc u => if nal_written NAL_PPS u then Some u else acc)
    us prev.

Definition active_pps (us : list enc_unit) : option enc_unit :=
  active_pps_from None us.

(** The ranges [cedrus_enc_h264_ctrl_configs] declares for the integer
    controls (minimum, maximum), which the control framework enforces;
    a boolean control holds 0 or 1. *)
Definition ctrl_config_range (id : v4l2_cid) : Z * Z :=
  match id with
  | V4L2_CID_MPEG_VIDEO_PREPEND_SPSPPS_TO_IDR => (0, 1)
  | V4L2_CID_MPEG_VIDEO_H264_VUI_SAR_ENABLE => (0, 1)
  | V4L2_CID_MPEG_VIDEO_H264_VUI_SAR_IDC => (0, 17)
  | V4L2_CID_MPEG_VIDEO_H264_VUI_EXT_SAR_WIDTH => (1, 65535)
  | V4L2_CID_MPEG_VIDEO_H264_VUI_EXT_SAR_HEIGHT => (1, 65535)
  | V4L2_CID_MPEG_VIDEO_H264_CHROMA_QP_INDEX_OFFSET => (0, 7)
  | V4L2_CID_MPEG_VIDEO_H264_LOOP_FILTER_ALPHA => (-6, 6)
  | V4L2_CID_MPEG_VIDEO_H264_LOOP_FILTER_BETA => (-6, 6)
  | V4L2_CID_MPEG_VIDEO_H264_MIN_QP => (0, 51)
  | V4L2_CID_MPEG_VIDEO_H264_MAX_QP => (0, 51)
  | V4L2_CID_MPEG_VIDEO_H264_I_FRAME_QP => (0, 51)
  | V4L2_CID_MPEG_VIDEO_H264_P_FRAME_QP => (0, 51)
  | V4L2_CID_MPEG_VIDEO_GOP_CLOSURE => (0, 1)
  | V4L2_CID_MPEG_VIDEO_GOP_SIZE => (1, 65535)
  | V4L2_CID_MPEG_VIDEO_H264_I_PERIOD => (1, 65535)
  end.

Definition ctrl_in_range (ctrl : v4l2_ctrl) : bool :=
  match ctrl with
  | Ctrl_int id val =>
      (fst (ctrl_config_range id) <=? val) &&
      (val <=? snd (ctrl_config_range id))
  | _ => true
  end.

Definition event_in_range (e : enc_event) : bool :=
  match e with
  | Ev_ctrl ctrl => ctrl_in_range ctrl
  | Ev_job _ => true
  end.

(** *** The H.264 syntax the headers are read back with

    The parsing process of the standard for the syntax this encoder
    writes: the NAL unit header (clause 7.3.1),
    pic_parameter_set_rbsp() (7.3.2.2) and slice_header() (7.3.3) for
    frame pictures.  Syntax the encoder never enables (slice groups,
    picture order count types 1 and 2, fields, weighted prediction and
    the like) is not read: a stream that announces it is refused with
    [None].  The encoder writes its headers with emulation prevention
    switched off, and the bits are read as they were written. *)

Definition parser (A : Type) := list bool -> option (A * list bool).

Definition p_ret {A} (a : A) : parser A := fun bs => Some (a, bs).
Definition p_fail {A} : parser A := fun _ => None.
Definition p_bind {A B} (p : parser A) (f : A -> parser B) : parser B :=
  fun bs =>
    match p bs with
    | Some (a, bs') => f a bs'
    | None => None
    end.

Declare Scope parser_scope.
Delimit Scope parser_scope with parser.
Notation "'let*' x := p 'in' q" :=
  (p_bind p (fun x => q))
  (at level 10, x name, p at level 200, q at level 200) : parser_scope.

(** u(n), ue(v) and se(v). *)
Definition p_u (n : nat) : parser Z := read_bits n 0.
Definition p_ue : parser Z := decode_ue.
Definition p_se : parser Z := decode_se.

(** A syntax element that must have a given value for the parser to go
    on. *)
Definition p_expect (p : parser Z) (v : Z) : parser unit :=
  p_bind p (fun x => if x =? v then p_ret tt else p_fail).

Local Open Scope parser_scope.

(** nal_unit() header byte: forbidden_zero_bit, nal_ref_idc,
    nal_unit_type. *)
Record nal_header := mk_nal_header {
  nh_nal_ref_idc : Z;
  nh_nal_unit_type : Z
}.

Definition p_nal_header : parser nal_header :=
  let* _ := p_expect (p_u 1) 0 in
  let* ref_idc := p_u 2 in
  let* type := p_u 5 in
  p_ret (mk_nal_header ref_idc type).

(** The Annex B prefix the encoder writes before each NAL unit:
    zero_byte and start_code_prefix_one_3bytes. *)
Definition p_start_code : parser unit := p_expect (p_u 32) 1.

(** rbsp_trailing_bits() (7.3.2.11): the stop bit and zero bits up to
    the end of the NAL unit, fewer than eight. *)
Definition rbsp_trailing_bits (bs : list bool) : Prop :=
  exists k : nat, (k < 8)%nat /\ bs = true :: repeat false k.

(** The fields of the active sequence parameter set that slice_header()
    depends on. *)
Record sps_syntax := mk_sps_syntax {
  sps_log2_max_frame_num_minus4 : Z;
  sps_pic_order_cnt_type : Z;
  sps_log2_max_pic_order_cnt_lsb_minus4 : Z;
  sps_frame_mbs_only_flag : Z
}.

Record pps_syntax := mk_pps_syntax {
  pps_pic_parameter_set_id : Z;
  pps_seq_parameter_set_id : Z;
  pps_entropy_coding_mode_flag : Z;
  pps_bottom_field_pic_order_in_frame_present_flag : Z;
  pps_num_ref_idx_l0_default_active_minus1 : Z;
  pps_num_ref_idx_l1_default_active_minus1 : Z;
  pps_weighted_pred_flag : Z;
  pps_weighted_bipred_idc : Z;
  pps_pic_init_qp_minus26 : Z;
  pps_pic_init_qs_minus26 : Z;
  pps_chroma_qp_index_offset : Z;
  pps_deblocking_filter_control_present_flag : Z;
  pps_constrained_intra_pred_flag : Z;
  pps_redundant_pic_cnt_present_flag : Z
}.

(** pic_parameter_set_rbsp() up to the trailing bits. *)
Definition p_pps : parser pps_syntax :=
  let* pic_parameter_set_id := p_ue in
  let* seq_parameter_set_id := p_ue in
  let* entropy_coding_mode_flag := p_u 1 in
  let* bottom_field_pic_order_in_frame_present_flag := p_u 1 in
  let* _ := p_expect p_ue 0 in                (* num_slice_groups_minus1 *)
  let* num_ref_idx_l0_default_active_minus1 := p_ue in
  let* num_ref_idx_l1_default_active_minus1 := p_ue in
  let* weighted_pred_flag := p_u 1 in
  let* weighted_bipred_idc := p_u 2 in
  let* pic_init_qp_minus26 := p_se in
  let* pic_init_qs_minus26 := p_se in
  let* chroma_qp_index_offset := p_se in
  let* deblocking_filter_control_present_flag := p_u 1 in
  let* constrained_intra_pred_flag := p_u 1 in
  let* redundant_pic_cnt_present_flag := p_u 1 in
  p_ret (mk_pps_syntax pic_parameter_set_id seq_parameter_set_id
           entropy_coding_mode_flag
           bottom_field_pic_order_in_frame_present_flag
           num_ref_idx_l0_default_active_minus1
           num_ref_idx_l1_default_active_minus1
           weighted_pred_flag weighted_bipred_idc
           pic_init_qp_minus26 pic_init_qs_minus26 chroma_qp_index_offset
           deblocking_filter_control_present_flag
           constrained_intra_pred_flag redundant_pic_cnt_present_flag).

Record slice_header_syntax := mk_slice_header_syntax {
  sh_first_mb_in_slice : Z;
  sh_slice_type : Z;
  sh_pic_parameter_set_id : Z;
  sh_frame_num : Z;
  sh_idr_pic_id : Z;
  sh_pic_order_cnt_lsb : Z;
  sh_cabac_init_idc : Z;
  sh_slice_qp_delta : Z;
  sh_disable_deblocking_filter_idc : Z;
  sh_slice_alpha_c0_offset_div2 : Z;
  sh_slice_beta_offset_div2 : Z
}.

(** slice_header() of a slice in the NAL unit [nh], under the active
    parameter sets [sps] and [pps]. *)
Definition p_slice_header (nh : nal_header) (sps : sps_syntax)
    (pps : pps_syntax) : parser slice_header_syntax :=
  let idr := nh_nal_unit_type nh =? 5 in
  let* first_mb_in_slice := p_ue in
  let* slice_type := p_ue in
  let slice_type_p := slice_type mod 5 =? 0 in
  let slice_type_i := slice_type mod 5 =? 2 in
  if negb (slice_type_p || slice_type_i) then p_fail else
  let* pic_parameter_set_id := p_ue in
  let* frame_num :=
    p_u (Z.to_nat (sps_log2_max_frame_num_minus4 sps + 4)) in
  if sps_frame_mbs_only_flag sps =? 0 then p_fail else
  let* idr_pic_id := if idr then p_ue else p_ret 0 in
  if negb (sps_pic_order_cnt_type sps =? 0) then p_fail else
  let* pic_order_cnt_lsb :=
    p_u (Z.to_nat (sps_log2_max_pic_order_cnt_lsb_minus4 sps + 4)) in
  if negb (pps_bottom_field_pic_order_in_frame_present_flag pps =? 0)
  then p_fail else
  if negb (pps_redundant_pic_cnt_present_flag pps =? 0) then p_fail else
  let* _ :=
    if slice_type_p then
      let* _ := p_expect (p_u 1) 0 in (* num_ref_idx_active_override_flag *)
      p_expect (p_u 1) 0            (* ref_pic_list_modification_flag_l0 *)
    else p_ret tt in
  if slice_type_p && negb (pps_weighted_pred_flag pps =? 0) then p_fail else
  let* _ :=
    if nh_nal_ref_idc nh =? 0 then p_ret tt
    else if idr then
      let* _ := p_u 1 in                  (* no_output_of_prior_pics_flag *)
      let* _ := p_u 1 in                      (* long_term_reference_flag *)
      p_ret tt
    else p_expect (p_u 1) 0 in   (* adaptive_ref_pic_marking_mode_flag *)
  let* cabac_init_idc :=
    if negb (pps_entropy_coding_mode_flag pps =? 0) && negb slice_type_i
    then p_ue else p_ret 0 in
  let* slice_qp_delta := p_se in
  let* deblocking :=
    if negb (pps_deblocking_filter_control_present_flag pps =? 0) then
      let* disable_deblocking_filter_idc := p_ue in
      if negb (disable_deblocking_filter_idc =? 1) then
        let* slice_alpha_c0_offset_div2 := p_se in
        let* slice_beta_offset_div2 := p_se in
        p_ret (disable_deblocking_filter_idc, slice_alpha_c0_offset_div2,
               slice_beta_offset_div2)
      else p_ret (disable_deblocking_filter_idc, 0, 0)
    else p_ret (0, 0, 0) in
  p_ret (mk_slice_header_syntax first_mb_in_slice slice_type
           pic_parameter_set_id frame_num idr_pic_id pic_order_cnt_lsb
           cabac_init_idc slice_qp_delta
           (fst (fst deblocking)) (snd (fst deblocking)) (snd deblocking)).

(** One NAL unit of the byte stream: start code, header, payload. *)
Definition p_nal {A} (payload : nal_header -> parser A)
    : parser (nal_header * A) :=
  let* _ := p_start_code in
  let* nh := p_nal_header in
  let* a := payload nh in
  p_ret (nh, a).

Local Close Scope parser_scope.

(** The luma QP a decoder derives for a slice (clause 7.4.3):
    SliceQPY = 26 + pic_init_qp_minus26 + slice_qp_delta. *)
Definition SliceQPY (pps : pps_syntax) (sh : slice_header_syntax) : Z :=
  26 + pps_pic_init_qp_minus26 pps + sh_slice_qp_delta sh.

(** The code words of ue(v) and se(v) (clause 9.1). *)
Definition ue_bits (v : Z) : list bool :=
  be_bits (Z.to_nat (2 * Z.log2 (v + 1) + 1)) (v + 1).
Definition se_bits (v : Z) : list bool :=
  ue_bits (if 0 <? v then 2 * v - 1 else -2 * v).

(** The arguments ue(v) and se(v) have a code word for. *)
Definition ue_arg (v : Z) : Prop := 0 <= v < UINT_MAX.
Definition se_arg (v : Z) : Prop := INT_MIN < v <= INT_MAX.

(** The picture parameter set the encoder means to write for a job. *)
Definition pps_syntax_of (c : cedrus_enc_h264_context)
    (job : cedrus_enc_h264_job) : pps_syntax :=
  mk_pps_syntax (pic_parameter_set_id job) (seq_parameter_set_id job)
    (entropy_coding_mode_flag job) 0 0 0 0 0
    (pic_init_qp_minus26 (state c)) (pic_init_qp_minus26 (state c))
    (s32 (job_chroma_qp_index_offset job)) 1 0 0.

(** The slice header the encoder means to write. *)
Definition slice_header_syntax_of (c : cedrus_enc_h264_context)
    (job : cedrus_enc_h264_job) : slice_header_syntax :=
  let intra :=
    match frame_type job with
    | CEDRUS_ENC_H264_FRAME_TYPE_IDR
    | CEDRUS_ENC_H264_FRAME_TYPE_I => true
    | _ => false
    end in
  mk_slice_header_syntax 0
    (if intra then CEDRUS_ENC_H264_SLICE_TYPE_I
     else CEDRUS_ENC_H264_SLICE_TYPE_P)
    (pic_parameter_set_id job)
    (frame_num job)
    (if is_idr (frame_type job) then idr_pic_id job else 0)
    (pic_order_cnt_lsb job)
    (if negb intra && negb (entropy_coding_mode_flag job =? 0)
     then cabac_init_idc job else 0)
    (slice_qp_delta job (state c))
    (disable_deblocking_filter_idc job)
    (if disable_deblocking_filter_idc job =? 1 then 0
     else slice_alpha_c0_offset_div2 job)
    (if disable_deblocking_filter_idc job =? 1 then 0
     else slice_beta_offset_div2 job).

(** What [cedrus_enc_h264_job_configure_sps] announces of the fields
    slice_header() depends on: the two counter widths of the context,
    picture order count type 0 and frames only. *)
Definition sps_describes (c : cedrus_enc_h264_context) (sps : sps_syntax)
    : Prop :=
  sps_log2_max_frame_num_minus4 sps = log2_max_frame_num c - 4 /\
  sps_pic_order_cnt_type sps = 0 /\
  sps_log2_max_pic_order_cnt_lsb_minus4 sps =
    log2_max_pic_order_cnt_lsb c - 4 /\
  sps_frame_mbs_only_flag sps = 1.

(** The value ranges in which the job and the state that
    [cedrus_enc_h264_job_prepare] leaves can be written: identifiers and
    flags as the function sets them, every Exp-Golomb argument within
    the range that has a code word, the counters below their moduli. *)
Definition job_in_range (c : cedrus_enc_h264_context)
    (job : cedrus_enc_h264_job) : Prop :=
  0 < nal_ref_idc job < 4 /\
  ue_arg (seq_parameter_set_id job) /\
  ue_arg (pic_parameter_set_id job) /\
  ue_arg (idr_pic_id job) /\
  0 <= entropy_coding_mode_flag job <= 1 /\
  ue_arg (cabac_init_idc job) /\
  ue_arg (disable_deblocking_filter_idc job) /\
  se_arg (s32 (job_chroma_qp_index_offset job)) /\
  se_arg (slice_alpha_c0_offset_div2 job) /\
  se_arg (slice_beta_offset_div2 job) /\
  se_arg (pic_init_qp_minus26 (state c)) /\
  se_arg (slice_qp_delta job (state c)) /\
  pic_order_cnt_type c = 0 /\
  4 <= log2_max_frame_num c <= 16 /\
  4 <= log2_max_pic_order_cnt_lsb c <= 16 /\
  0 <= frame_num job < 2 ^ log2_max_frame_num c /\
  0 <= pic_order_cnt_lsb job < 2 ^ log2_max_pic_order_cnt_lsb c.

(** What a session keeps true of its context: the cached controls
    within their declared ranges (or still 0), the initial QP within
    the QP range, the bitstream parameters as [cedrus_enc_h264_setup]
    wrote them and the counters below their moduli. *)
Definition enc_context_in_range (c : cedrus_enc_h264_context) : Prop :=
  qp_controls_in_range c /\
  0 <= chroma_qp_index_offset c <= 7 /\
  -6 <= loop_filter_alpha c <= 6 /\
  -6 <= loop_filter_beta c <= 6 /\
  0 <= qp_init (state c) <= 51 /\
  pic_order_cnt_type c = 0 /\
  counters_ok (log2_max_frame_num c) (log2_max_pic_order_cnt_lsb c)
    (state_frame_num (state c)) (state_pic_order_cnt_lsb (state c)) /\
  log2_max_frame_num c = 8 /\ log2_max_pic_order_cnt_lsb c = 8.

(** The flag [cedrus_enc_h264_job_prepare] derives from the entropy
    mode. *)
Definition entropy_flag (c : cedrus_enc_h264_context) : Z :=
  match entropy_mode c with
  | V4L2_MPEG_VIDEO_H264_ENTROPY_MODE_CABAC => 1
  | V4L2_MPEG_VIDEO_H264_ENTROPY_MODE_CAVLC => 0
  end.

(** What links a context to the picture parameter set in force, written
    by the job [prev]: once the headers are past the PPS step, the
    initial QP and the entropy mode are still those the PPS was written
    with. *)
Definition pps_link (c : cedrus_enc_h264_context) (prev : option enc_unit)
    : Prop :=
  step (state c) = CEDRUS_ENC_H264_STEP_SLICE ->
  exists v,
    prev = Some v /\
    qp_init (state (unit_state v)) = qp_init (state c) /\
    entropy_coding_mode_flag (unit_job v) = entropy_flag c /\
    job_in_range (unit_state v) (unit_job v).

(* ================================================================== *)
(** ** Job dispatch and completion (cedrus.c, cedrus_context.c) *)

Inductive cedrus_irq_status :=
  | CEDRUS_IRQ_NONE
  | CEDRUS_IRQ_ERROR
  | CEDRUS_IRQ_SUCCESS.

Inductive vb2_buffer_state := VB2_BUF_STATE_DONE | VB2_BUF_STATE_ERROR.

Inductive irqreturn_t := IRQ_NONE | IRQ_HANDLED.

Inductive cedrus_role := CEDRUS_ROLE_DECODER | CEDRUS_ROLE_ENCODER.

(** A session, as far as completion is concerned: its identity and the
    processing unit ([ctx->proc]) it belongs to. *)
Record cedrus_context := mk_ctx {
  ctx_id : nat;
  ctx_role : cedrus_role
}.

(** The state of [watchdog_work] in the kernel's workqueue: queued with
    its timer running, taken off the queue and executing, or neither. *)
Inductive delayed_work := WORK_IDLE | WORK_PENDING | WORK_RUNNING.

(** What the completion paths do to the outside world, in order. *)
Inductive platform_action :=
  | Request_setup (ctx : cedrus_context)
  | Request_complete (ctx : cedrus_context)
  | Engine_irq_disable (ctx : cedrus_context)
  | Engine_irq_clear (ctx : cedrus_context)
  | Engine_job_trigger (ctx : cedrus_context)
  | Engine_job_finish (ctx : cedrus_context) (st : vb2_buffer_state)
  | Job_cleared (ctx : cedrus_context)
      (* memset(&ctx->job, 0, sizeof(ctx->job)) *)
  | Buf_done_and_job_finish (ctx : cedrus_context) (st : vb2_buffer_state)
      (* v4l2_m2m_buf_done_and_job_finish *)
  | Reset_control_reset.

(** The parts of [struct cedrus_device] that dispatch and completion
    touch: the watchdog, the mem2mem device's current job owner
    ([v4l2_m2m_get_curr_priv]), the active session of either processing
    unit, and the actions performed so far (oldest first). *)
Record platform := mk_platform {
  watchdog_work : delayed_work;
  curr_priv : option cedrus_context;
  dec_ctx_active : option cedrus_context;
  enc_ctx_active : option cedrus_context;
  actions : list platform_action
}.

Definition act (p : platform) (a : list platform_action) : platform :=
  mk_platform (watchdog_work p) (curr_priv p) (dec_ctx_active p)
    (enc_ctx_active p) (actions p ++ a).

Definition set_watchdog_work (p : platform) (w : delayed_work) : platform :=
  mk_platform w (curr_priv p) (dec_ctx_active p) (enc_ctx_active p) (actions p).

Definition set_curr_priv (p : platform) (c : option cedrus_context) : platform :=
  mk_platform (watchdog_work p) c (dec_ctx_active p) (enc_ctx_active p)
    (actions p).

(** [cedrus_proc_context_active_update(ctx->proc, ctx)]. *)
Definition cedrus_proc_context_active_update (p : platform)
    (ctx : cedrus_context) : platform :=
  match ctx_role ctx with
  | CEDRUS_ROLE_DECODER =>
      mk_platform (watchdog_work p) (curr_priv p) (Some ctx)
        (enc_ctx_active p) (actions p)
  | CEDRUS_ROLE_ENCODER =>
      mk_platform (watchdog_work p) (curr_priv p) (dec_ctx_active p)
        (Some ctx) (actions p)
  end.

(** The workqueue's [cancel_delayed_work]: true exactly when the work
    was still pending, which it then no longer is; the test and the
    removal are one atomic step. *)
Definition cancel_delayed_work (p : platform) : bool * platform :=
  match watchdog_work p with
  | WORK_PENDING => (true, set_watchdog_work p WORK_IDLE)
  | _ => (false, p)
  end.

(** [schedule_delayed_work]. *)
Definition schedule_delayed_work (p : platform) : platform :=
  match watchdog_work p with
  | WORK_IDLE => set_watchdog_work p WORK_PENDING
  | _ => p
  end.

(** [cedrus_context_job_finish]; the mem2mem call reports the buffers
    and gives up the current job. *)
Definition cedrus_context_job_finish (p : platform) (ctx : cedrus_context)
    (st : vb2_buffer_state) : platform :=
  let p := act p [Engine_job_finish ctx st] in
  let p := act p [Job_cleared ctx] in
  set_curr_priv (act p [Buf_done_and_job_finish ctx st]) None.

(** [cedrus_irq_disable_clear]. *)
Definition cedrus_irq_disable_clear (p : platform) (ctx : cedrus_context)
    : platform :=
  act (act p [Engine_irq_disable ctx]) [Engine_irq_clear ctx].

(** [cedrus_irq_spurious]. *)
Definition cedrus_irq_spurious (p : platform) : platform :=
  let p := match dec_ctx_active p with
           | Some ctx => cedrus_irq_disable_clear p ctx
           | None => p
           end in
  match enc_ctx_active p with
  | Some ctx => cedrus_irq_disable_clear p ctx
  | None => p
  end.

(** [cedrus_watchdog] from the point where its local [ctx] holds what
    [v4l2_m2m_get_curr_priv] returned. *)
Definition cedrus_watchdog_finish (p : platform)
    (ctx : option cedrus_context) : platform :=
  match ctx with
  | None => p
  | Some ctx =>
      let p := act p [Reset_control_reset] in
      cedrus_context_job_finish p ctx VB2_BUF_STATE_ERROR
  end.

(** [cedrus_watchdog], run without anything happening in between. *)
Definition cedrus_watchdog (p : platform) : platform :=
  let ctx := curr_priv p in
  cedrus_watchdog_finish p ctx.

(** [cedrus_irq]; [status] is what [cedrus_engine_irq_status(ctx)]
    reads from the hardware when it is called. *)
Definition cedrus_irq (p : platform) (status : cedrus_irq_status)
    : platform * irqreturn_t :=
  let ctx := curr_priv p in
  let (cancelled, p) := cancel_delayed_work p in
  if negb cancelled then (cedrus_irq_spurious p, IRQ_HANDLED)
  else
    match ctx with
    | None => (cedrus_irq_spurious p, IRQ_NONE)
    | Some ctx =>
        match status with
        | CEDRUS_IRQ_NONE => (p, IRQ_NONE)
        | _ =>
            let p := cedrus_irq_disable_clear p ctx in
            let st := match status with
                      | CEDRUS_IRQ_ERROR => VB2_BUF_STATE_ERROR
                      | _ => VB2_BUF_STATE_DONE
                      end in
            (cedrus_context_job_finish p ctx st, IRQ_HANDLED)
        end
    end.

(** The results of the fallible steps of [cedrus_context_job_run], in
    call order (0 is success, otherwise a negative errno). *)
Record job_run_steps := mk_steps {
  job_prepare_ret : Z;
  format_configure_ret : Z;
  format_picture_configure_ret : Z;
  job_configure_ret : Z
}.

(** [cedrus_context_job_run], called by the mem2mem framework once it
    made [ctx] the owner of the current job. *)
Definition cedrus_context_job_run (p : platform) (ctx : cedrus_context)
    (req : bool) (r : job_run_steps) : platform * Z :=
  let p := act p [Job_cleared ctx] in
  let p := if req then act p [Request_setup ctx] else p in
  let ret :=
    if negb (job_prepare_ret r =? 0) then job_prepare_ret r
    else if negb (format_configure_ret r =? 0) then format_configure_ret r
    else if negb (format_picture_configure_ret r =? 0)
         then format_picture_configure_ret r
    else job_configure_ret r in
  let p := if req then act p [Request_complete ctx] else p in
  if negb (ret =? 0) then
    (cedrus_context_job_finish p ctx VB2_BUF_STATE_ERROR, ret)
  else
    let p := cedrus_proc_context_active_update p ctx in
    let p := schedule_delayed_work p in
    (act p [Engine_job_trigger ctx], 0).

(** [cedrus_v4l2_m2m_device_run] as the framework invokes it. *)
Definition cedrus_v4l2_m2m_device_run (p : platform) (ctx : cedrus_context)
    (req : bool) (r : job_run_steps) : platform * Z :=
  cedrus_context_job_run (set_curr_priv p (Some ctx)) ctx req r.

(** [cedrus_irq] from the point where its local [ctx] holds what
    [v4l2_m2m_get_curr_priv] returned: [cancel_delayed_work] and what
    follows it. *)
Definition cedrus_irq_finish (p : platform) (ctx : option cedrus_context)
    (status : cedrus_irq_status) : platform * irqreturn_t :=
  let (cancelled, p) := cancel_delayed_work p in
  if negb cancelled then (cedrus_irq_spurious p, IRQ_HANDLED)
  else
    match ctx with
    | None => (cedrus_irq_spurious p, IRQ_NONE)
    | Some ctx =>
        match status with
        | CEDRUS_IRQ_NONE => (p, IRQ_NONE)
        | _ =>
            let p := cedrus_irq_disable_clear p ctx in
            let st := match status with
                      | CEDRUS_IRQ_ERROR => VB2_BUF_STATE_ERROR
                      | _ => VB2_BUF_STATE_DONE
                      end in
            (cedrus_context_job_finish p ctx st, IRQ_HANDLED)
        end
    end.

(** The interrupt handler runs in interrupt context and the watchdog in
    a worker thread, possibly on another processor, so either can run
    while the other is under way.  Each starts by reading the current
    job's owner into its local [ctx] and acts on that value afterwards:
    [irq_ctx] and [watchdog_ctx] hold the local of a handler that has
    read it and not yet returned. *)
Record system := mk_system {
  sys_platform : platform;
  irq_ctx : option (option cedrus_context);
  watchdog_ctx : option (option cedrus_context)
}.

(** What can happen once a job is dispatched.  The interrupt line
    fires and [cedrus_irq] reads the owner; [cedrus_irq] goes on from
    [cancel_delayed_work] to its return ([status] is what the engine
    reads if it is asked); the watchdog timer expires and a worker takes
    the work, which is no longer pending from then on; [cedrus_watchdog]
    reads the owner; [cedrus_watchdog] goes on to its return. *)
Inductive platform_event :=
  | Ev_irq_enter
  | Ev_irq_finish (status : cedrus_irq_status)
  | Ev_watchdog_expire
  | Ev_watchdog_enter
  | Ev_watchdog_finish.

(** One event; an event that cannot happen in the state it meets (a
    second interrupt while the handler runs, a handler step without its
    start, the work function without the worker having taken the work)
    leaves the state alone. *)
Definition platform_step (m : system) (e : platform_event) : system :=
  let p := sys_platform m in
  match e with
  | Ev_irq_enter =>
      match irq_ctx m with
      | None => mk_system p (Some (curr_priv p)) (watchdog_ctx m)
      | Some _ => m
      end
  | Ev_irq_finish status =>
      match irq_ctx m with
      | Some ctx =>
          mk_system (fst (cedrus_irq_finish p ctx status)) None
            (watchdog_ctx m)
      | None => m
      end
  | Ev_watchdog_expire =>
      match watchdog_work p with
      | WORK_PENDING =>
          mk_system (set_watchdog_work p WORK_RUNNING) (irq_ctx m)
            (watchdog_ctx m)
      | _ => m
      end
  | Ev_watchdog_enter =>
      match watchdog_work p, watchdog_ctx m with
      | WORK_RUNNING, None =>
          mk_system p (irq_ctx m) (Some (curr_priv p))
      | _, _ => m
      end
  | Ev_watchdog_finish =>
      match watchdog_ctx m with
      | Some ctx =>
          mk_system
            (set_watchdog_work (cedrus_watchdog_finish p ctx) WORK_IDLE)
            (irq_ctx m) None
      | None => m
      end
  end.

Definition platform_run (m : system) (es : list platform_event) : system :=
  fold_left platform_step es m.

Definition is_completion (a : platform_action) : bool :=
  match a with Buf_done_and_job_finish _ _ => true | _ => false end.

Definition is_job_cleared (a : platform_action) : bool :=
  match a with Job_cleared _ => true | _ => false end.

(** How often buffer completion was reported / the job structure cleared. *)
Definition completions (l : list platform_action) : nat :=
  length (List.filter is_completion l).
Definition job_clears (l : list platform_action) : nat :=
  length (List.filter is_job_cleared l).

(** The platform right after a successful dispatch of [ctx]'s job, with
    the action log started afresh. *)
Definition dispatched (ctx : cedrus_context) : platform :=
  let p := fst (cedrus_v4l2_m2m_device_run
                  (mk_platform WORK_IDLE None None None []) ctx false
                  (mk_steps 0 0 0 0)) in
  mk_platform (watchdog_work p) (curr_priv p) (dec_ctx_active p)
    (enc_ctx_active p) [].

(** ... with neither handler under way. *)
Definition dispatched_system (ctx : cedrus_context) : system :=
  mk_system (dispatched ctx) None None.

Definition serviced (e : platform_event) : bool :=
  match e with Ev_irq_finish CEDRUS_IRQ_NONE => false | _ => true end.

Definition is_watchdog_event (e : platform_event) : bool :=
  match e with
  | Ev_watchdog_expire | Ev_watchdog_enter | Ev_watchdog_finish => true
  | _ => false
  end.

(** The completion protocol's invariant for the job of [ctx].  A
    handler's local [ctx] is the job's owner whenever the handler will
    act on it.  While the watchdog is pending or its work function under
    way the job is outstanding and nothing was completed; once the
    watchdog is idle either the job was completed, once, or an interrupt
    that won the cancel read no status ([quiet] is false then). *)
Definition completion_inv (ctx : cedrus_context) (quiet : bool)
    (m : system) : Prop :=
  let p := sys_platform m in
  (forall c, irq_ctx m = Some (Some c) -> c = ctx) /\
  match watchdog_work p with
  | WORK_PENDING =>
      curr_priv p = Some ctx /\ completions (actions p) = 0%nat /\
      job_clears (actions p) = 0%nat /\
      watchdog_ctx m = None /\ irq_ctx m <> Some None
  | WORK_RUNNING =>
      curr_priv p = Some ctx /\ completions (actions p) = 0%nat /\
      job_clears (actions p) = 0%nat /\
      (watchdog_ctx m = None \/ watchdog_ctx m = Some (Some ctx))
  | WORK_IDLE =>
      watchdog_ctx m = None /\
      ((curr_priv p = None /\ completions (actions p) = 1%nat /\
        job_clears (actions p) = 1%nat) \/
       (curr_priv p = Some ctx /\ completions (actions p) = 0%nat /\
        job_clears (actions p) = 0%nat /\ quiet = false))
  end.

(* ================================================================== *)
(** ** H.264 decoder: the frame list (cedrus_dec_h264.c) *)

Definition CEDRUS_DEC_H264_FRAME_NUM : Z := 18.

(** Flag bits and array size of the stateless H.264 controls (kernel
    UAPI, include/uapi/linux/v4l2-controls.h). *)
Definition V4L2_H264_NUM_DPB_ENTRIES : nat := 16.
Definition V4L2_H264_DPB_ENTRY_FLAG_VALID : Z := 1.
Definition V4L2_H264_DPB_ENTRY_FLAG_ACTIVE : Z := 2.
Definition V4L2_H264_DECODE_PARAM_FLAG_FIELD_PIC : Z := 2.
Definition V4L2_H264_SPS_FLAG_FRAME_MBS_ONLY : Z := 16.
Definition V4L2_H264_SPS_FLAG_MB_ADAPTIVE_FRAME_FIELD : Z := 32.
Definition V4L2_H264_SPS_FLAG_DIRECT_8X8_INFERENCE : Z := 64.

Definition CEDRUS_DEC_H264_PIC_TYPE_FRAME : Z := 0.
Definition CEDRUS_DEC_H264_PIC_TYPE_FIELD : Z := 1.
Definition CEDRUS_DEC_H264_PIC_TYPE_MBAFF : Z := 2.

Definition ENOMEM : Z := 12.
Definition EINVAL : Z := 22.
Definition ERANGE : Z := 34.
Definition EOPNOTSUPP : Z := 95.

(** [flags & bit] as a C condition. *)
Definition flag_set (flags bit : Z) : bool := negb (Z.land flags bit =? 0).

(** [struct v4l2_h264_dpb_entry], the fields the frame list reads. *)
Record v4l2_h264_dpb_entry := mk_dpb {
  reference_ts : Z;
  flags : Z;
  top_field_order_cnt : Z;
  bottom_field_order_cnt : Z
}.

(** A picture buffer: the vb2 timestamp with its [copied_timestamp]
    mark, and [struct cedrus_dec_h264_buffer]. *)
Record cedrus_buffer := mk_buffer {
  timestamp : Z;
  copied_timestamp : bool;
  position : Z;
  pic_type : Z;
  mv_col_buf_size : Z
}.

(** The picture queue, by vb2 buffer index. *)
Abbreviation vb2_queue := (list cedrus_buffer).

(** The kernel's [vb2_find_buffer]: the first buffer, in index order,
    that carries a copied timestamp equal to [ts]. *)
Fixpoint vb2_find_buffer_from (i : nat) (q : vb2_queue) (ts : Z)
    : option (nat * cedrus_buffer) :=
  match q with
  | [] => None
  | b :: q' =>
      if copied_timestamp b && (timestamp b =? ts) then Some (i, b)
      else vb2_find_buffer_from (S i) q' ts
  end.

Definition vb2_find_buffer (q : vb2_queue) (ts : Z) :=
  vb2_find_buffer_from 0 q ts.

(** [cedrus_buffer_picture_find], with the job's picture queue set. *)
Definition cedrus_buffer_picture_find (q : vb2_queue) (ts : Z) :=
  vb2_find_buffer q ts.

(** [v4l2_m2m_buf_copy_metadata] on the destination buffer: it takes
    the source buffer's timestamp. *)
Definition v4l2_m2m_buf_copy_metadata (q : vb2_queue) (dst : nat) (ts : Z)
    : vb2_queue :=
  match q !! dst with
  | Some b =>
      <[dst := mk_buffer ts true (position b) (pic_type b) (mv_col_buf_size b)]> q
  | None => q
  end.

(** [struct cedrus_dec_h264_sram_ref_pic]; [picture] names the buffer
    whose luma, chroma and motion-vector addresses fill the pointer
    words. *)
Record cedrus_dec_h264_sram_ref_pic := mk_ref_pic {
  sram_top_field_order_cnt : Z;
  sram_bottom_field_order_cnt : Z;
  frame_info : Z;
  picture : nat
}.

(** [cedrus_fill_ref_pic]. *)
Definition cedrus_fill_ref_pic (idx : nat) (b : cedrus_buffer)
    (top bottom : Z) : cedrus_dec_h264_sram_ref_pic :=
  mk_ref_pic (u32 top) (u32 bottom) (u32 (Z.shiftl (pic_type b) 8)) idx.

(** [find_first_zero_bit(&word, size)]: the lowest clear bit below
    [size], or [size] when there is none. *)
Fixpoint find_first_zero_bit_from (fuel : nat) (i word size : Z) : Z :=
  match fuel with
  | O => size
  | S fuel' =>
      if size <=? i then size
      else if Z.testbit word i then find_first_zero_bit_from fuel' (i + 1) word size
      else i
  end.

Definition find_first_zero_bit (word size : Z) : Z :=
  find_first_zero_bit_from (Z.to_nat size) 0 word size.

(** The locals the DPB loop of [cedrus_write_frame_list] updates;
    a cleared [pic_list] slot is [None]. *)
Record frame_list_loop := mk_loop {
  used_dpbs : Z;
  output : Z;
  pic_list : list (option cedrus_dec_h264_sram_ref_pic)
}.

(** One iteration of the loop over [decode->dpb]. *)
Definition frame_list_entry (q : vb2_queue) (ts_out : Z)
    (st : frame_list_loop) (dpb : v4l2_h264_dpb_entry) : frame_list_loop :=
  if negb (flag_set (flags dpb) V4L2_H264_DPB_ENTRY_FLAG_VALID) then st
  else
    match cedrus_buffer_picture_find q (reference_ts dpb) with
    | None => st
    | Some (idx, ref) =>
        let pos := position ref in
        let used := Z.lor (used_dpbs st) (BIT pos) in
        if ts_out =? reference_ts dpb then
          mk_loop used (s32 pos) (pic_list st)
        else if negb (flag_set (flags dpb) V4L2_H264_DPB_ENTRY_FLAG_ACTIVE) then
          mk_loop used (output st) (pic_list st)
        else
          mk_loop used (output st)
            (<[Z.to_nat pos :=
                 Some (cedrus_fill_ref_pic idx ref
                         (top_field_order_cnt dpb)
                         (bottom_field_order_cnt dpb))]> (pic_list st))
    end.

(** The loop's locals on entry. *)
Definition frame_list_loop_init : frame_list_loop :=
  mk_loop 0 (-1) (replicate (Z.to_nat CEDRUS_DEC_H264_FRAME_NUM) None).

(** The index settled on after the loop:
    [if (output >= 0) position = output; else position =
    find_first_zero_bit(&used_dpbs, CEDRUS_DEC_H264_FRAME_NUM);] *)
Definition frame_list_position (st : frame_list_loop) : Z :=
  if 0 <=? output st then u32 (output st)
  else find_first_zero_bit (used_dpbs st) CEDRUS_DEC_H264_FRAME_NUM.

(** What the function needs besides the DPB. *)
Record frame_list_params := mk_params {
  decode_flags : Z;
  decode_top_field_order_cnt : Z;
  decode_bottom_field_order_cnt : Z;
  sps_flags : Z;
  pix_width : Z;
  pix_height : Z;
  alloc_ok : bool   (* whether [dma_alloc_attrs] succeeds, if called *)
}.

(** What the function leaves: its return value, the picture queue, and
    on success the table written to SRAM with the index written to
    VE_H264_OUTPUT_FRAME_IDX. *)
Record frame_list_result := mk_result {
  ret : Z;
  queue_after : vb2_queue;
  sram_list : list (option cedrus_dec_h264_sram_ref_pic);
  output_frame_idx : Z
}.

Definition DIV_ROUND_UP (n d : Z) : Z := (n + d - 1) / d.

(** [cedrus_write_frame_list] for the output picture at index [out] of
    the picture queue (the job's picture buffer is always one of the
    queue's buffers; the first branch only makes the function total). *)
Definition cedrus_write_frame_list (q : vb2_queue) (out : nat)
    (dpb : list v4l2_h264_dpb_entry) (prm : frame_list_params)
    : frame_list_result :=
  match q !! out with
  | None => mk_result (- EINVAL) q [] 0
  | Some pic =>
      let ts_out := timestamp pic in
      let st := fold_left (frame_list_entry q ts_out) dpb frame_list_loop_init in
      let pos := frame_list_position st in
      let field_size :=
        let fs := u32 (DIV_ROUND_UP (pix_width prm) 16 *
                       DIV_ROUND_UP (pix_height prm) 16 * 16) in
        let fs := if flag_set (sps_flags prm) V4L2_H264_SPS_FLAG_DIRECT_8X8_INFERENCE
                  then fs else u32 (fs * 2) in
        if flag_set (sps_flags prm) V4L2_H264_SPS_FLAG_FRAME_MBS_ONLY
        then fs else u32 (fs * 2) in
      if (mv_col_buf_size pic =? 0) && negb (alloc_ok prm) then
        mk_result (- ENOMEM)
          (<[out := mk_buffer ts_out (copied_timestamp pic) pos (pic_type pic) 0]> q)
          [] 0
      else
        let size := if mv_col_buf_size pic =? 0 then u32 (field_size * 2)
                    else mv_col_buf_size pic in
        let ptype :=
          if flag_set (decode_flags prm) V4L2_H264_DECODE_PARAM_FLAG_FIELD_PIC
          then CEDRUS_DEC_H264_PIC_TYPE_FIELD
          else if flag_set (sps_flags prm) V4L2_H264_SPS_FLAG_MB_ADAPTIVE_FRAME_FIELD
          then CEDRUS_DEC_H264_PIC_TYPE_MBAFF
          else CEDRUS_DEC_H264_PIC_TYPE_FRAME in
        let pic' := mk_buffer ts_out (copied_timestamp pic) pos ptype size in
        mk_result 0 (<[out := pic']> q)
          (<[Z.to_nat pos :=
               Some (cedrus_fill_ref_pic out pic'
                       (decode_top_field_order_cnt prm)
                       (decode_bottom_field_order_cnt prm))]> (pic_list st))
          pos
  end.

(** A decode job as far as the frame list goes: the dispatcher copies
    the coded buffer's timestamp onto the picture buffer, then
    [job_configure] writes the frame list. *)
Record h264_decode_job := mk_decode_job {
  job_picture : nat;
  job_timestamp : Z;
  job_dpb : list v4l2_h264_dpb_entry;
  job_params : frame_list_params
}.

Definition h264_decode_job_run (q : vb2_queue) (j : h264_decode_job)
    : frame_list_result :=
  cedrus_write_frame_list
    (v4l2_m2m_buf_copy_metadata q (job_picture j) (job_timestamp j))
    (job_picture j) (job_dpb j) (job_params j).

(** The slots of the valid entries that resolve, in list order, and
    whether a valid entry carries the output timestamp; [slot_of] is the
    slot a timestamp resolves to, if it resolves. *)
Definition slot_of (q : vb2_queue) (ts : Z) : option Z :=
  match cedrus_buffer_picture_find q ts with
  | Some (_, b) => Some (position b)
  | None => None
  end.

Definition dpb_valid (e : v4l2_h264_dpb_entry) : bool :=
  flag_set (flags e) V4L2_H264_DPB_ENTRY_FLAG_VALID.

Definition resolved_slots (q : vb2_queue) (dpb : list v4l2_h264_dpb_entry)
    : list Z :=
  omap (fun e => if dpb_valid e then slot_of q (reference_ts e) else None) dpb.

Definition reoutput (q : vb2_queue) (ts_out : Z)
    (dpb : list v4l2_h264_dpb_entry) : bool :=
  existsb (fun e => dpb_valid e && (ts_out =? reference_ts e)) dpb.

Definition dpb_active (e : v4l2_h264_dpb_entry) : bool :=
  flag_set (flags e) V4L2_H264_DPB_ENTRY_FLAG_ACTIVE.

(** The entries the loop programs into the frame-info table. *)
Definition dpb_programmed (ts_out : Z) (e : v4l2_h264_dpb_entry) : bool :=
  dpb_valid e && negb (ts_out =? reference_ts e) && dpb_active e.

(** Every valid entry resolves to a picture buffer. *)
Definition dpb_resolves (q : vb2_queue) (dpb : list v4l2_h264_dpb_entry) : Prop :=
  forall e, In e dpb -> dpb_valid e = true ->
            exists s, slot_of q (reference_ts e) = Some s.

(** Every buffer holds a slot index of the table. *)
Definition slots_in_table (q : vb2_queue) : Prop :=
  forall b, In b q -> 0 <= position b < CEDRUS_DEC_H264_FRAME_NUM.

(** Valid entries with different timestamps sit in different slots. *)
Definition dpb_slots_distinct (q : vb2_queue)
    (dpb : list v4l2_h264_dpb_entry) : Prop :=
  forall e1 e2 s1 s2,
    In e1 dpb -> In e2 dpb -> dpb_valid e1 = true -> dpb_valid e2 = true ->
    reference_ts e1 <> reference_ts e2 ->
    slot_of q (reference_ts e1) = Some s1 ->
    slot_of q (reference_ts e2) = Some s2 ->
    s1 <> s2.

(* ================================================================== *)
(** ** H.265 decoder: the start of job_configure (cedrus_dec_h265.c) *)

(** The register traffic of [cedrus_dec_h265_job_configure], by
    register; the field encodings of cedrus_regs.h are not part of the
    sources, so each write carries the values it is computed from. *)
Inductive h265_write :=
  | VE_DEC_H265_BITS_OFFSET (v : Z)
  | VE_DEC_H265_BITS_LEN (v : Z)
  | VE_DEC_H265_BITS_ADDR (base : Z)
  | VE_DEC_H265_BITS_END_ADDR (base : Z)
  | VE_DEC_H265_DEC_CTB_ADDR (x y : Z)
  | Tiles_write (x y : Z)                 (* cedrus_dec_h265_tiles_write *)
  | VE_DEC_H265_TILE_START_CTB (v : Z)
  | VE_DEC_H265_TILE_END_CTB (v : Z)
  | VE_DEC_H265_DEC_CTB_NUM (v : Z)
  | VE_DEC_H265_TRIGGER_INIT_SWDEC
  | VE_DEC_H265_TRIGGER_FLUSH_BITS (n : Z)
  | VE_DEC_H265_TRIGGER_SHOW_BITS (n : Z)
  | Remaining_configuration.
      (* the NAL header, SPS, PPS, slice header, prediction weights and
         reference programming that follow the bit skip *)

(** What [cedrus_dec_h265_job_configure] reads before and at the bit
    skip: control fields, the picture buffer's motion-vector buffer
    size, the coded buffer, and what the hardware and the allocator
    answer. *)
Record h265_job := mk_h265_job {
  num_entry_point_offsets : Z;
  entry_point_offsets_count : Z;
  data_byte_offset : Z;
  slice_segment_addr : Z;
  log2_min_luma_coding_block_size_minus3 : Z;
  log2_diff_max_min_luma_coding_block_size : Z;
  pic_width_in_luma_samples : Z;
  pps_tiles_enabled : bool;
  pps_entropy_coding_sync_enabled : bool;
  new_frame : bool;
  h265_mv_col_buf_size : Z;
  h265_alloc_ok : bool;
  coded_addr : Z;
  coded_size : Z;
  bits_read_byte : Z   (* VE_DEC_H265_BITS_READ after showing 8 bits *)
}.

(** The loop of [cedrus_dec_h265_bits_skip]: at most 32 bits a time. *)
Fixpoint bits_skip_loop (fuel : nat) (written count : Z) : list h265_write :=
  match fuel with
  | O => []
  | S fuel' =>
      if written <? count then
        let skip_count := Z.min (u32 (count - written)) 32 in
        VE_DEC_H265_TRIGGER_FLUSH_BITS skip_count ::
        bits_skip_loop fuel' (u32 (written + skip_count)) count
      else []
  end.

(** [cedrus_dec_h265_bits_skip]; every round skips at least one bit, so
    [count] rounds are enough. *)
Definition cedrus_dec_h265_bits_skip (count : Z) : list h265_write :=
  bits_skip_loop (Z.to_nat count) 0 count.

(** [for (count = 0; count < 8; count++) if (padding & (1 << count)) break;] *)
Fixpoint first_set_bit_from (fuel : nat) (count padding : Z) : Z :=
  match fuel with
  | O => count
  | S fuel' =>
      if 8 <=? count then count
      else if Z.testbit padding count then count
      else first_set_bit_from fuel' (count + 1) padding
  end.

(** How a call of [cedrus_dec_h265_job_configure] ends: it returns a
    value, or it runs into an operation that has no result (a shift by
    the width of its type or more, a division by zero) and never
    returns to the dispatcher. *)
Inductive h265_outcome :=
  | Returns (ret : Z)
  | Faults.

(** [ctb_size_luma = 1UL << log2_max_luma_coding_block_size], kept in
    an [unsigned int]; the two SPS fields are [__u8].  From 32 on the
    shift is undefined where [unsigned long] has 32 bits, and where it
    has 64 [ctb_size_luma] is 0 (or the shift undefined again, from 64
    on) and [DIV_ROUND_UP] divides by it on the next line: there is no
    CTB size then. *)
Definition h265_ctb_size_luma (j : h265_job) : option Z :=
  let log2_max_luma_coding_block_size :=
    u32 (log2_min_luma_coding_block_size_minus3 j + 3 +
         log2_diff_max_min_luma_coding_block_size j) in
  if 32 <=? log2_max_luma_coding_block_size then None
  else Some (u32 (Z.shiftl 1 log2_max_luma_coding_block_size)).

(** [width_in_ctb_luma =
     DIV_ROUND_UP(sps->pic_width_in_luma_samples, ctb_size_luma)],
    computed in [unsigned int]. *)
Definition h265_width_in_ctb_luma (j : h265_job) (ctb_size_luma : Z) : Z :=
  u32 (pic_width_in_luma_samples j + ctb_size_luma - 1) / ctb_size_luma.

(** [cedrus_dec_h265_job_configure]: how it ends and the register
    traffic up to there, in order. *)
Definition cedrus_dec_h265_job_configure (j : h265_job)
    : h265_outcome * list h265_write :=
  if negb (num_entry_point_offsets j =? 0) &&
     negb (num_entry_point_offsets j =? entry_point_offsets_count j)
  then (Returns (- ERANGE), [])
  else
    match h265_ctb_size_luma j with
    | None => (Faults, [])
    | Some ctb_size_luma =>
        let width_in_ctb_luma := h265_width_in_ctb_luma j ctb_size_luma in
        if (h265_mv_col_buf_size j =? 0) && negb (h265_alloc_ok j)
        then (Returns (- ENOMEM), [])
        else
          let w :=
            [VE_DEC_H265_BITS_OFFSET 0;
             VE_DEC_H265_BITS_LEN (u32 (coded_size j * 8));
             VE_DEC_H265_BITS_ADDR (coded_addr j);
             VE_DEC_H265_BITS_END_ADDR (coded_addr j + coded_size j)] in
          (* slice_segment_addr % width_in_ctb_luma, / width_in_ctb_luma *)
          if width_in_ctb_luma =? 0 then (Faults, w)
          else
            let ctb_addr_x := slice_segment_addr j mod width_in_ctb_luma in
            let ctb_addr_y := slice_segment_addr j / width_in_ctb_luma in
            let w :=
              w ++ [VE_DEC_H265_DEC_CTB_ADDR ctb_addr_x ctb_addr_y] ++
              (if pps_tiles_enabled j || pps_entropy_coding_sync_enabled j
               then [Tiles_write ctb_addr_x ctb_addr_y]
               else [VE_DEC_H265_TILE_START_CTB 0;
                     VE_DEC_H265_TILE_END_CTB 0]) ++
              (if new_frame j then [VE_DEC_H265_DEC_CTB_NUM 0] else []) ++
              [VE_DEC_H265_TRIGGER_INIT_SWDEC] in
            if data_byte_offset j =? 0 then (Returns (- EOPNOTSUPP), w)
            else
              let w := w ++ cedrus_dec_h265_bits_skip
                              (u32 ((data_byte_offset j - 1) * 8)) in
              let w := w ++ [VE_DEC_H265_TRIGGER_SHOW_BITS 8] in
              let padding := bits_read_byte j mod 2 ^ 8 in
              if padding =? 0 then (Returns (- EINVAL), w)
              else
                let count := first_set_bit_from 8 0 padding + 1 in
                let w := w ++ cedrus_dec_h265_bits_skip (u32 (8 - count)) in
                (Returns 0, w ++ [Remaining_configuration])
    end.

Definition is_bits_skip (w : h265_write) : bool :=
  match w with VE_DEC_H265_TRIGGER_FLUSH_BITS _ => true | _ => false end.

(** The number of bits the bitstream pointer was moved by, over all the
    flush requests of a register trace. *)
Definition h265_bits_flushed (ws : list h265_write) : Z :=
  fold_right
    (fun w acc =>
       match w with
       | VE_DEC_H265_TRIGGER_FLUSH_BITS n => n + acc
       | _ => acc
       end) 0 ws.

(** The two checks placed before the data_byte_offset test. *)
Definition h265_entry_points_mismatch (j : h265_job) : bool :=
  negb (num_entry_point_offsets j =? 0) &&
  negb (num_entry_point_offsets j =? entry_point_offsets_count j).
Definition h265_no_mv_col_buf (j : h265_job) : bool :=
  (h265_mv_col_buf_size j =? 0) && negb (h265_alloc_ok j).

(** The dispatcher running an H.265 job whose earlier steps succeeded;
    there is nothing to go on with when [job_configure] does not
    return. *)
Definition h265_device_run (p : platform) (ctx : cedrus_context) (req : bool)
    (j : h265_job) : option (platform * Z) :=
  match fst (cedrus_dec_h265_job_configure j) with
  | Returns ret =>
      Some (cedrus_v4l2_m2m_device_run p ctx req (mk_steps 0 0 0 ret))
  | Faults => None
  end.

(** A platform with no job in flight. *)
Definition platform_idle (p : platform) : Prop :=
  watchdog_work p = WORK_IDLE /\ curr_priv p = None.

(* ================================================================== *)
(** ** H.264 encoder: interrupt status (cedrus_enc_h264.c) *)

Section EncoderStatus.

(** The status register's bit masks come from cedrus_regs.h, which is
    not part of the sources. *)
Variables VE_ENC_AVC_STATUS_MASK VE_ENC_AVC_STATUS_FINISH : Z.

(** [cedrus_enc_h264_irq_status] on the value read from
    VE_ENC_AVC_STATUS_REG. *)
Definition cedrus_enc_h264_irq_status (status : Z) : cedrus_irq_status :=
  if negb (flag_set status VE_ENC_AVC_STATUS_MASK) then CEDRUS_IRQ_NONE
  else if flag_set status VE_ENC_AVC_STATUS_FINISH then CEDRUS_IRQ_SUCCESS
  else CEDRUS_IRQ_ERROR.

End EncoderStatus.

(** [cedrus_engine_irq_status]: an engine without the operation reports
    no interrupt. *)
Definition cedrus_engine_irq_status (irq_status : option (Z -> cedrus_irq_status))
    (status : Z) : cedrus_irq_status :=
  match irq_status with
  | None => CEDRUS_IRQ_NONE
  | Some op => op status
  end.

(* ================================================================== *)
(** * Properties *)

Arguments cedrus_enc_h264_job_prepare : simpl never.
Arguments completions : simpl never.
Arguments job_clears : simpl never.

(* ================================================================== *)
(** ** Machine integers *)

Lemma u32_small x : 0 <= x < 2 ^ 32 -> u32 x = x.
Proof. intros H. unfold u32. apply Z.mod_small; lia. Qed.

Lemma u32_s32 x : u32 (s32 x) = u32 x.
Proof.
  unfold u32, s32.
  rewrite Zminus_mod, Zmod_mod, <- Zminus_mod.
  f_equal. lia.
Qed.

Lemma s32_small x : INT_MIN <= x <= INT_MAX -> s32 x = x.
Proof.
  unfold INT_MIN, INT_MAX, s32. intros H. rewrite Z.mod_small; lia.
Qed.

Lemma s32_u32_small x : INT_MIN <= x <= INT_MAX -> s32 (u32 x) = x.
Proof.
  unfold INT_MIN, INT_MAX, s32, u32. intros H.
  rewrite Zplus_mod_idemp_l.
  rewrite Z.mod_small; lia.
Qed.

Lemma BIT_pow2 n : 0 <= n -> BIT n = 2 ^ n.
Proof. intros. unfold BIT. now rewrite Z.shiftl_1_l. Qed.

Lemma pow2_le_32 l : 0 <= l < 32 -> 0 < 2 ^ l <= 2 ^ 31.
Proof.
  intros H. split; [apply Z.pow_pos_nonneg; lia|].
  apply Z.pow_le_mono_r; lia.
Qed.

Lemma mod8_u32 n : u32 n mod 8 = n mod 8.
Proof.
  unfold u32. apply Z.mod_mod_divide.
  exists (2 ^ 29). reflexivity.
Qed.

(* ================================================================== *)
(** ** The bit serializer and Exp-Golomb codes *)

Lemma be_bits_length n x : length (be_bits n x) = n.
Proof. induction n; simpl; congruence. Qed.

Lemma be_bits_zero n : be_bits n 0 = repeat false n.
Proof. induction n; simpl; [reflexivity|]. now rewrite Z.bits_0, IHn. Qed.

Lemma be_bits_high_zero (k m : nat) x :
  0 <= x < 2 ^ Z.of_nat m ->
  be_bits (k + m) x = repeat false k ++ be_bits m x.
Proof.
  intros Hx. induction k as [|k IH]; [reflexivity|].
  simpl. rewrite IH. f_equal.
  destruct (Z.eq_dec x 0) as [->|Hne]; [apply Z.bits_0|].
  apply Z.bits_above_log2; [lia|].
  apply Z.log2_lt_pow2; [lia|].
  apply Z.lt_le_trans with (2 ^ Z.of_nat m); [lia|].
  apply Z.pow_le_mono_r; lia.
Qed.

Lemma leading_zero_bits_repeat k tl :
  leading_zero_bits (repeat false k ++ true :: tl) = (k, true :: tl).
Proof. induction k as [|k IH]; simpl; [reflexivity|]. now rewrite IH. Qed.

Lemma read_bits_be_bits n : forall acc x rest,
  0 <= x ->
  read_bits n acc (be_bits n x ++ rest) = Some (acc * 2 ^ Z.of_nat n + x mod 2 ^ Z.of_nat n, rest).
Proof.
  induction n as [|n IH]; intros acc x rest Hx.
  - simpl. rewrite Z.mod_1_r. do 2 f_equal. lia.
  - cbn [be_bits read_bits app]. rewrite IH by assumption. do 2 f_equal.
    rewrite Nat2Z.inj_succ, Z.pow_succ_r by lia.
    rewrite (Z.mul_comm 2 (2 ^ Z.of_nat n)).
    rewrite Z.rem_mul_r by lia.
    rewrite Z.testbit_spec' by lia.
    lia.
Qed.

(** The standard decoder reads the code word of [x - 1], the
    [2 * floor(log2 x) + 1]-bit pattern of [x], back. *)
Lemma decode_ue_code x rest :
  0 < x ->
  decode_ue (be_bits (Z.to_nat (2 * Z.log2 x + 1)) x ++ rest) = Some (x - 1, rest).
Proof.
  intros Hx.
  pose proof (Z.log2_nonneg x) as Hl.
  destruct (Z.log2_spec x Hx) as [Hlo Hhi].
  set (l := Z.to_nat (Z.log2 x)).
  assert (Hl' : Z.of_nat l = Z.log2 x) by (unfold l; lia).
  replace (Z.to_nat (2 * Z.log2 x + 1)) with (l + S l)%nat by lia.
  rewrite be_bits_high_zero
    by (rewrite Nat2Z.inj_succ, Hl'; lia).
  assert (Hmsb : be_bits (S l) x = true :: be_bits l x).
  { simpl. f_equal. rewrite Hl'. now apply Z.bit_log2. }
  unfold decode_ue. rewrite Hmsb, <- app_assoc. simpl app.
  rewrite leading_zero_bits_repeat.
  change (true :: be_bits l x ++ rest) with ((true :: be_bits l x) ++ rest).
  rewrite <- Hmsb, read_bits_be_bits by lia.
  rewrite Nat2Z.inj_succ, Hl', Z.mod_small by lia.
  reflexivity.
Qed.

Lemma appended_app dev l :
  appended dev (mk_device (coded_stream dev ++ l)) = l.
Proof. unfold appended. simpl. apply drop_app_length. Qed.

Lemma coded_ue_in_range dev v :
  0 <= v < UINT_MAX ->
  cedrus_enc_h264_coded_ue dev v =
    Some (mk_device (coded_stream dev ++
            be_bits (Z.to_nat (2 * Z.log2 (v + 1) + 1)) (v + 1))).
Proof.
  unfold UINT_MAX. intros Hv.
  unfold cedrus_enc_h264_coded_ue, __fls.
  rewrite (u32_small (v + 1)) by lia.
  destruct (Z.eqb_spec (v + 1) 0) as [E|_]; [lia|].
  assert (Hlog : 0 <= Z.log2 (v + 1) < 32).
  { split; [apply Z.log2_nonneg|]. apply Z.log2_lt_pow2; lia. }
  unfold cedrus_enc_h264_coded_append, hw_put_bits.
  rewrite (u32_small (v + 1)) by lia.
  rewrite !(u32_small (2 * Z.log2 (v + 1) + 1)) by lia.
  reflexivity.
Qed.

(** C6 (as amended).  For every [unsigned int] v other than UINT_MAX,
    that is 0 <= v <= 2^32 - 2, the unsigned Exp-Golomb emitter ue(v)
    appends the bit pattern of v + 1 using exactly
    2 * floor(log2(v + 1)) + 1 bits, and the standard Exp-Golomb decoding
    process reads v back from them; ue(0) emits the single bit 1, and
    ue(1) and ue(2) emit the three bits 010 and 011. *)
Theorem coded_ue_emits_exp_golomb (dev : cedrus_device) (v : Z) (rest : list bool) :
  0 <= v < UINT_MAX ->
  exists dev',
    cedrus_enc_h264_coded_ue dev v = Some dev' /\
    coded_stream dev' =
      coded_stream dev ++ be_bits (Z.to_nat (2 * Z.log2 (v + 1) + 1)) (v + 1) /\
    Z.of_nat (length (appended dev dev')) = 2 * Z.log2 (v + 1) + 1 /\
    decode_ue (appended dev dev' ++ rest) = Some (v, rest) /\
    (v = 0 -> appended dev dev' = [true]) /\
    (v = 1 -> appended dev dev' = [false; true; false]) /\
    (v = 2 -> appended dev dev' = [false; true; true]).
Proof.
  intros Hv. eexists. split; [apply coded_ue_in_range; assumption|].
  rewrite appended_app. simpl coded_stream.
  pose proof (Z.log2_nonneg (v + 1)).
  repeat split.
  - rewrite be_bits_length. lia.
  - rewrite decode_ue_code by lia. do 2 f_equal. lia.
  - intros ->. reflexivity.
  - intros ->. reflexivity.
  - intros ->. reflexivity.
Qed.

Lemma coded_ue_emits_exp_golomb_witness :
  0 <= 5 < UINT_MAX /\
  exists dev',
    cedrus_enc_h264_coded_ue (mk_device [true]) 5 = Some dev' /\
    coded_stream dev' = [true; false; false; true; true; false] /\
    decode_ue (appended (mk_device [true]) dev' ++ [true]) = Some (5, [true]).
Proof.
  split; [unfold UINT_MAX; lia|].
  destruct (coded_ue_emits_exp_golomb (mk_device [true]) 5 [true])
    as (dev' & Hue & Hs & _ & Hdec & _); [unfold UINT_MAX; lia|].
  exists dev'. split; [exact Hue|]. split; [|exact Hdec].
  rewrite Hs. reflexivity.
Defined.

(** At v = UINT_MAX the [unsigned int] sum v + 1 wraps to 0, for which
    [__fls] is undefined: no 65-bit pattern of 2^32 is appended. *)
Lemma coded_ue_uint_max_counterexample :
  u32 (UINT_MAX + 1) = 0 /\
  cedrus_enc_h264_coded_ue (mk_device []) UINT_MAX = None /\
  Z.log2 (UINT_MAX + 1) = 32.
Proof. repeat split. Qed.

Lemma coded_se_value_ue_in_range v :
  INT_MIN < v <= INT_MAX ->
  coded_se_value_ue v = if 0 <? v then 2 * v - 1 else -2 * v.
Proof.
  unfold INT_MIN, INT_MAX, coded_se_value_ue. intros Hv.
  rewrite !u32_s32.
  destruct (Z.ltb_spec 0 v); apply u32_small; lia.
Qed.

Lemma se_of_code_num_inverse v :
  se_of_code_num (if 0 <? v then 2 * v - 1 else -2 * v) = v.
Proof.
  unfold se_of_code_num.
  destruct (Z.ltb_spec 0 v).
  - assert (Hodd : Z.odd (2 * v - 1) = true).
    { replace (2 * v - 1) with (1 + 2 * (v - 1)) by lia.
      now rewrite Z.odd_add_mul_2. }
    rewrite Hodd.
    replace (2 * v - 1 + 1) with (v * 2) by lia.
    now rewrite Z.div_mul.
  - assert (Hodd : Z.odd (-2 * v) = false).
    { replace (-2 * v) with (0 + 2 * (- v)) by lia.
      now rewrite Z.odd_add_mul_2. }
    rewrite Hodd.
    replace (-2 * v) with (- v * 2) by lia.
    rewrite Z.div_mul by lia. lia.
Qed.

(** C5 (as amended).  For every [int] v other than INT_MIN, the signed
    Exp-Golomb emitter se(v) maps positive v to the unsigned code of
    2 * v - 1 and non-positive v to the unsigned code of -2 * v, and the
    standard inverse mapping, applied to the code number or to the
    emitted bits, returns v; se(0) emits the same code as ue(0). *)
Theorem coded_se_round_trip (dev : cedrus_device) (v : Z) (rest : list bool) :
  INT_MIN < v <= INT_MAX ->
  coded_se_value_ue v = (if 0 <? v then 2 * v - 1 else -2 * v) /\
  cedrus_enc_h264_coded_se dev v =
    cedrus_enc_h264_coded_ue dev (if 0 <? v then 2 * v - 1 else -2 * v) /\
  se_of_code_num (coded_se_value_ue v) = v /\
  (exists dev',
     cedrus_enc_h264_coded_se dev v = Some dev' /\
     decode_se (appended dev dev' ++ rest) = Some (v, rest)) /\
  cedrus_enc_h264_coded_se dev 0 = cedrus_enc_h264_coded_ue dev 0.
Proof.
  intros Hv.
  pose proof (coded_se_value_ue_in_range v Hv) as Hue.
  assert (Hk : 0 <= coded_se_value_ue v < UINT_MAX).
  { rewrite Hue. unfold INT_MIN, INT_MAX, UINT_MAX in *.
    destruct (Z.ltb_spec 0 v); lia. }
  repeat split.
  - exact Hue.
  - unfold cedrus_enc_h264_coded_se. now rewrite Hue.
  - rewrite Hue. apply se_of_code_num_inverse.
  - eexists. split.
    + unfold cedrus_enc_h264_coded_se. now apply coded_ue_in_range.
    + rewrite appended_app. unfold decode_se.
      rewrite decode_ue_code by lia.
      replace (coded_se_value_ue v + 1 - 1) with (coded_se_value_ue v) by lia.
      rewrite Hue. now rewrite se_of_code_num_inverse.
Qed.

Lemma coded_se_round_trip_witness :
  INT_MIN < -3 <= INT_MAX /\
  exists dev',
    cedrus_enc_h264_coded_se (mk_device []) (-3) = Some dev' /\
    decode_se (appended (mk_device []) dev' ++ [true]) = Some (-3, [true]).
Proof.
  split; [unfold INT_MIN, INT_MAX; lia|].
  apply (coded_se_round_trip (mk_device []) (-3) [true]).
  unfold INT_MIN, INT_MAX; lia.
Defined.

(** At v = INT_MIN the product -2 * v wraps to 0: se(INT_MIN) emits the
    code of ue(0), not that of 2^32, and decodes to 0. *)
Lemma coded_se_int_min_counterexample :
  coded_se_value_ue INT_MIN = 0 /\
  -2 * INT_MIN = 2 ^ 32 /\
  cedrus_enc_h264_coded_se (mk_device []) INT_MIN =
    cedrus_enc_h264_coded_ue (mk_device []) 0 /\
  exists dev',
    cedrus_enc_h264_coded_se (mk_device []) INT_MIN = Some dev' /\
    decode_se (appended (mk_device []) dev') = Some (0, []).
Proof.
  split; [reflexivity|]. split; [reflexivity|]. split; [reflexivity|].
  eexists. split; reflexivity.
Qed.

(** C8.  For every bit count N already written, the byte-alignment
    operation appends only zero bits, as many as make the total a
    multiple of 8 and no more: none when N is a multiple of 8,
    otherwise 8 - (N mod 8), always between 0 and 7. *)
Theorem coded_align_pads_to_byte (dev : cedrus_device) :
  let n := Z.of_nat (length (coded_stream dev)) in
  let pad := if n mod 8 =? 0 then 0 else 8 - n mod 8 in
  coded_stream (cedrus_enc_h264_coded_align dev) =
    coded_stream dev ++ repeat false (Z.to_nat pad) /\
  0 <= pad < 8 /\
  (n + pad) mod 8 = 0 /\
  (forall k, 0 <= k -> (n + k) mod 8 = 0 -> pad <= k).
Proof.
  intros n pad.
  pose proof (Z.mod_pos_bound n 8 ltac:(lia)) as Hm.
  unfold cedrus_enc_h264_coded_align.
  fold n. unfold hw_stm_bit_len. fold n.
  rewrite mod8_u32, (u32_small (n mod 8)) by lia.
  subst pad.
  destruct (Z.eqb_spec (n mod 8) 0) as [E|E].
  - repeat split; try lia.
    + simpl. now rewrite app_nil_r.
    + now rewrite Z.add_0_r.
  - unfold cedrus_enc_h264_coded_append, hw_put_bits. simpl coded_stream.
    rewrite (u32_small 0), (u32_small (8 - n mod 8)) by lia.
    rewrite be_bits_zero.
    repeat split; try lia.
    + replace (n + (8 - n mod 8)) with ((n / 8 + 1) * 8)
        by (pose proof (Z.div_mod n 8); lia).
      apply Z.mod_mul; lia.
    + intros k Hk Hnk.
      rewrite (Z.div_mod n 8) in Hnk by lia.
      rewrite <- Z.add_assoc, Z.add_comm, Z.mul_comm, Z.mod_add in Hnk by lia.
      destruct (Z.lt_ge_cases k (8 - n mod 8)) as [Hlt|]; [|assumption].
      rewrite Z.mod_small in Hnk; lia.
Qed.

(* ================================================================== *)
(** ** The encoder's GOP decision *)

Lemma step_cap_gop_view c l : gop_view (step_cap c l) = gop_view c.
Proof. unfold step_cap. now destruct (_ <? _). Qed.

Lemma ctrl_prepare_gop_view c ctrl :
  gop_neutral (Ev_ctrl ctrl) = true ->
  gop_view (cedrus_enc_h264_ctrl_prepare c ctrl) = gop_view c.
Proof.
  destruct ctrl as [id v| p e | l | m | m | | ]; simpl; intros Hn;
    try reflexivity; try discriminate.
  - destruct id; try discriminate; reflexivity.
  - rewrite step_cap_gop_view.
    destruct (cedrus_enc_h264_profile_cabac_check p); [reflexivity|].
    destruct e; [|reflexivity].
    unfold ctrl_prepare_entropy_mode. now rewrite step_cap_gop_view.
  - now rewrite step_cap_gop_view.
  - unfold ctrl_prepare_entropy_mode. now rewrite step_cap_gop_view.
Qed.

Lemma configure_headers_gop_view c :
  gop_view (fst (cedrus_enc_h264_job_configure_headers c)) = gop_view c.
Proof.
  unfold cedrus_enc_h264_job_configure_headers.
  now destruct (configure_headers_loop 4 (step (state c))).
Qed.

Lemma enc_jobs_ctrl c ctrl es :
  enc_jobs c (Ev_ctrl ctrl :: es) =
  enc_jobs (cedrus_enc_h264_ctrl_prepare c ctrl) es.
Proof. reflexivity. Qed.

Lemma enc_jobs_job c configured es :
  enc_jobs c (Ev_job configured :: es) =
  snd (cedrus_enc_h264_job_prepare c) :: enc_jobs (after_job c configured) es.
Proof.
  unfold enc_jobs, after_job. cbn [enc_run].
  destruct (cedrus_enc_h264_job_prepare c) as [c1 j].
  cbn [fst snd].
  now destruct (enc_run _ es).
Qed.

Lemma after_job_gop_view c configured :
  gop_view (after_job c configured) =
  gop_view (fst (cedrus_enc_h264_job_prepare c)).
Proof.
  unfold after_job. destruct configured; [|reflexivity].
  apply configure_headers_gop_view.
Qed.

Lemma job_prepare_frame_type c :
  frame_type (snd (cedrus_enc_h264_job_prepare c)) =
    if force_key_frame c then CEDRUS_ENC_H264_FRAME_TYPE_IDR
    else gop_frame_type c.
Proof. reflexivity. Qed.

Lemma gop_frame_type_view c c' :
  gop_view c = gop_view c' -> gop_frame_type c = gop_frame_type c'.
Proof.
  unfold gop_view, gop_frame_type. intros H.
  injection H as -> _ -> _ ->. reflexivity.
Qed.

Lemma job_prepare_gop_view c :
  gop_view (fst (cedrus_enc_h264_job_prepare c)) =
    (gop_closure c, gop_size c, gop_open_i_period c, false,
     if negb (gop_closure c =? 0)
     then u32 (gop_index (state c) + 1) mod u32 (gop_size c)
     else u32 (gop_index (state c) + 1)).
Proof.
  unfold gop_view, cedrus_enc_h264_job_prepare; cbn.
  now destruct (force_key_frame c).
Qed.

Lemma job_prepare_closed c cl per g :
  cl <> 0 ->
  gop_view c = (cl, 12, per, false, g mod 12) ->
  frame_type (snd (cedrus_enc_h264_job_prepare c)) =
    (if g mod 12 =? 0 then CEDRUS_ENC_H264_FRAME_TYPE_IDR
     else CEDRUS_ENC_H264_FRAME_TYPE_P) /\
  gop_view (fst (cedrus_enc_h264_job_prepare c)) =
    (cl, 12, per, false, (g + 1) mod 12).
Proof.
  intros Hcl Hv. unfold gop_view in Hv.
  injection Hv as Hc Hs Hp Hf Hg.
  pose proof (Z.mod_pos_bound g 12 ltac:(lia)) as Hb.
  unfold cedrus_enc_h264_job_prepare, gop_frame_type, gop_view; simpl.
  rewrite Hf, Hg.
  unfold gop_closure, gop_size, gop_open_i_period in *; simpl.
  rewrite Hc, Hs, Hp.
  destruct (Z.eqb_spec cl 0) as [|_]; [contradiction|]. simpl.
  split; [reflexivity|].
  f_equal.
  rewrite (u32_small (g mod 12 + 1)) by lia.
  change (u32 12) with 12.
  now rewrite Z.add_mod_idemp_l by lia.
Qed.

Lemma closed_gop_run es : forall c cl per g,
  cl <> 0 ->
  gop_view c = (cl, 12, per, false, g mod 12) ->
  forallb gop_neutral es = true ->
  forall (n : nat) job,
    enc_jobs c es !! n = Some job ->
    frame_type job =
      if (g + Z.of_nat n) mod 12 =? 0 then CEDRUS_ENC_H264_FRAME_TYPE_IDR
      else CEDRUS_ENC_H264_FRAME_TYPE_P.
Proof.
  induction es as [|e es IH]; intros c cl per g Hcl Hv Hn n job Hjob.
  - discriminate.
  - cbn [forallb] in Hn. apply andb_prop in Hn as [He Hes].
    destruct e as [ctrl|configured].
    + rewrite enc_jobs_ctrl in Hjob.
      apply (IH (cedrus_enc_h264_ctrl_prepare c ctrl) cl per g Hcl);
        [rewrite ctrl_prepare_gop_view by exact He; exact Hv
        | exact Hes | exact Hjob].
    + destruct (job_prepare_closed c cl per g Hcl Hv) as [Ht Hv'].
      rewrite enc_jobs_job in Hjob.
      destruct n as [|n]; cbn [lookup list_lookup] in Hjob.
      * assert (Ej : (cedrus_enc_h264_job_prepare c).2 = job) by congruence;
        subst job; clear Hjob. now rewrite Z.add_0_r.
      * rewrite <- after_job_gop_view with (configured := configured) in Hv'.
        rewrite (IH _ cl per (g + 1) Hcl Hv' Hes n job Hjob).
        replace (g + 1 + Z.of_nat n) with (g + Z.of_nat (S n)) by lia.
        reflexivity.
Qed.

Lemma job_prepare_open c g :
  gop_view c = (0, gop_size c, 4, false, g) ->
  frame_type (snd (cedrus_enc_h264_job_prepare c)) =
    (if g =? 0 then CEDRUS_ENC_H264_FRAME_TYPE_IDR
     else if g mod 4 =? 0 then CEDRUS_ENC_H264_FRAME_TYPE_I
     else CEDRUS_ENC_H264_FRAME_TYPE_P) /\
  gop_view (fst (cedrus_enc_h264_job_prepare c)) =
    (0, gop_size c, 4, false, u32 (g + 1)).
Proof.
  intros Hv. unfold gop_view in Hv.
  injection Hv as Hc Hp Hf Hi.
  unfold cedrus_enc_h264_job_prepare, gop_frame_type, gop_view; simpl.
  rewrite Hf, Hi.
  unfold gop_closure, gop_size, gop_open_i_period in *; simpl.
  rewrite Hc, Hp. simpl.
  change (u32 4) with 4.
  split; reflexivity.
Qed.

Lemma u32_succ g : u32 (u32 g + 1) = u32 (g + 1).
Proof. unfold u32. now rewrite Z.add_mod_idemp_l by lia. Qed.

(** In GOP-open mode the GOP index is the number of Jobs so far, kept
    in 32 bits. *)
Lemma open_gop_run es : forall c g,
  gop_view c = (0, gop_size c, 4, false, u32 g) ->
  forallb gop_neutral es = true ->
  forall (n : nat) job,
    enc_jobs c es !! n = Some job ->
    frame_type job =
      if u32 (g + Z.of_nat n) =? 0 then CEDRUS_ENC_H264_FRAME_TYPE_IDR
      else if u32 (g + Z.of_nat n) mod 4 =? 0
           then CEDRUS_ENC_H264_FRAME_TYPE_I
      else CEDRUS_ENC_H264_FRAME_TYPE_P.
Proof.
  induction es as [|e es IH]; intros c g Hv Hn n job Hjob.
  - discriminate.
  - cbn [forallb] in Hn. apply andb_prop in Hn as [He Hes].
    destruct e as [ctrl|configured].
    + rewrite enc_jobs_ctrl in Hjob.
      pose proof (ctrl_prepare_gop_view c ctrl He) as Hpres.
      apply (IH (cedrus_enc_h264_ctrl_prepare c ctrl) g); try assumption.
      rewrite Hpres, Hv.
      unfold gop_view in Hpres. injection Hpres as _ Hsz _ _ _.
      now rewrite Hsz.
    + rewrite enc_jobs_job in Hjob.
      destruct n as [|n]; cbn [lookup list_lookup] in Hjob.
      * assert (Ej : (cedrus_enc_h264_job_prepare c).2 = job) by congruence;
        subst job; clear Hjob. rewrite Z.add_0_r.
        now apply job_prepare_open.
      * destruct (job_prepare_open c (u32 g) Hv) as [_ Hv'].
        rewrite u32_succ in Hv'.
        rewrite <- after_job_gop_view with (configured := configured) in Hv'.
        assert (Hsz : gop_size (after_job c configured) = gop_size c).
        { pose proof Hv' as Hx. unfold gop_view in Hx at 1.
          injection Hx as _ Hx _ _ _. exact Hx. }
        rewrite <- Hsz in Hv'.
        rewrite (IH _ (g + 1) Hv' Hes n job Hjob).
        replace (g + 1 + Z.of_nat n) with (g + Z.of_nat (S n)) by lia.
        reflexivity.
Qed.

(** A session of [N] Jobs has a Job at every index below [N]. *)
Lemma enc_jobs_repeat_lookup configured (N : nat) : forall c (n : nat),
  (n < N)%nat ->
  exists job, enc_jobs c (repeat (Ev_job configured) N) !! n = Some job.
Proof.
  induction N as [|N IH]; intros c n Hn; [lia|].
  cbn [repeat]. rewrite enc_jobs_job.
  destruct n as [|n]; [eexists; reflexivity|].
  cbn [lookup list_lookup]. apply IH. lia.
Qed.

Lemma forallb_repeat {A} (f : A -> bool) (x : A) (N : nat) :
  f x = true -> forallb f (repeat x N) = true.
Proof. intros H. induction N; [reflexivity|]. cbn. now rewrite H. Qed.

(** What [cedrus_enc_h264_setup] leaves, whatever the controls hold. *)
Lemma fold_ctrl_prepare_fresh cs : forall c,
  forallb (fun ctrl => negb (v4l2_ctrl_is_button ctrl)) cs = true ->
  let c' := fold_left cedrus_enc_h264_ctrl_prepare cs c in
  force_key_frame c' = force_key_frame c /\
  gop_index (state c') = gop_index (state c) /\
  state_frame_num (state c') = state_frame_num (state c) /\
  state_pic_order_cnt_lsb (state c') = state_pic_order_cnt_lsb (state c) /\
  log2_max_frame_num c' = log2_max_frame_num c /\
  log2_max_pic_order_cnt_lsb c' = log2_max_pic_order_cnt_lsb c.
Proof.
  induction cs as [|ctrl cs IH]; intros c Hb; [repeat split|].
  cbn [forallb] in Hb. apply andb_prop in Hb as [Hc Hcs].
  cbn [fold_left]. specialize (IH (cedrus_enc_h264_ctrl_prepare c ctrl) Hcs).
  cbv zeta in *.
  destruct IH as (-> & -> & -> & -> & -> & ->).
  destruct ctrl as [id v| p [e|] | l | m | m | | ]; try discriminate; cbn;
    unfold ctrl_prepare_entropy_mode, step_cap; cbn;
    repeat (match goal with |- context [if ?b then _ else _] => destruct b end; cbn);
    repeat split.
Qed.

Lemma setup_fresh initial :
  let c := cedrus_enc_h264_setup initial in
  force_key_frame c = false /\
  gop_index (state c) = 0 /\
  state_frame_num (state c) = 0 /\
  state_pic_order_cnt_lsb (state c) = 0 /\
  log2_max_frame_num c = 8 /\
  log2_max_pic_order_cnt_lsb c = 8.
Proof.
  unfold cedrus_enc_h264_setup.
  apply fold_ctrl_prepare_fresh.
  induction initial as [|ctrl cs IH]; [reflexivity|].
  cbn [List.filter]. destruct (negb (v4l2_ctrl_is_button ctrl)) eqn:E;
    cbn [forallb]; [rewrite E|]; exact IH.
Qed.

(** C3 (as amended).  In a session started by [cedrus_enc_h264_setup]
    whose GOP controls are left alone and which sees no force-key-frame
    request, the frame type chosen at job-prepare for the Job at index n
    is: in GOP-closed mode with gop_size = 12, IDR when n is a multiple
    of 12 and P otherwise; in GOP-open mode with i_period = 4, where the
    GOP index is n kept in 32 bits, IDR when n is a multiple of 2^32
    (index 0, and every index at which the 32-bit GOP index has wrapped
    to 0), I at the other multiples of 4 and P otherwise.  A pending
    force-key-frame request makes the Job an IDR whatever the GOP
    position, and is consumed: the flag is clear afterwards and the next
    Job's type is the plain GOP decision at the position it would have
    had without the request. *)
Theorem frame_type_decision (initial : list v4l2_ctrl) (es : list enc_event)
    (n : nat) (job : cedrus_enc_h264_job) :
  let c := cedrus_enc_h264_setup initial in
  forallb gop_neutral es = true ->
  enc_jobs c es !! n = Some job ->
  (gop_closure c <> 0 -> gop_size c = 12 ->
   frame_type job =
     if Z.of_nat n mod 12 =? 0 then CEDRUS_ENC_H264_FRAME_TYPE_IDR
     else CEDRUS_ENC_H264_FRAME_TYPE_P) /\
  (gop_closure c = 0 -> gop_open_i_period c = 4 ->
   frame_type job =
     if Z.of_nat n mod 2 ^ 32 =? 0 then CEDRUS_ENC_H264_FRAME_TYPE_IDR
     else if Z.of_nat n mod 4 =? 0 then CEDRUS_ENC_H264_FRAME_TYPE_I
     else CEDRUS_ENC_H264_FRAME_TYPE_P) /\
  (forall c0 configured,
     let forced := cedrus_enc_h264_ctrl_prepare c0 Ctrl_force_key_frame in
     frame_type (snd (cedrus_enc_h264_job_prepare forced)) =
       CEDRUS_ENC_H264_FRAME_TYPE_IDR /\
     force_key_frame (after_job forced configured) = false /\
     frame_type (snd (cedrus_enc_h264_job_prepare (after_job forced configured))) =
       gop_frame_type (after_job c0 configured)).
Proof.
  intros c Hes Hjob.
  destruct (setup_fresh initial) as (Hf & Hg & _). fold c in Hf, Hg.
  split; [|split].
  - intros Hcl Hsz.
    assert (Hv : gop_view c =
                 (gop_closure c, 12, gop_open_i_period c, false, 0 mod 12))
      by (unfold gop_view; now rewrite Hsz, Hf, Hg).
    exact (closed_gop_run es c _ _ 0 Hcl Hv Hes n job Hjob).
  - intros Hcl Hper.
    assert (Hv : gop_view c = (0, gop_size c, 4, false, u32 0))
      by (unfold gop_view; now rewrite Hcl, Hper, Hf, Hg).
    rewrite (open_gop_run es c 0 Hv Hes n job Hjob).
    unfold u32. rewrite Z.add_0_l.
    now rewrite (Z.mod_mod_divide (Z.of_nat n) (2 ^ 32) 4)
      by (exists (2 ^ 30); reflexivity).
  - intros c0 configured forced.
    assert (Hview : forall x, gop_view (after_job x configured) =
                              gop_view (fst (cedrus_enc_h264_job_prepare x)))
      by (intros; apply after_job_gop_view).
    assert (Hff : force_key_frame (after_job forced configured) = false).
    { pose proof (Hview forced) as H. rewrite job_prepare_gop_view in H.
      unfold gop_view in H. now injection H. }
    split; [reflexivity|]. split; [exact Hff|].
    rewrite job_prepare_frame_type, Hff.
    apply gop_frame_type_view.
    now rewrite !Hview, !job_prepare_gop_view.
Qed.

Lemma frame_type_decision_witness :
  let initial := [Ctrl_int V4L2_CID_MPEG_VIDEO_GOP_CLOSURE 1;
                  Ctrl_int V4L2_CID_MPEG_VIDEO_GOP_SIZE 12;
                  Ctrl_int V4L2_CID_MPEG_VIDEO_H264_MAX_QP 40] in
  let es := repeat (Ev_job true) 12 ++
            [Ev_ctrl (Ctrl_int V4L2_CID_MPEG_VIDEO_H264_I_FRAME_QP 30);
             Ev_job true; Ev_job false] in
  forallb gop_neutral es = true /\
  exists job,
    enc_jobs (cedrus_enc_h264_setup initial) es !! 12%nat = Some job /\
    frame_type job = CEDRUS_ENC_H264_FRAME_TYPE_IDR /\
    qp job = 30.
Proof.
  cbv zeta. split; [reflexivity|].
  eexists. split; [vm_compute; reflexivity|].
  split; [|reflexivity].
  match goal with
  | |- frame_type ?j = _ =>
      destruct (frame_type_decision
                  [Ctrl_int V4L2_CID_MPEG_VIDEO_GOP_CLOSURE 1;
                   Ctrl_int V4L2_CID_MPEG_VIDEO_GOP_SIZE 12;
                   Ctrl_int V4L2_CID_MPEG_VIDEO_H264_MAX_QP 40]
                  (repeat (Ev_job true) 12 ++
                   [Ev_ctrl (Ctrl_int V4L2_CID_MPEG_VIDEO_H264_I_FRAME_QP 30);
                    Ev_job true; Ev_job false])
                  12 j) as [Hclosed _];
        [reflexivity | vm_compute; reflexivity |]
  end.
  rewrite Hclosed; [reflexivity | vm_compute; discriminate | reflexivity].
Defined.

(** The Job at index 2^32 of a GOP-open session with i_period = 4: the
    index is a nonzero multiple of 4, but [gop_index] is an unsigned int
    that the GOP-open branch never reduces, so after 2^32 increments it
    is 0 again and the Job is an IDR, not an I frame. *)
Lemma frame_type_gop_index_wrap_counterexample :
  let c := cedrus_enc_h264_setup
             [Ctrl_int V4L2_CID_MPEG_VIDEO_GOP_CLOSURE 0;
              Ctrl_int V4L2_CID_MPEG_VIDEO_H264_I_PERIOD 4] in
  let n := Z.to_nat (2 ^ 32) in
  gop_closure c = 0 /\ gop_open_i_period c = 4 /\
  (Z.of_nat n =? 0) = false /\ Z.of_nat n mod 4 = 0 /\
  exists job,
    enc_jobs c (repeat (Ev_job true) (S n)) !! n = Some job /\
    frame_type job = CEDRUS_ENC_H264_FRAME_TYPE_IDR.
Proof.
  cbv zeta.
  split; [reflexivity|]. split; [reflexivity|].
  rewrite Z2Nat.id by lia.
  split; [reflexivity|]. split; [reflexivity|].
  destruct (enc_jobs_repeat_lookup true (S (Z.to_nat (2 ^ 32)))
              (cedrus_enc_h264_setup
                 [Ctrl_int V4L2_CID_MPEG_VIDEO_GOP_CLOSURE 0;
                  Ctrl_int V4L2_CID_MPEG_VIDEO_H264_I_PERIOD 4])
              (Z.to_nat (2 ^ 32)) (Nat.lt_succ_diag_r _)) as [job Hjob].
  exists job. split; [exact Hjob|].
  rewrite (open_gop_run _
             (cedrus_enc_h264_setup
                [Ctrl_int V4L2_CID_MPEG_VIDEO_GOP_CLOSURE 0;
                 Ctrl_int V4L2_CID_MPEG_VIDEO_H264_I_PERIOD 4])
             0 eq_refl
             (forallb_repeat gop_neutral (Ev_job true) _ eq_refl) _ _ Hjob).
  rewrite Z.add_0_l, Z2Nat.id by lia. reflexivity.
Qed.

(* ================================================================== *)
(** ** The encoder's frame counters *)

Lemma step_cap_counters c l : counters (step_cap c l) = counters c.
Proof. unfold step_cap. now destruct (_ <? _). Qed.

Lemma ctrl_prepare_counters c ctrl :
  counters (cedrus_enc_h264_ctrl_prepare c ctrl) = counters c.
Proof.
  destruct ctrl as [id v| p e | l | m | m | | ]; simpl; try reflexivity.
  - rewrite step_cap_counters.
    destruct (cedrus_enc_h264_profile_cabac_check p); [reflexivity|].
    destruct e; [|reflexivity].
    unfold ctrl_prepare_entropy_mode. now rewrite step_cap_counters.
  - now rewrite step_cap_counters.
  - unfold ctrl_prepare_entropy_mode. now rewrite step_cap_counters.
Qed.

Lemma after_job_counters c configured :
  counters (after_job c configured) =
  counters (fst (cedrus_enc_h264_job_prepare c)).
Proof.
  unfold after_job. destruct configured; [|reflexivity].
  unfold cedrus_enc_h264_job_configure_headers.
  now destruct (configure_headers_loop 4 _).
Qed.

Lemma wrap_counter x d l :
  0 <= l < 32 -> 0 <= x < 2 ^ l -> 0 <= d <= 2 ->
  u32 (u32 (x + d) mod BIT l) = (x + d) mod 2 ^ l.
Proof.
  intros Hl Hx Hd. pose proof (pow2_le_32 l Hl) as Hp.
  rewrite BIT_pow2 by lia.
  rewrite (u32_small (x + d)) by lia.
  apply u32_small.
  pose proof (Z.mod_pos_bound (x + d) (2 ^ l) ltac:(lia)). lia.
Qed.

Lemma job_prepare_counters c l1 l2 fn poc :
  counters c = (l1, l2, fn, poc) ->
  counters_ok l1 l2 fn poc ->
  let job := snd (cedrus_enc_h264_job_prepare c) in
  frame_num job = (if is_idr (frame_type job) then 0 else fn) /\
  pic_order_cnt_lsb job = (if is_idr (frame_type job) then 0 else poc) /\
  counters (fst (cedrus_enc_h264_job_prepare c)) =
    (l1, l2, (frame_num job + 1) mod 2 ^ l1,
     (pic_order_cnt_lsb job + 2) mod 2 ^ l2).
Proof.
  intros Hc (Hl1 & Hl2 & Hfn & Hpoc).
  unfold counters in Hc. injection Hc as E1 E2 E3 E4.
  pose proof (pow2_le_32 l1 Hl1). pose proof (pow2_le_32 l2 Hl2).
  cbv zeta. split; [now rewrite <- E3|]. split; [now rewrite <- E4|].
  unfold counters, cedrus_enc_h264_job_prepare; cbn.
  rewrite E1, E2, E3, E4.
  destruct (is_idr _); rewrite !wrap_counter by lia; reflexivity.
Qed.

Lemma job_prepare_counters_ok c l1 l2 fn poc :
  counters c = (l1, l2, fn, poc) ->
  counters_ok l1 l2 fn poc ->
  exists fn' poc',
    counters (fst (cedrus_enc_h264_job_prepare c)) = (l1, l2, fn', poc') /\
    counters_ok l1 l2 fn' poc' /\
    fn' = (frame_num (snd (cedrus_enc_h264_job_prepare c)) + 1) mod 2 ^ l1 /\
    poc' = (pic_order_cnt_lsb (snd (cedrus_enc_h264_job_prepare c)) + 2) mod 2 ^ l2.
Proof.
  intros Hc Hok.
  destruct (job_prepare_counters c l1 l2 fn poc Hc Hok) as (_ & _ & Hn).
  destruct Hok as (Hl1 & Hl2 & _).
  pose proof (pow2_le_32 l1 Hl1). pose proof (pow2_le_32 l2 Hl2).
  eexists _, _. split; [exact Hn|]. split; [|split; reflexivity].
  repeat split; try lia; apply Z.mod_pos_bound; lia.
Qed.

Lemma first_job_counters es : forall c l1 l2 fn poc job,
  counters c = (l1, l2, fn, poc) ->
  counters_ok l1 l2 fn poc ->
  enc_jobs c es !! 0%nat = Some job ->
  frame_num job = (if is_idr (frame_type job) then 0 else fn) /\
  pic_order_cnt_lsb job = (if is_idr (frame_type job) then 0 else poc).
Proof.
  induction es as [|e es IH]; intros c l1 l2 fn poc job Hc Hok Hjob.
  - discriminate.
  - destruct e as [ctrl|configured].
    + rewrite enc_jobs_ctrl in Hjob.
      apply (IH (cedrus_enc_h264_ctrl_prepare c ctrl) l1 l2); try assumption.
      now rewrite ctrl_prepare_counters.
    + rewrite enc_jobs_job in Hjob. cbn in Hjob. assert (Ej : (cedrus_enc_h264_job_prepare c).2 = job) by congruence;
        subst job; clear Hjob.
      destruct (job_prepare_counters c l1 l2 fn poc Hc Hok) as (H1 & H2 & _).
      now split.
Qed.

Lemma counters_run es : forall c l1 l2 fn poc,
  counters c = (l1, l2, fn, poc) ->
  counters_ok l1 l2 fn poc ->
  forall (n : nat) job,
    enc_jobs c es !! n = Some job ->
    0 <= frame_num job < 2 ^ l1 /\
    0 <= pic_order_cnt_lsb job < 2 ^ l2 /\
    (frame_type job = CEDRUS_ENC_H264_FRAME_TYPE_IDR ->
     frame_num job = 0 /\ pic_order_cnt_lsb job = 0) /\
    (forall next,
       enc_jobs c es !! S n = Some next ->
       frame_type next <> CEDRUS_ENC_H264_FRAME_TYPE_IDR ->
       frame_num next = (frame_num job + 1) mod 2 ^ l1 /\
       pic_order_cnt_lsb next = (pic_order_cnt_lsb job + 2) mod 2 ^ l2).
Proof.
  induction es as [|e es IH]; intros c l1 l2 fn poc Hc Hok n job Hjob.
  - discriminate.
  - destruct e as [ctrl|configured].
    + rewrite enc_jobs_ctrl in *.
      apply (IH (cedrus_enc_h264_ctrl_prepare c ctrl) l1 l2 fn poc);
        try assumption.
      now rewrite ctrl_prepare_counters.
    + rewrite enc_jobs_job in *.
      destruct (job_prepare_counters_ok c l1 l2 fn poc Hc Hok)
        as (fn' & poc' & Hc' & Hok' & Efn & Epoc).
      rewrite <- after_job_counters with (configured := configured) in Hc'.
      destruct n as [|n]; cbn [lookup list_lookup] in *.
      * assert (Ej : (cedrus_enc_h264_job_prepare c).2 = job) by congruence;
        subst job; clear Hjob.
        destruct (job_prepare_counters c l1 l2 fn poc Hc Hok) as (H1 & H2 & _).
        cbv zeta in H1, H2.
        destruct Hok as (Hl1 & Hl2 & Hfn & Hpoc).
        pose proof (pow2_le_32 l1 Hl1). pose proof (pow2_le_32 l2 Hl2).
        split; [|split; [|split]].
        -- rewrite H1. destruct (is_idr _); lia.
        -- rewrite H2. destruct (is_idr _); lia.
        -- intros Ht. rewrite H1, H2, Ht. now split.
        -- intros next Hnext Hnidr.
           destruct (first_job_counters es _ l1 l2 fn' poc' next Hc' Hok' Hnext)
             as [F1 F2].
           rewrite F1, F2, Efn, Epoc.
           destruct (frame_type next); try contradiction; now split.
      * apply (IH _ l1 l2 fn' poc' Hc' Hok' n job Hjob).
Qed.

(** C7.  In every session started by [cedrus_enc_h264_setup], whatever
    controls are set and whatever Jobs run, each Job carries
    frame_num < 2^log2_max_frame_num and
    pic_order_cnt_lsb < 2^log2_max_pic_order_cnt_lsb; every IDR Job
    carries frame_num = 0 and pic_order_cnt_lsb = 0; and a Job that is
    not an IDR carries its predecessor's frame_num plus 1 and
    pic_order_cnt_lsb plus 2, each reduced modulo its bound. *)
Theorem frame_counters_wrap_and_reset (initial : list v4l2_ctrl)
    (es : list enc_event) (n : nat) (job : cedrus_enc_h264_job) :
  let c := cedrus_enc_h264_setup initial in
  enc_jobs c es !! n = Some job ->
  0 <= frame_num job < 2 ^ log2_max_frame_num c /\
  0 <= pic_order_cnt_lsb job < 2 ^ log2_max_pic_order_cnt_lsb c /\
  (frame_type job = CEDRUS_ENC_H264_FRAME_TYPE_IDR ->
   frame_num job = 0 /\ pic_order_cnt_lsb job = 0) /\
  (forall next,
     enc_jobs c es !! S n = Some next ->
     frame_type next <> CEDRUS_ENC_H264_FRAME_TYPE_IDR ->
     frame_num next = (frame_num job + 1) mod 2 ^ log2_max_frame_num c /\
     pic_order_cnt_lsb next =
       (pic_order_cnt_lsb job + 2) mod 2 ^ log2_max_pic_order_cnt_lsb c).
Proof.
  intros c Hjob.
  destruct (setup_fresh initial) as (_ & _ & Hfn & Hpoc & Hl1 & Hl2).
  fold c in Hfn, Hpoc, Hl1, Hl2.
  apply (counters_run es c _ _ 0 0); [| |exact Hjob].
  - unfold counters. now rewrite Hfn, Hpoc.
  - rewrite Hl1, Hl2. repeat split; lia.
Qed.

Lemma frame_counters_wrap_and_reset_witness :
  let c := cedrus_enc_h264_setup [Ctrl_int V4L2_CID_MPEG_VIDEO_H264_I_PERIOD 4] in
  exists job next,
    enc_jobs c (repeat (Ev_job true) 257) !! 255%nat = Some job /\
    enc_jobs c (repeat (Ev_job true) 257) !! 256%nat = Some next /\
    frame_num job = 255 /\
    frame_num next = (frame_num job + 1) mod 2 ^ log2_max_frame_num c /\
    frame_num next = 0.
Proof.
  cbv zeta. eexists _, _. split; [vm_compute; reflexivity|].
  split; [vm_compute; reflexivity|]. split; [reflexivity|].
  split; [|reflexivity].
  match goal with
  | |- frame_num ?nx = (frame_num ?j + 1) mod _ =>
      destruct (frame_counters_wrap_and_reset
                  [Ctrl_int V4L2_CID_MPEG_VIDEO_H264_I_PERIOD 4]
                  (repeat (Ev_job true) 257) 255 j) as (_ & _ & _ & Hnext);
        [vm_compute; reflexivity|];
      destruct (Hnext nx) as [Hfn _];
        [vm_compute; reflexivity | vm_compute; discriminate | exact Hfn]
  end.
Defined.

(* ================================================================== *)
(** ** Completion: interrupt against watchdog *)

Lemma completions_app l l' :
  completions (l ++ l') = (completions l + completions l')%nat.
Proof. unfold completions. now rewrite List.filter_app, length_app. Qed.

Lemma job_clears_app l l' :
  job_clears (l ++ l') = (job_clears l + job_clears l')%nat.
Proof. unfold job_clears. now rewrite List.filter_app, length_app. Qed.

Lemma completions_single a :
  completions [a] = if is_completion a then 1%nat else 0%nat.
Proof. unfold completions. cbn. now destruct (is_completion a). Qed.

Lemma job_clears_single a :
  job_clears [a] = if is_job_cleared a then 1%nat else 0%nat.
Proof. unfold job_clears. cbn. now destruct (is_job_cleared a). Qed.

Ltac count_actions :=
  rewrite ?completions_app, ?job_clears_app, ?completions_single,
    ?job_clears_single;
  cbn [is_completion is_job_cleared].

Lemma spurious_counts p :
  completions (actions (cedrus_irq_spurious p)) = completions (actions p) /\
  job_clears (actions (cedrus_irq_spurious p)) = job_clears (actions p) /\
  watchdog_work (cedrus_irq_spurious p) = watchdog_work p /\
  curr_priv (cedrus_irq_spurious p) = curr_priv p.
Proof.
  unfold cedrus_irq_spurious, cedrus_irq_disable_clear.
  destruct (dec_ctx_active p); cbn; destruct (enc_ctx_active p); cbn;
    count_actions; repeat split; lia || reflexivity.
Qed.

Lemma job_finish_counts p c st :
  completions (actions (cedrus_context_job_finish p c st)) =
    S (completions (actions p)) /\
  job_clears (actions (cedrus_context_job_finish p c st)) =
    S (job_clears (actions p)) /\
  watchdog_work (cedrus_context_job_finish p c st) = watchdog_work p /\
  curr_priv (cedrus_context_job_finish p c st) = None.
Proof.
  unfold cedrus_context_job_finish; cbn.
  count_actions. repeat split; lia || reflexivity.
Qed.

Lemma cedrus_irq_finish_curr_priv p status :
  cedrus_irq p status = cedrus_irq_finish p (curr_priv p) status.
Proof. reflexivity. Qed.

(** The interrupt handler that loses the cancel does what a spurious
    interrupt does, whatever its local [ctx] holds. *)
Lemma irq_finish_lost p l status :
  watchdog_work p <> WORK_PENDING ->
  cedrus_irq_finish p l status = (cedrus_irq_spurious p, IRQ_HANDLED).
Proof.
  intros Hw. unfold cedrus_irq_finish, cancel_delayed_work.
  destruct (watchdog_work p); [reflexivity|contradiction|reflexivity].
Qed.

Section Completion.

Variable ctx : cedrus_context.

(** Every step of the interrupt handler and of the watchdog keeps the
    invariant. *)
Lemma platform_step_inv quiet m e :
  completion_inv ctx quiet m ->
  completion_inv ctx (quiet && serviced e) (platform_step m e).
Proof.
  destruct m as [p il wl]. unfold completion_inv. cbn [sys_platform irq_ctx watchdog_ctx].
  intros [Hil Hinv].
  assert (Hweak :
    match watchdog_work p with
    | WORK_PENDING =>
        curr_priv p = Some ctx /\ completions (actions p) = 0%nat /\
        job_clears (actions p) = 0%nat /\ wl = None /\ il <> Some None
    | WORK_RUNNING =>
        curr_priv p = Some ctx /\ completions (actions p) = 0%nat /\
        job_clears (actions p) = 0%nat /\
        (wl = None \/ wl = Some (Some ctx))
    | WORK_IDLE =>
        wl = None /\
        ((curr_priv p = None /\ completions (actions p) = 1%nat /\
          job_clears (actions p) = 1%nat) \/
         (curr_priv p = Some ctx /\ completions (actions p) = 0%nat /\
          job_clears (actions p) = 0%nat /\ quiet && serviced e = false))
    end).
  { destruct (watchdog_work p); try exact Hinv.
    destruct Hinv as [Hwl [H|(? & ? & ? & ->)]]; (split; [exact Hwl|]);
      [left; exact H | right; now repeat split]. }
  destruct e as [ |status| | | ]; cbn [platform_step sys_platform irq_ctx watchdog_ctx].
  - (* the interrupt handler reads the owner *)
    destruct il as [l|]; cbn [sys_platform irq_ctx watchdog_ctx];
      [split; assumption|].
    split.
    + intros c Hc. injection Hc as Hc.
      destruct (watchdog_work p);
        repeat match goal with
               | H : _ /\ _ |- _ => destruct H
               | H : _ \/ _ |- _ => destruct H
               end; congruence.
    + destruct (watchdog_work p); try exact Hweak.
      destruct Hweak as (Hc & ? & ? & ? & _).
      repeat split; try assumption. rewrite Hc. discriminate.
  - (* the interrupt handler cancels and goes on *)
    destruct il as [l|]; cbn [sys_platform irq_ctx watchdog_ctx];
      [|split; assumption].
    split; [discriminate|].
    destruct (watchdog_work p) eqn:Hw.
    + rewrite irq_finish_lost by (rewrite Hw; discriminate). cbn [fst].
      destruct (spurious_counts p) as (-> & -> & -> & ->).
      rewrite Hw. exact Hweak.
    + (* pending: the interrupt wins the cancel *)
      destruct Hinv as (Hc & Hn & Hk & Hwl & Hnone).
      destruct l as [c|]; [|contradiction].
      rewrite (Hil c eq_refl).
      unfold cedrus_irq_finish, cancel_delayed_work. rewrite Hw.
      cbn [negb].
      destruct status; cbn [fst].
      * cbn. rewrite andb_false_r. split; [exact Hwl|]. right.
        now repeat split.
      * destruct (job_finish_counts
                    (cedrus_irq_disable_clear (set_watchdog_work p WORK_IDLE) ctx)
                    ctx VB2_BUF_STATE_ERROR) as (-> & -> & -> & ->).
        cbn. count_actions. rewrite Hn, Hk. split; [exact Hwl|]. left.
        now repeat split.
      * destruct (job_finish_counts
                    (cedrus_irq_disable_clear (set_watchdog_work p WORK_IDLE) ctx)
                    ctx VB2_BUF_STATE_DONE) as (-> & -> & -> & ->).
        cbn. count_actions. rewrite Hn, Hk. split; [exact Hwl|]. left.
        now repeat split.
    + rewrite irq_finish_lost by (rewrite Hw; discriminate). cbn [fst].
      destruct (spurious_counts p) as (-> & -> & -> & ->).
      rewrite Hw. exact Hweak.
  - (* a worker takes the watchdog work *)
    destruct (watchdog_work p) eqn:Hw; cbn [sys_platform irq_ctx watchdog_ctx];
      rewrite ?Hw; try (split; assumption).
    split; [exact Hil|]. cbn.
    destruct Hinv as (? & ? & ? & ? & _). now repeat split; try left.
  - (* the work function reads the owner *)
    destruct (watchdog_work p) eqn:Hw, wl as [l|];
      cbn [sys_platform irq_ctx watchdog_ctx]; rewrite ?Hw;
      try (split; assumption).
    split; [exact Hil|].
    destruct Hinv as (Hc & ? & ? & _). rewrite Hc. now repeat split; try right.
  - (* the work function resets and finishes the job *)
    destruct wl as [l|]; cbn [sys_platform irq_ctx watchdog_ctx];
      [|split; assumption].
    split; [exact Hil|].
    destruct (watchdog_work p) eqn:Hw.
    + destruct Hinv as [Hwl _]. discriminate.
    + destruct Hinv as (_ & _ & _ & Hwl & _). discriminate.
    + destruct Hinv as (Hc & Hn & Hk & [Hwl|Hwl]); [discriminate|].
      injection Hwl as ->.
      unfold cedrus_watchdog_finish.
      destruct (job_finish_counts (act p [Reset_control_reset]) ctx
                  VB2_BUF_STATE_ERROR) as (E1 & E2 & _ & E3).
      cbn. cbn in E1, E2, E3. rewrite E1, E2.
      count_actions. rewrite Hn, Hk. split; [reflexivity|]. left.
      now repeat split.
Qed.

Lemma platform_run_inv es : forall quiet m,
  completion_inv ctx quiet m ->
  completion_inv ctx (quiet && forallb serviced es) (platform_run m es).
Proof.
  induction es as [|e es IH]; intros quiet m Hinv;
    cbn [forallb platform_run fold_left].
  - now rewrite andb_true_r.
  - rewrite andb_assoc. apply IH. now apply platform_step_inv.
Qed.

Lemma dispatched_inv : completion_inv ctx true (dispatched_system ctx).
Proof.
  unfold completion_inv, dispatched_system, dispatched,
    cedrus_v4l2_m2m_device_run, cedrus_context_job_run,
    cedrus_proc_context_active_update.
  cbn. split; [discriminate|].
  destruct (ctx_role ctx); cbn; now repeat split.
Qed.

End Completion.

(** C1 (as amended).  For every dispatched Job and every interleaving of
    the steps of the interrupt handler and of the watchdog (the
    interrupt handler reading the Job's owner, then cancelling the
    watchdog and going on; the watchdog timer expiring, its work
    function reading the Job's owner, then resetting and finishing), at
    most one of the two paths completes the Job, so that the Job
    structure is cleared and buffer completion reported at most once,
    the two always together.  The interrupt handler cancels the watchdog
    atomically and learns whether it won: an interrupt handler that
    finds the watchdog no longer pending completes nothing and leaves
    the Job's owner alone, even when it read the owner before the
    watchdog finished the Job; and once the watchdog is cancelled or
    done none of its steps does anything.  The Job is completed exactly
    once when the watchdog is no longer armed or under way and every
    interrupt read Error or Success; an interrupt that wins the cancel
    and reads None completes nothing and leaves nothing armed. *)
Theorem completion_at_most_once (ctx : cedrus_context)
    (es : list platform_event) :
  let m := platform_run (dispatched_system ctx) es in
  let p := sys_platform m in
  (completions (actions p) <= 1)%nat /\
  job_clears (actions p) = completions (actions p) /\
  (curr_priv p = None <-> completions (actions p) = 1%nat) /\
  (forall status,
     watchdog_work p <> WORK_PENDING ->
     let p' := sys_platform (platform_step m (Ev_irq_finish status)) in
     completions (actions p') = completions (actions p) /\
     job_clears (actions p') = job_clears (actions p) /\
     curr_priv p' = curr_priv p /\
     watchdog_work p' = watchdog_work p) /\
  (watchdog_work p = WORK_IDLE ->
   forall e, is_watchdog_event e = true -> platform_step m e = m) /\
  (forallb serviced es = true -> watchdog_work p = WORK_IDLE ->
   completions (actions p) = 1%nat).
Proof.
  intros m p.
  pose proof (platform_run_inv ctx es true (dispatched_system ctx)
                (dispatched_inv ctx)) as Hinv.
  fold m in Hinv. unfold completion_inv in Hinv. fold p in Hinv.
  cbn [andb] in Hinv. destruct Hinv as [Hil Hinv].
  assert (Hlost : forall status,
     watchdog_work p <> WORK_PENDING ->
     let p' := sys_platform (platform_step m (Ev_irq_finish status)) in
     completions (actions p') = completions (actions p) /\
     job_clears (actions p') = job_clears (actions p) /\
     curr_priv p' = curr_priv p /\
     watchdog_work p' = watchdog_work p).
  { intros status Hw. cbn [platform_step]. fold p.
    destruct (irq_ctx m) as [l|]; cbn [sys_platform]; [|now repeat split].
    rewrite irq_finish_lost by exact Hw. cbn [fst].
    destruct (spurious_counts p) as (? & ? & ? & ?). now repeat split. }
  assert (Hwd : watchdog_work p = WORK_IDLE ->
                forall e, is_watchdog_event e = true -> platform_step m e = m).
  { intros Hw e He. rewrite Hw in Hinv. destruct Hinv as [Hwl _].
    destruct e; try discriminate; cbn [platform_step]; fold p;
      rewrite ?Hw, ?Hwl; reflexivity. }
  destruct (watchdog_work p);
    repeat match goal with
           | H : _ /\ _ |- _ => destruct H
           | H : _ \/ _ |- _ => destruct H
           end;
    (split; [lia|]); (split; [lia|]); (split; [split; intros; congruence || lia|]);
    (split; [exact Hlost|]); (split; [exact Hwd|]);
    intros; congruence || lia.
Qed.

(** Both fire, and the interrupt falls inside the watchdog's work
    function, between its reading the owner and its finishing the Job:
    the interrupt handler loses the cancel and the Job is completed
    once, by the watchdog. *)
Lemma completion_at_most_once_witness :
  let es := [Ev_watchdog_expire; Ev_watchdog_enter; Ev_irq_enter;
             Ev_irq_finish CEDRUS_IRQ_SUCCESS; Ev_watchdog_finish;
             Ev_irq_enter; Ev_irq_finish CEDRUS_IRQ_ERROR] in
  let p := sys_platform
             (platform_run
                (dispatched_system (mk_ctx 0 CEDRUS_ROLE_ENCODER)) es) in
  forallb serviced es = true /\
  watchdog_work p = WORK_IDLE /\
  completions (actions p) = 1%nat /\
  In Reset_control_reset (actions p).
Proof.
  cbv zeta.
  split; [reflexivity|]. split; [reflexivity|]. split.
  - apply (completion_at_most_once (mk_ctx 0 CEDRUS_ROLE_ENCODER)
             [Ev_watchdog_expire; Ev_watchdog_enter; Ev_irq_enter;
              Ev_irq_finish CEDRUS_IRQ_SUCCESS; Ev_watchdog_finish;
              Ev_irq_enter; Ev_irq_finish CEDRUS_IRQ_ERROR]);
      reflexivity.
  - cbn. tauto.
Defined.

(** Both fire, the interrupt first and reading no status: the cancel
    succeeds, so the watchdog never runs, and the handler returns
    without completing; nothing is completed. *)
Lemma completion_irq_none_counterexample :
  let es := [Ev_irq_enter; Ev_irq_finish CEDRUS_IRQ_NONE;
             Ev_watchdog_expire; Ev_watchdog_enter; Ev_watchdog_finish] in
  let p := sys_platform
             (platform_run
                (dispatched_system (mk_ctx 0 CEDRUS_ROLE_ENCODER)) es) in
  completions (actions p) = 0%nat /\
  job_clears (actions p) = 0%nat /\
  curr_priv p = Some (mk_ctx 0 CEDRUS_ROLE_ENCODER) /\
  watchdog_work p = WORK_IDLE.
Proof. cbv zeta. repeat split. Qed.

(** C2 (as amended).  For every interrupt that arrives while a Job is
    outstanding and the watchdog still pending (so that its cancel
    succeeds), the status read decides what happens: Error completes
    the Job as Done-with-error and Success as Done, in both cases after
    interrupts were disabled and cleared; None completes nothing: the
    handler returns IRQ_NONE with the Job still outstanding and no
    interrupt cleared or disabled. *)
Theorem irq_status_decides_completion (p : platform) (ctx : cedrus_context)
    (status : cedrus_irq_status) :
  watchdog_work p = WORK_PENDING ->
  curr_priv p = Some ctx ->
  let p' := fst (cedrus_irq p status) in
  let ret := snd (cedrus_irq p status) in
  watchdog_work p' = WORK_IDLE /\
  match status with
  | CEDRUS_IRQ_ERROR =>
      ret = IRQ_HANDLED /\ curr_priv p' = None /\
      actions p' =
        actions p ++
        [Engine_irq_disable ctx; Engine_irq_clear ctx;
         Engine_job_finish ctx VB2_BUF_STATE_ERROR; Job_cleared ctx;
         Buf_done_and_job_finish ctx VB2_BUF_STATE_ERROR]
  | CEDRUS_IRQ_SUCCESS =>
      ret = IRQ_HANDLED /\ curr_priv p' = None /\
      actions p' =
        actions p ++
        [Engine_irq_disable ctx; Engine_irq_clear ctx;
         Engine_job_finish ctx VB2_BUF_STATE_DONE; Job_cleared ctx;
         Buf_done_and_job_finish ctx VB2_BUF_STATE_DONE]
  | CEDRUS_IRQ_NONE =>
      ret = IRQ_NONE /\ curr_priv p' = Some ctx /\ actions p' = actions p
  end.
Proof.
  intros Hw Hc. unfold cedrus_irq, cancel_delayed_work.
  rewrite Hw, Hc. cbn [negb].
  destruct status; cbn; rewrite <- ?app_assoc; now repeat split.
Qed.

Lemma irq_status_decides_completion_witness :
  watchdog_work (dispatched (mk_ctx 7 CEDRUS_ROLE_DECODER)) = WORK_PENDING /\
  curr_priv (dispatched (mk_ctx 7 CEDRUS_ROLE_DECODER)) =
    Some (mk_ctx 7 CEDRUS_ROLE_DECODER) /\
  actions (fst (cedrus_irq (dispatched (mk_ctx 7 CEDRUS_ROLE_DECODER))
                  CEDRUS_IRQ_ERROR)) =
    [Engine_irq_disable (mk_ctx 7 CEDRUS_ROLE_DECODER);
     Engine_irq_clear (mk_ctx 7 CEDRUS_ROLE_DECODER);
     Engine_job_finish (mk_ctx 7 CEDRUS_ROLE_DECODER) VB2_BUF_STATE_ERROR;
     Job_cleared (mk_ctx 7 CEDRUS_ROLE_DECODER);
     Buf_done_and_job_finish (mk_ctx 7 CEDRUS_ROLE_DECODER) VB2_BUF_STATE_ERROR].
Proof.
  split; [reflexivity|]. split; [reflexivity|].
  apply (irq_status_decides_completion
           (dispatched (mk_ctx 7 CEDRUS_ROLE_DECODER))
           (mk_ctx 7 CEDRUS_ROLE_DECODER) CEDRUS_IRQ_ERROR);
    reflexivity.
Defined.

(** An interrupt that reads None while the Job is outstanding: no
    Done-with-error completion, nothing cleared or disabled. *)
Lemma irq_none_no_completion_counterexample :
  watchdog_work (dispatched (mk_ctx 7 CEDRUS_ROLE_DECODER)) = WORK_PENDING /\
  curr_priv (dispatched (mk_ctx 7 CEDRUS_ROLE_DECODER)) =
    Some (mk_ctx 7 CEDRUS_ROLE_DECODER) /\
  cedrus_irq (dispatched (mk_ctx 7 CEDRUS_ROLE_DECODER)) CEDRUS_IRQ_NONE =
    (mk_platform WORK_IDLE (Some (mk_ctx 7 CEDRUS_ROLE_DECODER))
       (Some (mk_ctx 7 CEDRUS_ROLE_DECODER)) None [],
     IRQ_NONE).
Proof. repeat split. Qed.

(** The encoder's status operation reports None exactly when no bit of
    the status mask is set, and Success only with the finish bit. *)
Lemma cedrus_enc_h264_irq_status_cases (mask finish status : Z) :
  (Z.land status mask = 0 ->
   cedrus_enc_h264_irq_status mask finish status = CEDRUS_IRQ_NONE) /\
  (Z.land status mask <> 0 -> Z.land status finish <> 0 ->
   cedrus_enc_h264_irq_status mask finish status = CEDRUS_IRQ_SUCCESS) /\
  (Z.land status mask <> 0 -> Z.land status finish = 0 ->
   cedrus_enc_h264_irq_status mask finish status = CEDRUS_IRQ_ERROR).
Proof.
  unfold cedrus_enc_h264_irq_status, flag_set.
  repeat split; intros;
    repeat match goal with
           | |- context [?a =? ?b] => destruct (Z.eqb_spec a b)
           end; cbn; congruence.
Qed.

(* ================================================================== *)
(** ** Dispatch: the first failing step *)


(* ================================================================== *)
(** ** The H.264 frame list: the output picture's slot *)

Section FrameList.

Variable q : vb2_queue.
Variable ts_out : Z.

Lemma testbit_BIT s k : 0 <= s -> Z.testbit (BIT s) k = (s =? k).
Proof. intros Hs. rewrite BIT_pow2 by assumption. now apply Z.pow2_bits_eqb. Qed.

Lemma frame_list_entry_used st e :
  used_dpbs (frame_list_entry q ts_out st e) =
  fold_left (fun u s => Z.lor u (BIT s)) (resolved_slots q [e]) (used_dpbs st).
Proof.
  unfold frame_list_entry, resolved_slots, slot_of, dpb_valid. cbn.
  destruct (flag_set (flags e) V4L2_H264_DPB_ENTRY_FLAG_VALID); cbn;
    [|reflexivity].
  destruct (cedrus_buffer_picture_find q (reference_ts e)) as [[idx b]|]; cbn;
    [|reflexivity].
  destruct (ts_out =? reference_ts e); [reflexivity|].
  destruct (flag_set (flags e) V4L2_H264_DPB_ENTRY_FLAG_ACTIVE); reflexivity.
Qed.

Lemma resolved_slots_cons e l :
  resolved_slots q (e :: l) = resolved_slots q [e] ++ resolved_slots q l.
Proof.
  unfold resolved_slots. cbn.
  destruct (dpb_valid e); [destruct (slot_of q (reference_ts e))|];
    reflexivity.
Qed.

Lemma fold_used l : forall st,
  used_dpbs (fold_left (frame_list_entry q ts_out) l st) =
  fold_left (fun u s => Z.lor u (BIT s)) (resolved_slots q l) (used_dpbs st).
Proof.
  induction l as [|e l IH]; intros st; [reflexivity|].
  cbn [fold_left]. rewrite IH, frame_list_entry_used, (resolved_slots_cons e l).
  now rewrite fold_left_app.
Qed.

Lemma testbit_fold_lor slots : forall u k,
  0 <= k ->
  (forall s, In s slots -> 0 <= s) ->
  Z.testbit (fold_left (fun u s => Z.lor u (BIT s)) slots u) k =
  Z.testbit u k || existsb (fun s => s =? k) slots.
Proof.
  induction slots as [|s slots IH]; intros u k Hk Hs; cbn.
  - now rewrite orb_false_r.
  - rewrite IH by (auto; intros; apply Hs; now right).
    rewrite Z.lor_spec, testbit_BIT by (apply Hs; now left).
    now rewrite orb_assoc.
Qed.

Lemma existsb_eqb_In slots k : existsb (fun s => s =? k) slots = true <-> In k slots.
Proof.
  rewrite existsb_exists. split.
  - intros (s & Hin & E). apply Z.eqb_eq in E. now subst.
  - intros Hin. exists k. split; [assumption|apply Z.eqb_refl].
Qed.

(** The loop's [output]: the slot of the last valid, resolving entry
    that carries the output timestamp, which is the slot that timestamp
    resolves to. *)
Lemma frame_list_entry_output st e :
  output (frame_list_entry q ts_out st e) =
  if reoutput q ts_out [e]
  then match slot_of q ts_out with Some s => s32 s | None => output st end
  else output st.
Proof.
  unfold frame_list_entry, reoutput, slot_of, dpb_valid. cbn.
  destruct (flag_set (flags e) V4L2_H264_DPB_ENTRY_FLAG_VALID); cbn;
    [|reflexivity].
  destruct (Z.eqb_spec ts_out (reference_ts e)) as [->|Hne]; cbn.
  - destruct (cedrus_buffer_picture_find q (reference_ts e)) as [[idx b]|];
      cbn; [|reflexivity].
    reflexivity.
  - destruct (cedrus_buffer_picture_find q (reference_ts e)) as [[idx b]|];
      cbn; [|reflexivity].
    destruct (flag_set (flags e) V4L2_H264_DPB_ENTRY_FLAG_ACTIVE); reflexivity.
Qed.

Lemma fold_output l : forall st,
  output (fold_left (frame_list_entry q ts_out) l st) =
  if reoutput q ts_out l
  then match slot_of q ts_out with Some s => s32 s | None => output st end
  else output st.
Proof.
  induction l as [|e l IH]; intros st; [reflexivity|].
  cbn [fold_left]. rewrite IH, frame_list_entry_output.
  unfold reoutput. cbn [existsb]. rewrite orb_false_r.
  destruct (existsb _ l); [|now rewrite orb_false_r].
  rewrite orb_true_r.
  destruct (slot_of q ts_out); [reflexivity|].
  now destruct (_ && _).
Qed.

End FrameList.

(** [find_first_zero_bit] returns the lowest clear bit below [size]. *)
Lemma find_first_zero_bit_from_spec fuel : forall i word size,
  0 <= i ->
  size - i <= Z.of_nat fuel ->
  let r := find_first_zero_bit_from fuel i word size in
  (i <= r \/ r = size) /\
  (forall k, i <= k < r -> k < size -> Z.testbit word k = true) /\
  (r < size -> Z.testbit word r = false) /\
  (size <= r -> r = size).
Proof.
  induction fuel as [|fuel IH]; intros i word size Hi Hfuel; cbn.
  - split; [now right|]. split; [intros; lia|]. split; intros; lia.
  - destruct (Z.leb_spec size i).
    + split; [now right|]. split; [intros; lia|]. split; intros; lia.
    + destruct (Z.testbit word i) eqn:Hb.
      * specialize (IH (i + 1) word size ltac:(lia) ltac:(lia)).
        cbv zeta in IH. destruct IH as (H1 & H2 & H3 & H4).
        split; [destruct H1; [left; lia|now right]|].
        split; [|split; assumption].
        intros k Hk Hks. destruct (Z.eq_dec k i) as [->|]; [assumption|].
        apply H2; lia.
      * split; [left; lia|]. split; [intros; lia|]. split; [intros; assumption|].
        intros; lia.
Qed.

Lemma find_first_zero_bit_spec word size :
  0 <= size ->
  let r := find_first_zero_bit word size in
  0 <= r <= size /\
  (forall k, 0 <= k < r -> Z.testbit word k = true) /\
  (r < size -> Z.testbit word r = false).
Proof.
  intros Hs r.
  destruct (find_first_zero_bit_from_spec (Z.to_nat size) 0 word size
              ltac:(lia) ltac:(lia)) as (H1 & H2 & H3 & H4).
  fold (find_first_zero_bit word size) in *. fold r in H1, H2, H3, H4.
  assert (Hr : r <= size)
    by (destruct (Z.le_gt_cases size r) as [Hge|]; [rewrite (H4 Hge)|]; lia).
  split; [split; [destruct H1; lia|exact Hr]|].
  split; [intros k Hk; apply H2; lia|exact H3].
Qed.

(** A list that holds every index below [n] has at least [n] elements. *)
Lemma pigeonhole_slots (slots : list Z) (n : nat) :
  (forall k, 0 <= k < Z.of_nat n -> In k slots) ->
  (n <= length slots)%nat.
Proof.
  intros Hall.
  assert (Hlen : length (map Z.of_nat (seq 0 n)) = n)
    by (now rewrite List.length_map, List.length_seq).
  rewrite <- Hlen at 1.
  apply NoDup_incl_length.
  - apply Finite.Injective_map_NoDup; [intros a b; apply Nat2Z.inj|].
    apply seq_NoDup.
  - intros k Hk. apply in_map_iff in Hk as (i & <- & Hi).
    apply in_seq in Hi. apply Hall. lia.
Qed.

Lemma resolved_slots_length q dpb :
  (length (resolved_slots q dpb) <= length dpb)%nat.
Proof.
  induction dpb as [|e dpb IH]; [reflexivity|].
  rewrite resolved_slots_cons, length_app. unfold resolved_slots at 1. cbn.
  destruct (dpb_valid e); [destruct (slot_of q (reference_ts e))|]; cbn; lia.
Qed.

Lemma resolved_slots_In q dpb s :
  In s (resolved_slots q dpb) <->
  exists e, In e dpb /\ dpb_valid e = true /\ slot_of q (reference_ts e) = Some s.
Proof.
  induction dpb as [|e dpb IH].
  - split; [intros []|intros (e & [] & _)].
  - rewrite resolved_slots_cons, in_app_iff, IH. unfold resolved_slots. cbn.
    split.
    + intros [Hin|(e' & Hin & Hv & Hs)].
      * exists e. destruct (dpb_valid e); [|destruct Hin].
        destruct (slot_of q (reference_ts e)); [|destruct Hin].
        destruct Hin as [->|[]]. auto.
      * exists e'. auto.
    + intros (e' & [<-|Hin] & Hv & Hs).
      * left. rewrite Hv, Hs. now left.
      * right. exists e'. auto.
Qed.

Lemma vb2_find_buffer_from_spec q : forall i ts idx b,
  vb2_find_buffer_from i q ts = Some (idx, b) ->
  (i <= idx)%nat /\ q !! (idx - i)%nat = Some b /\
  copied_timestamp b = true /\ timestamp b = ts.
Proof.
  induction q as [|x q IH]; intros i ts idx b H; [discriminate|].
  cbn in H.
  destruct (copied_timestamp x && (timestamp x =? ts)) eqn:E.
  - injection H as <- <-. apply andb_prop in E as [Hc Ht].
    apply Z.eqb_eq in Ht. rewrite Nat.sub_diag. now repeat split.
  - apply IH in H as (Hle & Hl & Hc & Ht).
    split; [lia|]. split; [|now split].
    replace (idx - i)%nat with (S (idx - S i)) by lia. exact Hl.
Qed.

Lemma slot_of_in_table q ts s :
  slots_in_table q -> slot_of q ts = Some s ->
  0 <= s < CEDRUS_DEC_H264_FRAME_NUM.
Proof.
  unfold slot_of, cedrus_buffer_picture_find, vb2_find_buffer. intros Hq H.
  destruct (vb2_find_buffer_from 0 q ts) as [[idx b]|] eqn:E; [|discriminate].
  injection H as <-. apply vb2_find_buffer_from_spec in E as (_ & Hl & _).
  apply Hq. eapply list_elem_of_In, list_elem_of_lookup_2. exact Hl.
Qed.

(** Overwriting a buffer without touching its timestamp leaves every
    lookup at the same index. *)
Lemma vb2_find_buffer_from_insert q : forall i ts out b',
  (forall b, q !! out = Some b ->
             timestamp b' = timestamp b /\
             copied_timestamp b' = copied_timestamp b) ->
  vb2_find_buffer_from i (<[out := b']> q) ts =
  match vb2_find_buffer_from i q ts with
  | Some (idx, b) => Some (idx, if decide (idx = (i + out)%nat) then b' else b)
  | None => None
  end.
Proof.
  induction q as [|x q IH]; intros i ts out b' Hsame; [reflexivity|].
  destruct out as [|out]; cbn.
  - destruct (Hsame x eq_refl) as [-> ->].
    destruct (copied_timestamp x && (timestamp x =? ts)) eqn:E.
    + rewrite decide_True by lia. reflexivity.
    + destruct (vb2_find_buffer_from (S i) q ts) as [[idx b]|] eqn:F;
        [|reflexivity].
      apply vb2_find_buffer_from_spec in F as (Hle & _).
      rewrite decide_False by lia. reflexivity.
  - destruct (copied_timestamp x && (timestamp x =? ts)) eqn:E.
    + rewrite decide_False by lia. reflexivity.
    + rewrite IH by (intros b Hb; apply Hsame; exact Hb).
      destruct (vb2_find_buffer_from (S i) q ts) as [[idx b]|];
        [|reflexivity].
      do 2 f_equal. destruct (decide (idx = (S i + out)%nat)),
        (decide (idx = (i + S out)%nat)); try reflexivity; lia.
Qed.

Lemma reoutput_true q ts_out dpb :
  reoutput q ts_out dpb = true <->
  exists e, In e dpb /\ dpb_valid e = true /\ reference_ts e = ts_out.
Proof.
  unfold reoutput. rewrite existsb_exists. split.
  - intros (e & Hin & H). apply andb_prop in H as [Hv Ht].
    apply Z.eqb_eq in Ht. eauto.
  - intros (e & Hin & Hv & <-). exists e. now rewrite Hv, Z.eqb_refl.
Qed.

Lemma frame_list_position_spec q ts_out dpb :
  slots_in_table q ->
  (length dpb <= V4L2_H264_NUM_DPB_ENTRIES)%nat ->
  dpb_resolves q dpb ->
  let pos := frame_list_position
               (fold_left (frame_list_entry q ts_out) dpb frame_list_loop_init) in
  0 <= pos < CEDRUS_DEC_H264_FRAME_NUM /\
  (reoutput q ts_out dpb = true -> slot_of q ts_out = Some pos) /\
  (reoutput q ts_out dpb = false ->
   ~ In pos (resolved_slots q dpb) /\
   forall k, 0 <= k < pos -> In k (resolved_slots q dpb)).
Proof.
  intros Hq Hlen Hres pos. subst pos. unfold frame_list_position.
  rewrite fold_output, fold_used. cbn [output used_dpbs frame_list_loop_init].
  destruct (reoutput q ts_out dpb) eqn:Hre.
  - apply reoutput_true in Hre as (e & Hin & Hv & Ht).
    destruct (Hres e Hin Hv) as [s Hs]. rewrite Ht in Hs. rewrite Hs.
    pose proof (slot_of_in_table q ts_out s Hq Hs) as Hb.
    unfold CEDRUS_DEC_H264_FRAME_NUM in *.
    rewrite s32_small by (unfold INT_MIN, INT_MAX; lia).
    destruct (Z.leb_spec 0 s); [|lia].
    rewrite u32_small by lia.
    split; [lia|]. split; [reflexivity|discriminate].
  - cbn [Z.leb Z.compare].
    assert (Hnn : forall s, In s (resolved_slots q dpb) -> 0 <= s).
    { intros s Hs. apply resolved_slots_In in Hs as (e & _ & _ & He).
      apply (slot_of_in_table q _ s Hq He). }
    set (used := fold_left _ (resolved_slots q dpb) 0).
    assert (Hbit : forall k, 0 <= k ->
               Z.testbit used k = true <-> In k (resolved_slots q dpb)).
    { intros k Hk. unfold used. rewrite testbit_fold_lor by assumption.
      rewrite Z.bits_0. cbn [orb]. apply existsb_eqb_In. }
    destruct (find_first_zero_bit_spec used CEDRUS_DEC_H264_FRAME_NUM
                ltac:(unfold CEDRUS_DEC_H264_FRAME_NUM; lia))
      as (Hr & Hset & Hclear).
    set (r := find_first_zero_bit used CEDRUS_DEC_H264_FRAME_NUM) in *.
    assert (Hlt : r < CEDRUS_DEC_H264_FRAME_NUM).
    { destruct (Z.eq_dec r CEDRUS_DEC_H264_FRAME_NUM) as [E|]; [|lia].
      exfalso.
      assert (H18 : (18 <= length (resolved_slots q dpb))%nat).
      { apply pigeonhole_slots. intros k Hk. apply Hbit; [lia|].
        apply Hset. rewrite E. unfold CEDRUS_DEC_H264_FRAME_NUM. lia. }
      pose proof (resolved_slots_length q dpb).
      unfold V4L2_H264_NUM_DPB_ENTRIES in Hlen. lia. }
    split; [lia|]. split; [discriminate|]. intros _. split.
    + intros Hin. apply Hbit in Hin; [|lia].
      rewrite (Hclear Hlt) in Hin. discriminate.
    + intros k Hk. apply Hbit; [lia|]. now apply Hset.
Qed.

Lemma write_frame_list_queue q out pic dpb prm :
  q !! out = Some pic ->
  exists size ptype,
    queue_after (cedrus_write_frame_list q out dpb prm) =
    <[out := mk_buffer (timestamp pic) (copied_timestamp pic)
               (frame_list_position
                  (fold_left (frame_list_entry q (timestamp pic)) dpb
                     frame_list_loop_init))
               ptype size]> q.
Proof.
  intros Hq. unfold cedrus_write_frame_list. rewrite Hq.
  fold frame_list_loop_init.
  match goal with
  | |- context [if ?c then mk_result (- ENOMEM) _ _ _ else _] => destruct c
  end; cbn [queue_after]; eexists _, _; reflexivity.
Qed.

Lemma slot_of_after_write q out pic pos ptype size ts :
  q !! out = Some pic ->
  slot_of (<[out := mk_buffer (timestamp pic) (copied_timestamp pic)
                      pos ptype size]> q) ts =
  match cedrus_buffer_picture_find q ts with
  | Some (idx, b) => Some (if decide (idx = out) then pos else position b)
  | None => None
  end.
Proof.
  intros Hq. unfold slot_of, cedrus_buffer_picture_find, vb2_find_buffer.
  rewrite vb2_find_buffer_from_insert.
  - destruct (vb2_find_buffer_from 0 q ts) as [[idx b]|]; [|reflexivity].
    cbn [Nat.add]. now destruct (decide (idx = out)).
  - intros b Hb. rewrite Hq in Hb. injection Hb as <-. now split.
Qed.

(** C4 (as amended).  For every H.264 decode Job whose DPB entry list
    has valid entries that all resolve to known picture buffers (the
    buffers holding slot indices of the 18-entry table, the list no
    longer than the 16-entry DPB array), the slot index recorded and
    written for the output picture is the slot of a DPB entry sharing
    the output timestamp when one exists, and otherwise the lowest index
    not occupied by any valid entry's slot.  The output picture's slot
    is distinct from the slots of the entries programmed into the
    frame-info table whenever it was allocated first-fit, and also when
    it is reused provided the valid entries with different timestamps
    sit in different slots.  Every valid entry's slot is the same after
    the Job as before it, and no buffer but the output picture's is
    touched. *)
Theorem frame_list_output_slot (q : vb2_queue) (out : nat)
    (pic : cedrus_buffer) (dpb : list v4l2_h264_dpb_entry)
    (prm : frame_list_params) :
  q !! out = Some pic ->
  slots_in_table q ->
  (length dpb <= V4L2_H264_NUM_DPB_ENTRIES)%nat ->
  dpb_resolves q dpb ->
  let r := cedrus_write_frame_list q out dpb prm in
  let ts_out := timestamp pic in
  exists pos,
    position <$> (queue_after r !! out) = Some pos /\
    0 <= pos < CEDRUS_DEC_H264_FRAME_NUM /\
    (ret r = 0 -> output_frame_idx r = pos) /\
    (reoutput q ts_out dpb = true -> slot_of q ts_out = Some pos) /\
    (reoutput q ts_out dpb = false ->
     ~ In pos (resolved_slots q dpb) /\
     forall k, 0 <= k < pos -> In k (resolved_slots q dpb)) /\
    (reoutput q ts_out dpb = false \/ dpb_slots_distinct q dpb ->
     forall e s, In e dpb -> dpb_programmed ts_out e = true ->
                 slot_of q (reference_ts e) = Some s -> s <> pos) /\
    (forall e, In e dpb -> dpb_valid e = true ->
               slot_of (queue_after r) (reference_ts e) =
               slot_of q (reference_ts e)) /\
    (forall i, i <> out -> queue_after r !! i = q !! i) /\
    slots_in_table (queue_after r).
Proof.
  intros Hq Htab Hlen Hres r ts_out.
  destruct (frame_list_position_spec q ts_out dpb Htab Hlen Hres)
    as (Hpos & Hre & Hfree).
  destruct (write_frame_list_queue q out pic dpb prm Hq) as (size & ptype & Hqa).
  fold r ts_out in Hqa.
  set (pos := frame_list_position _) in *.
  assert (Hout : (out < length q)%nat) by (eapply lookup_lt_Some; eauto).
  exists pos. rewrite Hqa.
  split; [now rewrite list_lookup_insert_eq by assumption|].
  split; [exact Hpos|].
  split.
  { unfold r, cedrus_write_frame_list. rewrite Hq.
    fold frame_list_loop_init ts_out.
    match goal with
    | |- context [if ?c then mk_result (- ENOMEM) _ _ _ else _] => destruct c
    end; cbn [ret output_frame_idx]; [discriminate|reflexivity]. }
  split; [exact Hre|]. split; [exact Hfree|].
  split.
  { intros Hcase e s Hin Hprog Hs.
    unfold dpb_programmed in Hprog.
    apply andb_prop in Hprog as [Hprog _].
    apply andb_prop in Hprog as [Hv Hne].
    apply negb_true_iff, Z.eqb_neq in Hne.
    destruct (reoutput q ts_out dpb) eqn:E.
    - destruct Hcase as [|Hdist]; [discriminate|].
      pose proof (Hre eq_refl) as Hso.
      apply reoutput_true in E as (e' & Hin' & Hv' & Ht').
      rewrite <- Ht' in Hso.
      apply (Hdist e e' s pos Hin Hin' Hv Hv'); [congruence|assumption..].
    - destruct (Hfree eq_refl) as [Hnot _]. intros ->. apply Hnot.
      apply resolved_slots_In. eauto. }
  split.
  { intros e Hin Hv. rewrite (slot_of_after_write q out pic) by exact Hq.
    unfold slot_of.
    destruct (cedrus_buffer_picture_find q (reference_ts e)) as [[idx b]|] eqn:F;
      [|reflexivity].
    destruct (decide (idx = out)) as [->|]; [|reflexivity].
    pose proof F as F0.
    apply vb2_find_buffer_from_spec in F as (_ & Hl & _ & Ht).
    rewrite Nat.sub_0_r, Hq in Hl. injection Hl as <-.
    assert (E : reoutput q ts_out dpb = true)
      by (apply reoutput_true; exists e; auto).
    specialize (Hre E). unfold slot_of in Hre. fold ts_out in Ht.
    rewrite Ht, F0 in Hre. exact (eq_sym Hre). }
  split.
  { intros i Hi. now rewrite list_lookup_insert_ne by congruence. }
  intros b Hb. apply list_elem_of_In, list_elem_of_lookup in Hb as [i Hb].
  destruct (decide (i = out)) as [->|Hne].
  - rewrite list_lookup_insert_eq in Hb by assumption.
    injection Hb as <-. exact Hpos.
  - rewrite list_lookup_insert_ne in Hb by congruence.
    apply Htab. eapply list_elem_of_In, list_elem_of_lookup_2. exact Hb.
Qed.

Lemma frame_list_output_slot_witness :
  let q := [mk_buffer 10 true 0 0 64; mk_buffer 20 true 1 0 64;
            mk_buffer 30 true 0 0 0] in
  let dpb := [mk_dpb 10 3 0 2; mk_dpb 20 3 4 6] in
  let prm := mk_params 0 8 10 16 16 16 true in
  q !! 2%nat = Some (mk_buffer 30 true 0 0 0) /\
  exists pos,
    position <$> (queue_after (cedrus_write_frame_list q 2 dpb prm) !! 2%nat)
      = Some pos /\
    ~ In pos (resolved_slots q dpb) /\
    slot_of (queue_after (cedrus_write_frame_list q 2 dpb prm)) 20 = Some 1.
Proof.
  intros q dpb prm. split; [reflexivity|].
  destruct (frame_list_output_slot q 2 (mk_buffer 30 true 0 0 0) dpb prm)
    as (pos & Hpos & _ & _ & _ & Hfree & _ & Hstable & _).
  - reflexivity.
  - intros b [<-|[<-|[<-|[]]]]; cbn; unfold CEDRUS_DEC_H264_FRAME_NUM; lia.
  - unfold V4L2_H264_NUM_DPB_ENTRIES. cbn. lia.
  - intros e [<-|[<-|[]]] _; eexists; reflexivity.
  - exists pos. split; [exact Hpos|]. split; [now apply Hfree|].
    exact (Hstable (mk_dpb 20 3 4 6) (or_intror (or_introl eq_refl)) eq_refl).
Defined.

(** Three Jobs on two fresh buffers: pictures 10 and 20 are decoded
    with empty DPBs and both get slot 0; the third Job outputs picture
    20 again with a DPB that lists it and the active reference 10.  All
    valid entries resolve, the output keeps slot 0, and entry 10 was
    programmed at slot 0 too: the table's slot 0 ends up describing the
    output picture only. *)
Lemma frame_list_reoutput_collision_counterexample :
  let prm := mk_params 0 0 0 16 16 16 true in
  let fresh := [mk_buffer 0 false 0 0 0; mk_buffer 0 false 0 0 0] in
  let q1 := queue_after (h264_decode_job_run fresh (mk_decode_job 0 10 [] prm)) in
  let q2 := queue_after (h264_decode_job_run q1 (mk_decode_job 1 20 [] prm)) in
  let dpb := [mk_dpb 20 1 0 0; mk_dpb 10 3 0 0] in
  let q3 := v4l2_m2m_buf_copy_metadata q2 1 20 in
  let r := h264_decode_job_run q2 (mk_decode_job 1 20 dpb prm) in
  dpb_resolves q3 dpb /\
  ret r = 0 /\
  dpb_programmed 20 (mk_dpb 10 3 0 0) = true /\
  slot_of q3 10 = Some (output_frame_idx r) /\
  picture <$> mjoin (sram_list r !! 0%nat) = Some 1%nat.
Proof.
  cbv zeta. split.
  - intros e [<-|[<-|[]]] _; eexists; vm_compute; reflexivity.
  - repeat split; vm_compute; reflexivity.
Qed.

(* ================================================================== *)
(** ** H.265: a zero data_byte_offset *)

Lemma existsb_app_orb {A} (f : A -> bool) l l' :
  existsb f (l ++ l') = existsb f l || existsb f l'.
Proof. apply existsb_app. Qed.

(** C9 (as amended).  For every H.265 decode Job whose slice parameters
    carry data_byte_offset equal to 0, job_configure programs no
    bitstream skip, and how it ends is decided by the checks in the
    order the function makes them: Range, with no register written, when
    a nonzero num_entry_point_offsets differs from the entry-point
    control's element count; otherwise OutOfMemory, with no register
    written, when the picture has no motion-vector buffer and none can
    be allocated; otherwise Unsupported, after the bitstream window, the
    CTB address, the tile bounds and the software-decoder trigger were
    written.  The last two need the SPS to give a CTB size (log2 below
    32), and the last a picture width of at least one CTB: without them
    the function shifts too far or divides by zero and never returns.
    Whenever it returns, the failure is confined to that Job: the
    dispatcher returns the error, completes the Job once as
    Done-with-error, arms no watchdog, triggers nothing and leaves the
    platform idle for the next Job. *)
Theorem h265_zero_data_byte_offset (j : h265_job) (p : platform)
    (ctx : cedrus_context) (req : bool) :
  data_byte_offset j = 0 ->
  platform_idle p ->
  let cfg := cedrus_dec_h265_job_configure j in
  existsb is_bits_skip (snd cfg) = false /\
  (h265_entry_points_mismatch j = true -> cfg = (Returns (- ERANGE), [])) /\
  (h265_entry_points_mismatch j = false ->
   match h265_ctb_size_luma j with
   | None => cfg = (Faults, [])
   | Some ctb_size_luma =>
       let width_in_ctb_luma := h265_width_in_ctb_luma j ctb_size_luma in
       (h265_no_mv_col_buf j = true -> cfg = (Returns (- ENOMEM), [])) /\
       (h265_no_mv_col_buf j = false -> width_in_ctb_luma = 0 ->
        fst cfg = Faults) /\
       (h265_no_mv_col_buf j = false -> width_in_ctb_luma <> 0 ->
        cfg =
          (Returns (- EOPNOTSUPP),
           [VE_DEC_H265_BITS_OFFSET 0;
            VE_DEC_H265_BITS_LEN (u32 (coded_size j * 8));
            VE_DEC_H265_BITS_ADDR (coded_addr j);
            VE_DEC_H265_BITS_END_ADDR (coded_addr j + coded_size j);
            VE_DEC_H265_DEC_CTB_ADDR
              (slice_segment_addr j mod width_in_ctb_luma)
              (slice_segment_addr j / width_in_ctb_luma)] ++
           (if pps_tiles_enabled j || pps_entropy_coding_sync_enabled j
            then [Tiles_write (slice_segment_addr j mod width_in_ctb_luma)
                    (slice_segment_addr j / width_in_ctb_luma)]
            else [VE_DEC_H265_TILE_START_CTB 0;
                  VE_DEC_H265_TILE_END_CTB 0]) ++
           (if new_frame j then [VE_DEC_H265_DEC_CTB_NUM 0] else []) ++
           [VE_DEC_H265_TRIGGER_INIT_SWDEC]))
   end) /\
  (forall ret, fst cfg = Returns ret ->
     (ret = - ERANGE \/ ret = - ENOMEM \/ ret = - EOPNOTSUPP) /\
     exists run,
       h265_device_run p ctx req j = Some run /\
       snd run = ret /\
       platform_idle (fst run) /\
       dec_ctx_active (fst run) = dec_ctx_active p /\
       enc_ctx_active (fst run) = enc_ctx_active p /\
       actions (fst run) =
         actions p ++ [Job_cleared ctx] ++
         (if req then [Request_setup ctx; Request_complete ctx] else []) ++
         [Engine_job_finish ctx VB2_BUF_STATE_ERROR; Job_cleared ctx;
          Buf_done_and_job_finish ctx VB2_BUF_STATE_ERROR]).
Proof.
  intros Hdbo [Hw Hc] cfg.
  assert (Hcfg :
    cfg =
      if h265_entry_points_mismatch j then (Returns (- ERANGE), [])
      else match h265_ctb_size_luma j with
           | None => (Faults, [])
           | Some ctb =>
               if h265_no_mv_col_buf j then (Returns (- ENOMEM), [])
               else if h265_width_in_ctb_luma j ctb =? 0
                    then (Faults,
                          [VE_DEC_H265_BITS_OFFSET 0;
                           VE_DEC_H265_BITS_LEN (u32 (coded_size j * 8));
                           VE_DEC_H265_BITS_ADDR (coded_addr j);
                           VE_DEC_H265_BITS_END_ADDR
                             (coded_addr j + coded_size j)])
                    else
                      (Returns (- EOPNOTSUPP),
                       [VE_DEC_H265_BITS_OFFSET 0;
                        VE_DEC_H265_BITS_LEN (u32 (coded_size j * 8));
                        VE_DEC_H265_BITS_ADDR (coded_addr j);
                        VE_DEC_H265_BITS_END_ADDR
                          (coded_addr j + coded_size j);
                        VE_DEC_H265_DEC_CTB_ADDR
                          (slice_segment_addr j mod h265_width_in_ctb_luma j ctb)
                          (slice_segment_addr j / h265_width_in_ctb_luma j ctb)] ++
                       (if pps_tiles_enabled j ||
                           pps_entropy_coding_sync_enabled j
                        then [Tiles_write
                                (slice_segment_addr j mod
                                 h265_width_in_ctb_luma j ctb)
                                (slice_segment_addr j /
                                 h265_width_in_ctb_luma j ctb)]
                        else [VE_DEC_H265_TILE_START_CTB 0;
                              VE_DEC_H265_TILE_END_CTB 0]) ++
                       (if new_frame j then [VE_DEC_H265_DEC_CTB_NUM 0]
                        else []) ++
                       [VE_DEC_H265_TRIGGER_INIT_SWDEC])
           end).
  { unfold cfg, cedrus_dec_h265_job_configure, h265_entry_points_mismatch,
      h265_no_mv_col_buf.
    rewrite Hdbo. cbn [Z.eqb].
    destruct (negb _ && negb _); [reflexivity|].
    destruct (h265_ctb_size_luma j) as [ctb|]; [|reflexivity].
    cbv zeta.
    destruct ((h265_mv_col_buf_size j =? 0) && negb (h265_alloc_ok j));
      [reflexivity|].
    destruct (h265_width_in_ctb_luma j ctb =? 0); reflexivity. }
  assert (Hskip : existsb is_bits_skip (snd cfg) = false).
  { rewrite Hcfg.
    destruct (h265_entry_points_mismatch j); [reflexivity|].
    destruct (h265_ctb_size_luma j) as [ctb|]; [|reflexivity].
    destruct (h265_no_mv_col_buf j); [reflexivity|].
    destruct (h265_width_in_ctb_luma j ctb =? 0); [reflexivity|].
    cbn [snd existsb app is_bits_skip orb].
    rewrite !existsb_app_orb; cbn [existsb is_bits_skip orb].
    destruct (pps_tiles_enabled j || pps_entropy_coding_sync_enabled j),
      (new_frame j); reflexivity. }
  split; [exact Hskip|]. split; [|split].
  - intros E. rewrite Hcfg, E. reflexivity.
  - intros E. rewrite Hcfg, E.
    destruct (h265_ctb_size_luma j) as [ctb|]; [|reflexivity].
    cbv zeta. split; [|split].
    + intros ->. reflexivity.
    + intros -> ->. reflexivity.
    + intros -> Hne. apply Z.eqb_neq in Hne. rewrite Hne. reflexivity.
  - intros ret Hret.
    assert (Herr : ret = - ERANGE \/ ret = - ENOMEM \/ ret = - EOPNOTSUPP).
    { rewrite Hcfg in Hret.
      destruct (h265_entry_points_mismatch j);
        [cbn in Hret; injection Hret; auto|].
      destruct (h265_ctb_size_luma j) as [ctb|]; [|discriminate].
      destruct (h265_no_mv_col_buf j); [cbn in Hret; injection Hret; auto|].
      destruct (h265_width_in_ctb_luma j ctb =? 0); [discriminate|].
      cbn in Hret; injection Hret; auto. }
    split; [exact Herr|].
    assert (Hnz : (ret =? 0) = false).
    { apply Z.eqb_neq. unfold ERANGE, ENOMEM, EOPNOTSUPP in Herr. lia. }
    unfold h265_device_run. fold cfg. rewrite Hret.
    eexists. split; [reflexivity|].
    unfold cedrus_v4l2_m2m_device_run, cedrus_context_job_run.
    cbn [job_prepare_ret format_configure_ret format_picture_configure_ret
         job_configure_ret Z.eqb negb].
    rewrite Hnz. cbn [negb fst snd].
    unfold platform_idle.
    destruct req; cbn; rewrite <- ?app_assoc; cbn; rewrite Hw;
      now repeat split.
Qed.

Lemma h265_zero_data_byte_offset_witness :
  let j := mk_h265_job 0 0 0 5 0 1 64 false false true 0 true 4096 100 128 in
  data_byte_offset j = 0 /\
  platform_idle (mk_platform WORK_IDLE None None None []) /\
  cedrus_dec_h265_job_configure j =
  (Returns (- EOPNOTSUPP),
   [VE_DEC_H265_BITS_OFFSET 0; VE_DEC_H265_BITS_LEN 800;
    VE_DEC_H265_BITS_ADDR 4096; VE_DEC_H265_BITS_END_ADDR 4196;
    VE_DEC_H265_DEC_CTB_ADDR 1 1; VE_DEC_H265_TILE_START_CTB 0;
    VE_DEC_H265_TILE_END_CTB 0; VE_DEC_H265_DEC_CTB_NUM 0;
    VE_DEC_H265_TRIGGER_INIT_SWDEC]).
Proof.
  cbv zeta.
  split; [reflexivity|]. split; [split; reflexivity|].
  destruct (h265_zero_data_byte_offset
              (mk_h265_job 0 0 0 5 0 1 64 false false true 0 true 4096 100 128)
              (mk_platform WORK_IDLE None None None [])
              (mk_ctx 1 CEDRUS_ROLE_DECODER) true)
    as (_ & _ & Hcode & _); [reflexivity|split; reflexivity|].
  specialize (Hcode eq_refl).
  destruct Hcode as (_ & _ & Hcode).
  rewrite Hcode; [reflexivity | reflexivity | discriminate].
Defined.

(** Two Jobs with data_byte_offset = 0 that do not fail with
    Unsupported.  The first declares one entry point while the control
    array holds none: the entry-point check comes first and the error
    is Range.  The second has an SPS with pic_width_in_luma_samples = 0:
    width_in_ctb_luma is 0 and the CTB address computation divides by
    it, after the bitstream window registers were written. *)
Lemma h265_entry_point_mismatch_counterexample :
  let mismatch :=
    mk_h265_job 1 0 0 5 0 1 64 false false true 0 true 4096 100 128 in
  let zero_width :=
    mk_h265_job 0 0 0 5 0 1 0 false false true 0 true 4096 100 128 in
  data_byte_offset mismatch = 0 /\
  cedrus_dec_h265_job_configure mismatch = (Returns (- ERANGE), []) /\
  Returns (- ERANGE) <> Returns (- EOPNOTSUPP) /\
  data_byte_offset zero_width = 0 /\
  h265_entry_points_mismatch zero_width = false /\
  h265_ctb_size_luma zero_width = Some 16 /\
  h265_width_in_ctb_luma zero_width 16 = 0 /\
  cedrus_dec_h265_job_configure zero_width =
    (Faults,
     [VE_DEC_H265_BITS_OFFSET 0; VE_DEC_H265_BITS_LEN 800;
      VE_DEC_H265_BITS_ADDR 4096; VE_DEC_H265_BITS_END_ADDR 4196]).
Proof. cbv zeta. repeat split; discriminate. Qed.

(* ================================================================== *)
(** ** H.265: skipping to the end of the slice header *)

Lemma bits_flushed_app ws ws' :
  h265_bits_flushed (ws ++ ws') = h265_bits_flushed ws + h265_bits_flushed ws'.
Proof.
  induction ws as [|w ws IH]; [reflexivity|].
  cbn [app]. unfold h265_bits_flushed in *. cbn [fold_right].
  rewrite IH. destruct w; lia.
Qed.

Lemma bits_flushed_repeat n (k : nat) :
  h265_bits_flushed (repeat (VE_DEC_H265_TRIGGER_FLUSH_BITS n) k) =
  n * Z.of_nat k.
Proof.
  induction k as [|k IH]; [cbn; lia|].
  cbn [repeat]. unfold h265_bits_flushed in *. cbn [fold_right].
  rewrite IH. lia.
Qed.

Lemma bits_skip_loop_chunks count : forall (fuel : nat) written,
  0 <= written <= count -> count < 2 ^ 32 ->
  count - written <= Z.of_nat fuel ->
  bits_skip_loop fuel written count =
    repeat (VE_DEC_H265_TRIGGER_FLUSH_BITS 32)
      (Z.to_nat ((count - written) / 32)) ++
    (if (count - written) mod 32 =? 0 then []
     else [VE_DEC_H265_TRIGGER_FLUSH_BITS ((count - written) mod 32)]).
Proof.
  induction fuel as [|fuel IH]; intros written Hw Hc Hf.
  - replace (count - written) with 0 by lia. reflexivity.
  - cbn [bits_skip_loop].
    destruct (Z.ltb_spec written count) as [Hlt|Hge].
    + rewrite (u32_small (count - written)) by lia.
      destruct (Z.le_gt_cases 32 (count - written)) as [Hbig|Hsmall].
      * rewrite Z.min_r by lia.
        rewrite (u32_small (written + 32)) by lia.
        rewrite IH by lia.
        replace (count - written) with (count - (written + 32) + 1 * 32) by lia.
        rewrite Z.div_add, Z.mod_add by lia.
        rewrite Z2Nat.inj_add by (try apply Z.div_pos; lia).
        change (Z.to_nat 1) with 1%nat.
        rewrite Nat.add_comm. reflexivity.
      * rewrite Z.min_l by lia.
        rewrite (u32_small (written + (count - written))) by lia.
        replace (written + (count - written)) with count by lia.
        rewrite Z.div_small, Z.mod_small by lia.
        rewrite (proj2 (Z.eqb_neq _ _)) by lia.
        destruct fuel; cbn [bits_skip_loop];
          rewrite ?Z.ltb_irrefl; reflexivity.
    + replace (count - written) with 0 by lia. reflexivity.
Qed.

(** X2.  [cedrus_dec_h265_bits_skip] asks the hardware to flush [count]
    bits in requests of 32 bits, followed by one request for the
    remainder when [count] is no multiple of 32: no request is empty or
    longer than 32 bits, and together they move the bitstream pointer
    by exactly [count] bits.  Nothing is requested for a count of 0. *)
Theorem bits_skip_chunks (count : Z) :
  0 <= count < 2 ^ 32 ->
  cedrus_dec_h265_bits_skip count =
    repeat (VE_DEC_H265_TRIGGER_FLUSH_BITS 32) (Z.to_nat (count / 32)) ++
    (if count mod 32 =? 0 then []
     else [VE_DEC_H265_TRIGGER_FLUSH_BITS (count mod 32)]) /\
  h265_bits_flushed (cedrus_dec_h265_bits_skip count) = count /\
  Z.of_nat (length (cedrus_dec_h265_bits_skip count)) = (count + 31) / 32.
Proof.
  intros Hc.
  assert (E : cedrus_dec_h265_bits_skip count =
    repeat (VE_DEC_H265_TRIGGER_FLUSH_BITS 32) (Z.to_nat (count / 32)) ++
    (if count mod 32 =? 0 then []
     else [VE_DEC_H265_TRIGGER_FLUSH_BITS (count mod 32)])).
  { unfold cedrus_dec_h265_bits_skip.
    rewrite bits_skip_loop_chunks by lia.
    now rewrite Z.sub_0_r. }
  pose proof (Z.div_mod count 32 ltac:(lia)) as Hdm.
  pose proof (Z.mod_pos_bound count 32 ltac:(lia)) as Hm.
  assert (0 <= count / 32) by (apply Z.div_pos; lia).
  split; [exact E|]. rewrite E. split.
  - rewrite bits_flushed_app, bits_flushed_repeat, Z2Nat.id by assumption.
    destruct (Z.eqb_spec (count mod 32) 0); cbn; lia.
  - rewrite length_app, repeat_length, Nat2Z.inj_add, Z2Nat.id by assumption.
    replace (count + 31) with (count mod 32 + 31 + (count / 32) * 32) by lia.
    rewrite Z.div_add by lia.
    destruct (Z.eqb_spec (count mod 32) 0) as [E0|E0]; cbn [length].
    + rewrite E0. change ((0 + 31) / 32) with 0. lia.
    + replace ((count mod 32 + 31) / 32) with 1; [lia|].
      apply Z.div_unique with (r := count mod 32 - 1); lia.
Qed.

Lemma bits_skip_chunks_witness :
  0 <= 70 < 2 ^ 32 /\
  cedrus_dec_h265_bits_skip 70 =
    [VE_DEC_H265_TRIGGER_FLUSH_BITS 32; VE_DEC_H265_TRIGGER_FLUSH_BITS 32;
     VE_DEC_H265_TRIGGER_FLUSH_BITS 6].
Proof.
  split; [lia|].
  destruct (bits_skip_chunks 70) as [E _]; [lia|].
  rewrite E. reflexivity.
Defined.

Lemma first_set_bit_from_8 padding :
  first_set_bit_from 8 0 padding =
    if Z.testbit padding 0 then 0 else if Z.testbit padding 1 then 1
    else if Z.testbit padding 2 then 2 else if Z.testbit padding 3 then 3
    else if Z.testbit padding 4 then 4 else if Z.testbit padding 5 then 5
    else if Z.testbit padding 6 then 6 else if Z.testbit padding 7 then 7
    else 8.
Proof. reflexivity. Qed.

Lemma first_set_bit_spec padding :
  0 < padding < 2 ^ 8 ->
  let k := first_set_bit_from 8 0 padding in
  0 <= k < 8 /\ Z.testbit padding k = true /\
  (forall i, 0 <= i < k -> Z.testbit padding i = false).
Proof.
  intros Hp. cbv zeta.
  destruct (Z.testbit padding 0) eqn:B0;
    [|destruct (Z.testbit padding 1) eqn:B1;
      [|destruct (Z.testbit padding 2) eqn:B2;
        [|destruct (Z.testbit padding 3) eqn:B3;
          [|destruct (Z.testbit padding 4) eqn:B4;
            [|destruct (Z.testbit padding 5) eqn:B5;
              [|destruct (Z.testbit padding 6) eqn:B6;
                [|destruct (Z.testbit padding 7) eqn:B7]]]]]]].
  all: rewrite first_set_bit_from_8;
       rewrite ?B0, ?B1, ?B2, ?B3, ?B4, ?B5, ?B6, ?B7; cbv iota.
  9: { exfalso.
       assert (E : padding = 0).
       { apply Z.bits_inj'. intros i Hi. rewrite Z.bits_0.
         destruct (Z.lt_ge_cases i 8) as [Hlt|Hge].
         - assert (Hi8 : i = 0 \/ i = 1 \/ i = 2 \/ i = 3 \/ i = 4 \/ i = 5 \/
                         i = 6 \/ i = 7) by lia.
           destruct Hi8 as [->|[->|[->|[->|[->|[->|[->| ->]]]]]]]; assumption.
         - rewrite <- (Z.mod_small padding (2 ^ 8)) by lia.
           apply Z.mod_pow2_bits_high. lia. }
       lia. }
  all: split; [lia|]; split; [reflexivity|];
       intros ? ?;
       repeat match goal with
              | H : Z.testbit _ ?j = false |- Z.testbit _ ?i = false =>
                  destruct (Z.eq_dec i j) as [->|]; [exact H|]; clear H
              end; lia.
Qed.

(** X3.  A Job that passes the checks of [cedrus_dec_h265_job_configure]
    and carries a nonzero data_byte_offset: the function shows the byte
    before the slice data, refuses the Job as Invalid when that byte is
    0, and otherwise skips up to, and not over, the byte's lowest set
    bit (the bit that ends the slice header), so that the bitstream
    pointer ends 8 * data_byte_offset - 1 - k bits into the buffer,
    where k is the position of that bit, and goes on to the rest of the
    configuration. *)
Theorem h265_skip_to_slice_header_end (j : h265_job) (ctb : Z) :
  h265_entry_points_mismatch j = false ->
  h265_no_mv_col_buf j = false ->
  h265_ctb_size_luma j = Some ctb ->
  h265_width_in_ctb_luma j ctb <> 0 ->
  0 < data_byte_offset j < 2 ^ 29 ->
  let cfg := cedrus_dec_h265_job_configure j in
  let padding := bits_read_byte j mod 2 ^ 8 in
  (padding = 0 ->
   fst cfg = Returns (- EINVAL) /\
   h265_bits_flushed (snd cfg) = 8 * (data_byte_offset j - 1)) /\
  (padding <> 0 ->
   exists k,
     0 <= k < 8 /\ Z.testbit padding k = true /\
     (forall i, 0 <= i < k -> Z.testbit padding i = false) /\
     fst cfg = Returns 0 /\
     h265_bits_flushed (snd cfg) = 8 * data_byte_offset j - 1 - k /\
     last (snd cfg) = Some Remaining_configuration).
Proof.
  intros Hm Hb Hctb Hw Hdbo cfg padding.
  pose proof (Z.mod_pos_bound (bits_read_byte j) (2 ^ 8) ltac:(lia)) as Hpad.
  fold padding in Hpad.
  unfold h265_entry_points_mismatch in Hm. unfold h265_no_mv_col_buf in Hb.
  apply Z.eqb_neq in Hw.
  assert (Hdz : (data_byte_offset j =? 0) = false) by (apply Z.eqb_neq; lia).
  assert (Hskip1 : h265_bits_flushed
                     (cedrus_dec_h265_bits_skip
                        (u32 ((data_byte_offset j - 1) * 8))) =
                   8 * (data_byte_offset j - 1)).
  { rewrite u32_small by lia.
    destruct (bits_skip_chunks ((data_byte_offset j - 1) * 8)) as (_ & E & _);
      [lia|]. rewrite E. lia. }
  unfold cfg, cedrus_dec_h265_job_configure.
  rewrite Hm, Hctb, Hb, Hw, Hdz. cbv zeta.
  subst padding. set (padding := bits_read_byte j mod 2 ^ 8) in *.
  split.
  - intros E. rewrite E. cbn [Z.eqb fst snd]. split; [reflexivity|].
    rewrite !bits_flushed_app, Hskip1.
    destruct (pps_tiles_enabled j || pps_entropy_coding_sync_enabled j),
      (new_frame j); cbn; lia.
  - intros Hne. rewrite (proj2 (Z.eqb_neq _ _) Hne). cbn [fst snd].
    destruct (first_set_bit_spec padding ltac:(lia)) as (Hk & Hbit & Hlow).
    cbv zeta in Hk, Hbit, Hlow.
    set (k := first_set_bit_from 8 0 padding) in *. clearbody k.
    exists k.
    split; [exact Hk|]. split; [exact Hbit|]. split; [exact Hlow|].
    split; [reflexivity|]. split.
    + rewrite !bits_flushed_app, Hskip1.
      destruct (bits_skip_chunks (u32 (8 - (k + 1)))) as (_ & E & _).
      { rewrite u32_small by lia. lia. }
      rewrite E, (u32_small (8 - (k + 1))) by lia.
      destruct (pps_tiles_enabled j || pps_entropy_coding_sync_enabled j),
        (new_frame j); unfold h265_bits_flushed; cbn [fold_right app]; lia.
    + rewrite last_snoc. reflexivity.
Qed.

Lemma h265_skip_to_slice_header_end_witness :
  let j := mk_h265_job 0 0 9 5 0 1 64 false false true 0 true 4096 100 160 in
  h265_entry_points_mismatch j = false /\
  h265_no_mv_col_buf j = false /\
  h265_ctb_size_luma j = Some 16 /\
  h265_width_in_ctb_luma j 16 <> 0 /\
  0 < data_byte_offset j < 2 ^ 29 /\
  fst (cedrus_dec_h265_job_configure j) = Returns 0 /\
  h265_bits_flushed (snd (cedrus_dec_h265_job_configure j)) = 66.
Proof.
  cbv zeta.
  split; [reflexivity|]. split; [reflexivity|]. split; [reflexivity|].
  split; [discriminate|]. split; [cbn; lia|].
  destruct (h265_skip_to_slice_header_end
              (mk_h265_job 0 0 9 5 0 1 64 false false true 0 true 4096 100 160)
              16)
    as [_ H]; [reflexivity | reflexivity | reflexivity | discriminate
              | cbn; lia |].
  destruct H as (k & _ & _ & _ & Hret & _); [discriminate|].
  split; [exact Hret | reflexivity].
Defined.

(* ================================================================== *)
(** ** The encoder's QP: from the controls to the syntax *)

Lemma job_prepare_frame_type_not_b c :
  frame_type (snd (cedrus_enc_h264_job_prepare c)) <> CEDRUS_ENC_H264_FRAME_TYPE_B.
Proof.
  rewrite job_prepare_frame_type. unfold gop_frame_type.
  repeat (match goal with |- context [if ?b then _ else _] => destruct b end);
    discriminate.
Qed.

Lemma job_prepare_qp_eq c :
  qp (snd (cedrus_enc_h264_job_prepare c)) =
  job_prepare_qp c (frame_type (snd (cedrus_enc_h264_job_prepare c))) 0.
Proof. reflexivity. Qed.

Lemma job_prepare_qp_init c :
  qp_init (state (fst (cedrus_enc_h264_job_prepare c))) =
    qp (snd (cedrus_enc_h264_job_prepare c)) \/
  qp_init (state (fst (cedrus_enc_h264_job_prepare c))) = qp_init (state c).
Proof.
  unfold cedrus_enc_h264_job_prepare; cbn.
  destruct (_ <? _); [left|right]; reflexivity.
Qed.

(** *** The fixed-width writers and the NAL unit header *)

Lemma be_bits_ext n x y :
  (forall i, 0 <= i < Z.of_nat n -> Z.testbit x i = Z.testbit y i) ->
  be_bits n x = be_bits n y.
Proof.
  induction n as [|n IH]; intros H; [reflexivity|].
  simpl. rewrite (H (Z.of_nat n)) by lia. f_equal. apply IH.
  intros i Hi. apply H. lia.
Qed.

Lemma be_bits_mod n m x :
  (n <= m)%nat -> be_bits n (x mod 2 ^ Z.of_nat m) = be_bits n x.
Proof.
  intros H. apply be_bits_ext. intros i Hi.
  apply Z.mod_pow2_bits_low. lia.
Qed.

Lemma be_bits_app n m x :
  be_bits (n + m) x = be_bits n (Z.shiftr x (Z.of_nat m)) ++ be_bits m x.
Proof.
  induction n as [|n IH]; [reflexivity|].
  simpl. rewrite IH. f_equal.
  rewrite Z.shiftr_spec by lia. f_equal. lia.
Qed.

Lemma coded_append_stream dev v n :
  cedrus_enc_h264_coded_append dev v n =
  mk_device (coded_stream dev ++ be_bits (Z.to_nat (u32 n)) (u32 v)).
Proof. reflexivity. Qed.

Lemma be_bits_u32 n x : (n <= 32)%nat -> be_bits n (u32 x) = be_bits n x.
Proof. intros H. unfold u32. now apply (be_bits_mod n 32). Qed.

Lemma be_bits_u8 n x : (n <= 8)%nat -> be_bits n (u8 x) = be_bits n x.
Proof. intros H. unfold u8. now apply (be_bits_mod n 8). Qed.


Lemma be_bits_land_ones n x :
  be_bits n (Z.land x (Z.ones (Z.of_nat n))) = be_bits n x.
Proof.
  apply be_bits_ext. intros i Hi.
  rewrite Z.land_spec, Z.ones_spec_low by lia. apply andb_true_r.
Qed.

Lemma coded_u8_stream dev v :
  cedrus_enc_h264_coded_u8 dev v =
  mk_device (coded_stream dev ++ be_bits 8 v).
Proof.
  unfold cedrus_enc_h264_coded_u8. rewrite coded_append_stream.
  change (Z.to_nat (u32 8)) with 8%nat.
  now rewrite be_bits_u32, be_bits_u8 by lia.
Qed.


Lemma coded_bit_stream dev v :
  cedrus_enc_h264_coded_bit dev v =
  mk_device (coded_stream dev ++ be_bits 1 v).
Proof.
  unfold cedrus_enc_h264_coded_bit. rewrite coded_append_stream.
  change (Z.to_nat (u32 1)) with 1%nat.
  now rewrite be_bits_u32 by lia.
Qed.

Lemma coded_byte_slice dev value k :
  cedrus_enc_h264_coded_append dev
    (u8 (Z.land (Z.shiftr value k) (GENMASK 7 0))) 8 =
  mk_device (coded_stream dev ++ be_bits 8 (Z.shiftr value k)).
Proof.
  rewrite coded_append_stream.
  change (Z.to_nat (u32 8)) with 8%nat.
  rewrite be_bits_u32, be_bits_u8 by lia.
  change (GENMASK 7 0) with (Z.ones (Z.of_nat 8)).
  now rewrite be_bits_land_ones.
Qed.

Lemma coded_bytes_loop_stream n : forall dev value,
  (n <= 4)%nat ->
  coded_bytes_loop n dev value =
  Some (mk_device (coded_stream dev ++ be_bits (8 * n) value)).
Proof.
  induction n as [|n IH]; intros dev value Hn.
  - simpl. rewrite app_nil_r. now destruct dev.
  - cbn [coded_bytes_loop].
    rewrite (proj2 (Z.leb_gt _ _)) by lia.
    rewrite coded_byte_slice, IH by lia. cbn [coded_stream].
    rewrite <- app_assoc. do 3 f_equal.
    replace (8 * S n)%nat with (8 + 8 * n)%nat by lia.
    rewrite be_bits_app. do 3 f_equal. lia.
Qed.

Lemma coded_u32_stream dev v :
  cedrus_enc_h264_coded_u32 dev v =
  Some (mk_device (coded_stream dev ++ be_bits 32 v)).
Proof.
  unfold cedrus_enc_h264_coded_u32, cedrus_enc_h264_coded_bytes.
  change (Z.to_nat (u32 4)) with 4%nat.
  rewrite coded_bytes_loop_stream by lia.
  change (8 * 4)%nat with 32%nat.
  now rewrite !be_bits_u32 by lia.
Qed.

Lemma read_bits_be_bits_0 n x rest :
  read_bits n 0 (be_bits n x ++ rest) = Some (x mod 2 ^ Z.of_nat n, rest).
Proof.
  rewrite <- (be_bits_mod n n x) by lia.
  rewrite read_bits_be_bits by (apply Z.mod_pos_bound; lia).
  rewrite Z.mod_mod by lia. reflexivity.
Qed.


Lemma nalu_header_value type ref_idc :
  cedrus_enc_h264_nalu_header type ref_idc = type mod 32 + 32 * (ref_idc mod 4).
Proof.
  unfold cedrus_enc_h264_nalu_header, GENMASK, u8.
  change (4 - 0 + 1) with 5. change (6 - 5 + 1) with 2.
  rewrite Z.shiftl_0_r, Z.land_ones by lia.
  rewrite <- Z.shiftl_land, Z.land_ones by lia.
  rewrite <- Z.lxor_lor, <- Z.add_nocarry_lxor.
  - rewrite Z.shiftl_mul_pow2 by lia.
    rewrite (Z.mod_mod_divide type (2 ^ 8) (2 ^ 5)) by (exists (2 ^ 3); reflexivity).
    rewrite (Z.mod_mod_divide ref_idc (2 ^ 8) (2 ^ 2)) by (exists (2 ^ 6); reflexivity).
    pose proof (Z.mod_pos_bound type (2 ^ 5) ltac:(lia)).
    pose proof (Z.mod_pos_bound ref_idc (2 ^ 2) ltac:(lia)).
    change (2 ^ 5) with 32 in *. change (2 ^ 2) with 4 in *.
    change (2 ^ 8) with 256. rewrite Z.mod_small; lia.
  - apply Z.bits_inj'. intros i Hi.
    rewrite Z.land_spec, Z.bits_0.
    destruct (Z.lt_ge_cases i 5).
    + rewrite Z.shiftl_spec_low by lia. apply andb_false_r.
    + rewrite Z.mod_pow2_bits_high by lia. reflexivity.
  - apply Z.bits_inj'. intros i Hi.
    rewrite Z.land_spec, Z.bits_0.
    destruct (Z.lt_ge_cases i 5).
    + rewrite Z.shiftl_spec_low by lia. apply andb_false_r.
    + rewrite Z.mod_pow2_bits_high by lia. reflexivity.
Qed.

(** *** Stepping a parser over written bits *)

Lemma p_bind_some {A B} (p : parser A) (f : A -> parser B) bs a bs' :
  p bs = Some (a, bs') -> p_bind p f bs = f a bs'.
Proof. unfold p_bind. now intros ->. Qed.

Lemma p_expect_some (p : parser Z) v bs bs' :
  p bs = Some (v, bs') -> p_expect p v bs = Some (tt, bs').
Proof.
  intros H. unfold p_expect. rewrite (p_bind_some _ _ _ _ _ H).
  now rewrite Z.eqb_refl.
Qed.

Lemma p_u_be_bits n x rest :
  p_u n (be_bits n x ++ rest) = Some (x mod 2 ^ Z.of_nat n, rest).
Proof. apply read_bits_be_bits_0. Qed.

Lemma p_u_be_bits_small n x rest :
  0 <= x < 2 ^ Z.of_nat n ->
  p_u n (be_bits n x ++ rest) = Some (x, rest).
Proof. intros H. rewrite p_u_be_bits, Z.mod_small by lia. reflexivity. Qed.

Lemma p_ue_bits v rest :
  ue_arg v -> p_ue (ue_bits v ++ rest) = Some (v, rest).
Proof.
  intros [H _]. unfold p_ue, ue_bits.
  rewrite decode_ue_code by lia. do 2 f_equal. lia.
Qed.

Lemma p_se_bits v rest :
  se_arg v -> p_se (se_bits v ++ rest) = Some (v, rest).
Proof.
  unfold se_arg, INT_MIN, INT_MAX, p_se, decode_se, se_bits. intros H.
  fold p_ue. rewrite p_ue_bits.
  - now rewrite se_of_code_num_inverse.
  - unfold ue_arg, UINT_MAX. destruct (Z.ltb_spec 0 v); lia.
Qed.

(** *** What a run of calls appends *)

Lemma run_u32 s v l :
  coded_calls_run (mk_device s) (Coded_u32 v :: l) =
  coded_calls_run (mk_device (s ++ be_bits 32 v)) l.
Proof. cbn [coded_calls_run coded_call_run]. now rewrite coded_u32_stream. Qed.


Lemma run_u8 s v l :
  coded_calls_run (mk_device s) (Coded_u8 v :: l) =
  coded_calls_run (mk_device (s ++ be_bits 8 v)) l.
Proof. cbn [coded_calls_run coded_call_run]. now rewrite coded_u8_stream. Qed.

Lemma run_bit s v l :
  coded_calls_run (mk_device s) (Coded_bit v :: l) =
  coded_calls_run (mk_device (s ++ be_bits 1 v)) l.
Proof. cbn [coded_calls_run coded_call_run]. now rewrite coded_bit_stream. Qed.

Lemma run_append s v n l :
  coded_calls_run (mk_device s) (Coded_append v n :: l) =
  coded_calls_run
    (mk_device (s ++ be_bits (Z.to_nat (u32 n)) (u32 v))) l.
Proof. reflexivity. Qed.

Lemma run_ue s v l :
  ue_arg v ->
  coded_calls_run (mk_device s) (Coded_ue v :: l) =
  coded_calls_run (mk_device (s ++ ue_bits v)) l.
Proof.
  intros H. cbn [coded_calls_run coded_call_run].
  now rewrite coded_ue_in_range.
Qed.

Lemma run_se s v l :
  se_arg v ->
  coded_calls_run (mk_device s) (Coded_se v :: l) =
  coded_calls_run (mk_device (s ++ se_bits v)) l.
Proof.
  intros H. cbn [coded_calls_run coded_call_run].
  unfold cedrus_enc_h264_coded_se.
  rewrite coded_se_value_ue_in_range by exact H.
  rewrite coded_ue_in_range; [reflexivity|].
  unfold se_arg, INT_MIN, INT_MAX in H. unfold UINT_MAX.
  destruct (Z.ltb_spec 0 v); lia.
Qed.

(** The padding of [cedrus_enc_h264_coded_align] after [n] bits. *)
Lemma coded_align_stream s :
  exists k : nat,
    (k < 8)%nat /\
    cedrus_enc_h264_coded_align (mk_device s) =
      mk_device (s ++ repeat false k) /\
    Z.of_nat (length (s ++ repeat false k)) mod 8 = 0.
Proof.
  set (n := Z.of_nat (length s)).
  pose proof (Z.mod_pos_bound n 8 ltac:(lia)) as Hm.
  unfold cedrus_enc_h264_coded_align, hw_stm_bit_len. cbn [coded_stream].
  fold n. rewrite mod8_u32, (u32_small (n mod 8)) by lia.
  destruct (Z.eqb_spec (n mod 8) 0) as [E|E].
  - exists 0%nat. cbn [repeat]. rewrite app_nil_r. repeat split; [lia|exact E].
  - exists (Z.to_nat (8 - n mod 8)). split; [lia|]. split.
    + rewrite coded_append_stream. cbn [coded_stream].
      rewrite (u32_small 0), (u32_small (8 - n mod 8)) by lia.
      now rewrite be_bits_zero.
    + rewrite length_app, repeat_length, Nat2Z.inj_add. fold n.
      rewrite Z2Nat.id by lia.
      replace (n + (8 - n mod 8)) with ((n / 8 + 1) * 8)
        by (pose proof (Z.div_mod n 8); lia).
      apply Z.mod_mul; lia.
Qed.

Lemma run_align s :
  exists k : nat,
    (k < 8)%nat /\
    coded_calls_run (mk_device s) [Coded_align] =
      Some (mk_device (s ++ repeat false k)) /\
    Z.of_nat (length (s ++ repeat false k)) mod 8 = 0.
Proof.
  destruct (coded_align_stream s) as (k & Hk & E & Hl).
  exists k. cbn [coded_calls_run coded_call_run]. now rewrite E.
Qed.

Lemma be_bits_1_1 : be_bits 1 1 = [true].
Proof. reflexivity. Qed.

Ltac solve_range := simpl; lia.
Ltac solve_arg :=
  first [ assumption
        | unfold ue_arg, se_arg, UINT_MAX, INT_MIN, INT_MAX in *; simpl; lia ].

Ltac run_calls :=
  repeat first
    [ rewrite run_u32 | rewrite run_u8 | rewrite run_bit
    | rewrite run_append
    | rewrite run_ue by solve_arg
    | rewrite run_se by solve_arg ].

Ltac parse_one :=
  first
    [ erewrite p_bind_some
        by (apply p_expect_some;
            first [ apply p_u_be_bits_small; solve_range
                  | apply p_ue_bits; solve_arg ])
    | erewrite p_bind_some by (apply p_u_be_bits_small; solve_range)
    | erewrite p_bind_some by (apply p_ue_bits; solve_arg)
    | erewrite p_bind_some by (apply p_se_bits; solve_arg) ];
  cbv beta.

Lemma nal_header_bits h :
  be_bits 8 h =
  be_bits 1 (Z.shiftr h 7) ++ be_bits 2 (Z.shiftr h 5) ++ be_bits 5 h.
Proof.
  change 8%nat with (1 + (2 + 5))%nat.
  rewrite (be_bits_app 1 (2 + 5)), (be_bits_app 2 5). reflexivity.
Qed.

Lemma p_nal_header_bits type ref_idc rest :
  p_nal_header
    (be_bits 8 (cedrus_enc_h264_nalu_header type ref_idc) ++ rest) =
  Some (mk_nal_header (ref_idc mod 4) (type mod 32), rest).
Proof.
  rewrite nalu_header_value.
  pose proof (Z.mod_pos_bound type 32 ltac:(lia)) as Ht.
  pose proof (Z.mod_pos_bound ref_idc 4 ltac:(lia)) as Hr.
  rewrite nal_header_bits, <- !app_assoc.
  unfold p_nal_header.
  rewrite !Z.shiftr_div_pow2 by lia.
  replace ((type mod 32 + 32 * (ref_idc mod 4)) / 2 ^ 7) with 0
    by (symmetry; apply Z.div_small; simpl; lia).
  replace ((type mod 32 + 32 * (ref_idc mod 4)) / 2 ^ 5) with (ref_idc mod 4)
    by (change (2 ^ 5) with 32;
        rewrite Z.add_comm, Z.mul_comm, Z.div_add_l by lia;
        rewrite (Z.div_small (type mod 32)) by lia; lia).
  parse_one. parse_one.
  erewrite p_bind_some by apply p_u_be_bits.
  cbv beta. unfold p_ret. do 3 f_equal.
  change (2 ^ Z.of_nat 5) with 32.
  rewrite (Z.mul_comm 32), Z.mod_add by lia. apply Z.mod_small; lia.
Qed.


(** *** The picture parameter set and the slice header read back *)

Lemma length_mod8_app (s nal : list bool) :
  Z.of_nat (length (s ++ nal)) mod 8 = 0 ->
  Z.of_nat (length s) mod 8 = 0 ->
  Z.of_nat (length nal) mod 8 = 0.
Proof.
  intros Hlen Hs. rewrite length_app, Nat2Z.inj_add in Hlen.
  rewrite <- Z.add_mod_idemp_l, Hs in Hlen by lia. exact Hlen.
Qed.

(** The picture parameter set NAL unit: for a job in range the writer
    succeeds, and what it appends reads back, by the standard's syntax,
    as start code, a NAL header of type 8 with nal_ref_idc 3, and the
    picture parameter set the encoder means, followed by nothing but
    the RBSP trailing bits; it is a whole number of bytes when the
    stream was byte aligned before. *)
Lemma pps_reads_back (c : cedrus_enc_h264_context)
    (job : cedrus_enc_h264_job) (s : list bool) :
  job_in_range c job ->
  exists nal trailing,
    coded_calls_run (mk_device s) (cedrus_enc_h264_job_configure_pps c job) =
      Some (mk_device (s ++ nal)) /\
    p_nal (fun _ => p_pps) nal =
      Some ((mk_nal_header 3 8, pps_syntax_of c job), trailing) /\
    rbsp_trailing_bits trailing /\
    (Z.of_nat (length s) mod 8 = 0 -> Z.of_nat (length nal) mod 8 = 0).
Proof.
  intros (_ & Hsps & Hpps & _ & Hent & _ & _ & Hchroma & _ & _ & Hqp & _).
  unfold cedrus_enc_h264_job_configure_pps.
  run_calls.
  match goal with |- context [coded_calls_run (mk_device ?s') [Coded_align]] =>
    destruct (run_align s') as (k & Hk & Hrun & Hlen) end.
  rewrite Hrun. clear Hrun.
  rewrite <- !app_assoc in *.
  eexists. exists (be_bits 1 1 ++ repeat false k).
  split; [reflexivity|]. split; [|split].
  - unfold p_nal, p_start_code.
    parse_one.
    erewrite p_bind_some by apply p_nal_header_bits.
    cbv beta.
    change (Z.to_nat (u32 2)) with 2%nat. change (u32 0) with 0.
    erewrite p_bind_some;
      [|unfold p_pps; repeat parse_one; unfold p_ret; reflexivity].
    reflexivity.
  - exists k. now rewrite be_bits_1_1.
  - intros Hs. exact (length_mod8_app _ _ Hlen Hs).
Qed.

#[local] Arguments be_bits : simpl never.
#[local] Arguments ue_bits : simpl never.
#[local] Arguments se_bits : simpl never.
#[local] Arguments p_bind : simpl never.
#[local] Arguments p_u : simpl never.
#[local] Arguments p_ue : simpl never.
#[local] Arguments p_se : simpl never.
#[local] Arguments p_expect : simpl never.
#[local] Arguments u32 : simpl never.
#[local] Arguments s32 : simpl never.
#[local] Arguments slice_qp_delta : simpl never.
#[local] Arguments pic_init_qp_minus26 : simpl never.

Lemma p_u_append_small (l v : Z) rest :
  0 <= l <= 32 -> 0 <= v < 2 ^ l ->
  p_u (Z.to_nat l) (be_bits (Z.to_nat (u32 l)) (u32 v) ++ rest) = Some (v, rest).
Proof.
  intros Hl Hv.
  assert (2 ^ l <= 2 ^ 32) by (apply Z.pow_le_mono_r; lia).
  rewrite (u32_small l), (u32_small v) by lia.
  apply p_u_be_bits_small. rewrite Z2Nat.id by lia. exact Hv.
Qed.

Lemma p_bind_assoc {A B C} (p : parser A) (f : A -> parser B)
    (g : B -> parser C) bs :
  p_bind (p_bind p f) g bs = p_bind p (fun x => p_bind (f x) g) bs.
Proof. unfold p_bind. destruct (p bs) as [[a bs']|]; reflexivity. Qed.

Lemma p_bind_ret {A B} (a : A) (f : A -> parser B) bs :
  p_bind (p_ret a) f bs = f a bs.
Proof. reflexivity. Qed.

Ltac parse_step :=
  first
    [ parse_one
    | erewrite p_bind_some by (apply p_u_append_small; lia); cbv beta
    | erewrite p_bind_some by apply p_u_be_bits; cbv beta
    | rewrite p_bind_assoc
    | rewrite p_bind_ret; cbv beta
    | progress
        (change (2 mod 5) with 2; change (0 mod 5) with 0;
         change (5 mod 32) with 5; change (1 mod 32) with 1;
         cbn [negb orb andb Z.eqb Pos.eqb]) ].

(** The slice header NAL unit: for a job in range the writer succeeds,
    and what it appends reads back, under a sequence parameter set that
    announces the context's counter widths and a picture parameter set
    with the job's entropy coding mode, as start code, the NAL header
    and the slice header the encoder means. *)
Lemma slice_header_reads_back (c : cedrus_enc_h264_context)
    (job : cedrus_enc_h264_job) (sps : sps_syntax) (pps : pps_syntax)
    (s rest : list bool) :
  job_in_range c job ->
  sps_describes c sps ->
  pps_bottom_field_pic_order_in_frame_present_flag pps = 0 ->
  pps_redundant_pic_cnt_present_flag pps = 0 ->
  pps_weighted_pred_flag pps = 0 ->
  pps_entropy_coding_mode_flag pps = entropy_coding_mode_flag job ->
  pps_deblocking_filter_control_present_flag pps = 1 ->
  exists header,
    coded_calls_run (mk_device s)
      (cedrus_enc_h264_job_configure_slice_header c job) =
      Some (mk_device (s ++ header)) /\
    p_nal (fun nh => p_slice_header nh sps pps) (header ++ rest) =
      Some ((mk_nal_header (nal_ref_idc job)
               (if is_idr (frame_type job) then 5 else 1),
             slice_header_syntax_of c job), rest).
Proof.
  intros (Href & Hsps & Hpps & Hidr & Hent & Hcabac & Hdeblk & Hchroma &
          Halpha & Hbeta & Hqp & Hdelta & Hpoct & Hl1 & Hl2 & Hfn & Hpoc)
         (Hs1 & Hs2 & Hs3 & Hs4) Hp1 Hp2 Hp3 Hp4 Hp5.
  unfold cedrus_enc_h264_job_configure_slice_header,
    CEDRUS_ENC_H264_SLICE_TYPE_I, CEDRUS_ENC_H264_SLICE_TYPE_P,
    CENDRUS_ENC_H264_NALU_TYPE_SLICE_IDR,
    CENDRUS_ENC_H264_NALU_TYPE_SLICE_NON_IDR.
  rewrite Hpoct. cbn [Z.eqb].
  assert (Hfl : Z.to_nat (log2_max_frame_num c - 4 + 4) =
                Z.to_nat (log2_max_frame_num c)) by (f_equal; lia).
  assert (Hpl : Z.to_nat (log2_max_pic_order_cnt_lsb c - 4 + 4) =
                Z.to_nat (log2_max_pic_order_cnt_lsb c)) by (f_equal; lia).
  assert (Hrm : nal_ref_idc job mod 4 = nal_ref_idc job)
    by (apply Z.mod_small; lia).
  destruct (frame_type job) eqn:Hft;
    destruct (entropy_coding_mode_flag job =? 0) eqn:He;
    destruct (disable_deblocking_filter_idc job =? 1) eqn:Hd;
    cbn [is_idr negb andb app Z.eqb Pos.eqb];
    run_calls;
    (eexists; split;
     [ cbn [coded_calls_run]; rewrite <- !app_assoc; reflexivity |]);
    rewrite <- !app_assoc;
    unfold p_nal, p_start_code;
    parse_one;
    (erewrite p_bind_some by apply p_nal_header_bits);
    cbv beta; rewrite Hrm.
  all: erewrite p_bind_some; [reflexivity|].
  all: unfold p_slice_header, slice_header_syntax_of.
  all: rewrite ?Hft, ?He, ?Hd.
  all: rewrite Hs1, Hs2, Hs3, Hs4, Hp1, Hp2, Hp3, Hp4, Hp5.
  all: cbn [nh_nal_unit_type nh_nal_ref_idc is_idr].
  all: rewrite ?Hfl, ?Hpl, ?He.
  all: assert (Hr0 : (nal_ref_idc job =? 0) = false) by lia.
  all: repeat first [rewrite Hr0 | rewrite Hd | rewrite He | parse_step].
  all: reflexivity.
Qed.

(** *** What a session keeps in range *)

Lemma configure_headers_result c :
  cedrus_enc_h264_job_configure_headers c =
    (set_step c CEDRUS_ENC_H264_STEP_SLICE,
     match step (state c) with
     | CEDRUS_ENC_H264_STEP_START
     | CEDRUS_ENC_H264_STEP_SPS => [NAL_SPS; NAL_PPS; NAL_SLICE]
     | CEDRUS_ENC_H264_STEP_PPS => [NAL_PPS; NAL_SLICE]
     | CEDRUS_ENC_H264_STEP_SLICE => [NAL_SLICE]
     end).
Proof.
  unfold cedrus_enc_h264_job_configure_headers.
  destruct (step (state c)); reflexivity.
Qed.

Lemma ctrl_prepare_in_range c ctrl :
  ctrl_in_range ctrl = true ->
  enc_context_in_range c ->
  enc_context_in_range (cedrus_enc_h264_ctrl_prepare c ctrl).
Proof.
  intros Hr Hc.
  destruct c as [[stp gi fn poc qi] pot l2p l2f prof lev ent lfm cache fk].
  unfold enc_context_in_range, qp_controls_in_range, counters_ok, qp_min,
    qp_max, qp_i, qp_p, chroma_qp_index_offset, loop_filter_alpha,
    loop_filter_beta in *.
  destruct ctrl as [id v|p e|l|m|m| |];
    cbn [cedrus_enc_h264_ctrl_prepare ctrl_in_range] in Hr |- *.
  - apply andb_prop in Hr as [H1 H2]. apply Z.leb_le in H1, H2.
    destruct id; cbn in H1, H2, Hc |- *; intuition lia.
  - unfold ctrl_prepare_entropy_mode, step_cap.
    destruct (cedrus_enc_h264_profile_cabac_check _); [|destruct e]; cbn;
      repeat (match goal with
              | |- context [if ?b then _ else _] => destruct b
              end; cbn);
      exact Hc.
  - unfold step_cap. cbn. destruct (_ <? _); cbn; exact Hc.
  - unfold ctrl_prepare_entropy_mode, step_cap. cbn.
    destruct (_ <? _); cbn; exact Hc.
  - exact Hc.
  - exact Hc.
  - exact Hc.
Qed.

(** Only a context whose headers were past the PPS step before a
    control change is past it afterwards, and then with the initial QP
    and the entropy mode it had. *)
Lemma ctrl_prepare_step_slice c ctrl :
  step (state (cedrus_enc_h264_ctrl_prepare c ctrl)) =
    CEDRUS_ENC_H264_STEP_SLICE ->
  step (state c) = CEDRUS_ENC_H264_STEP_SLICE /\
  qp_init (state (cedrus_enc_h264_ctrl_prepare c ctrl)) = qp_init (state c) /\
  entropy_flag (cedrus_enc_h264_ctrl_prepare c ctrl) = entropy_flag c.
Proof.
  destruct c as [[stp gi fn poc qi] pot l2p l2f prof lev ent lfm cache fk].
  destruct ctrl as [id v|p e|l|m|m| |];
    cbn [cedrus_enc_h264_ctrl_prepare];
    unfold ctrl_prepare_entropy_mode, step_cap, entropy_flag;
    try (destruct (cedrus_enc_h264_profile_cabac_check _); [|destruct e]);
    destruct stp; cbn; intros H; try discriminate H; now repeat split.
Qed.

Lemma job_prepare_step_slice c :
  step (state (fst (cedrus_enc_h264_job_prepare c))) =
    CEDRUS_ENC_H264_STEP_SLICE ->
  step (state c) = CEDRUS_ENC_H264_STEP_SLICE /\
  qp_init (state (fst (cedrus_enc_h264_job_prepare c))) = qp_init (state c).
Proof.
  unfold cedrus_enc_h264_job_prepare. cbn.
  destruct (is_idr _ && negb _); [discriminate|].
  intros H. rewrite H. now split.
Qed.

Lemma job_prepare_entropy_flag c :
  entropy_coding_mode_flag (snd (cedrus_enc_h264_job_prepare c)) =
    entropy_flag c /\
  entropy_flag (fst (cedrus_enc_h264_job_prepare c)) = entropy_flag c.
Proof.
  unfold cedrus_enc_h264_job_prepare, entropy_flag. cbn.
  destruct (entropy_mode c); now split.
Qed.

Lemma job_prepare_qp_range c :
  qp_controls_in_range c ->
  0 <= qp (snd (cedrus_enc_h264_job_prepare c)) <= 51.
Proof.
  intros (Hmin & Hmax & Hi & Hp).
  rewrite job_prepare_qp_eq.
  pose proof (job_prepare_frame_type_not_b c) as Hb.
  unfold job_prepare_qp.
  destruct (frame_type _); try contradiction;
    rewrite !u32_small by lia;
    destruct (_ <? _); try lia; destruct (_ <? _); lia.
Qed.

(** [cedrus_enc_h264_job_prepare] keeps the context in range and fills
    in a job that can be written. *)
Lemma job_prepare_in_range c :
  enc_context_in_range c ->
  enc_context_in_range (fst (cedrus_enc_h264_job_prepare c)) /\
  job_in_range (fst (cedrus_enc_h264_job_prepare c))
    (snd (cedrus_enc_h264_job_prepare c)).
Proof.
  intros (Hqp & Hchroma & Halpha & Hbeta & Hinit & Hpot & Hcnt & Hl1 & Hl2).
  pose proof (job_prepare_qp_range c Hqp) as Hq.
  destruct (job_prepare_counters c _ _ _ _ eq_refl Hcnt) as (Hfn & Hpoc & Hcnt').
  cbv zeta in Hfn, Hpoc.
  destruct (job_prepare_counters_ok c _ _ _ _ eq_refl Hcnt)
    as (fn' & poc' & Hc' & Hok' & _).
  assert (Hinit' :
    0 <= qp_init (state (fst (cedrus_enc_h264_job_prepare c))) <= 51).
  { destruct (job_prepare_qp_init c) as [E|E]; rewrite E; assumption. }
  assert (Hfnr : 0 <= frame_num (snd (cedrus_enc_h264_job_prepare c)) < 2 ^ 8).
  { rewrite Hfn. destruct Hcnt as (_ & _ & Hx & _). rewrite Hl1 in Hx.
    destruct (is_idr _); lia. }
  assert (Hpocr :
    0 <= pic_order_cnt_lsb (snd (cedrus_enc_h264_job_prepare c)) < 2 ^ 8).
  { rewrite Hpoc. destruct Hcnt as (_ & _ & _ & Hx). rewrite Hl2 in Hx.
    destruct (is_idr _); lia. }
  split.
  - pose proof (f_equal (fun t => snd (fst t)) Hc') as E3.
    pose proof (f_equal snd Hc') as E4.
    unfold counters in E3, E4. cbn [fst snd] in E3, E4.
    unfold enc_context_in_range.
    change (log2_max_frame_num (fst (cedrus_enc_h264_job_prepare c)))
      with (log2_max_frame_num c).
    change (log2_max_pic_order_cnt_lsb (fst (cedrus_enc_h264_job_prepare c)))
      with (log2_max_pic_order_cnt_lsb c).
    rewrite E3, E4.
    repeat split; try assumption; try exact Hinit'; try apply Hqp;
      try apply Hchroma; try apply Halpha; try apply Hbeta; try apply Hok';
      try apply Hinit'.
  - unfold job_in_range.
    change (log2_max_frame_num (fst (cedrus_enc_h264_job_prepare c)))
      with (log2_max_frame_num c).
    change (log2_max_pic_order_cnt_lsb (fst (cedrus_enc_h264_job_prepare c)))
      with (log2_max_pic_order_cnt_lsb c).
    change (pic_order_cnt_type (fst (cedrus_enc_h264_job_prepare c)))
      with (pic_order_cnt_type c).
    rewrite Hl1, Hl2.
    unfold pic_init_qp_minus26, slice_qp_delta.
    rewrite !s32_u32_small by (unfold INT_MIN, INT_MAX; lia).
    unfold ue_arg, se_arg, UINT_MAX, INT_MIN, INT_MAX.
    repeat split; try lia; try exact Hpot;
      unfold cedrus_enc_h264_job_prepare; cbn;
      try (destruct (entropy_mode c); lia);
      try (destruct (entropy_mode c);
           repeat (match goal with
                   | |- context [if ?b then _ else _] => destruct b
                   | |- context [match ?t with _ => _ end] => destruct t
                   end); lia);
      try (destruct (loop_filter_mode c); cbn; lia);
      try (rewrite u32_small, s32_small by (unfold INT_MIN, INT_MAX; lia);
           lia).
Qed.

Lemma set_step_in_range c s :
  enc_context_in_range c -> enc_context_in_range (set_step c s).
Proof.
  destruct c as [[stp gi fn poc qi] pot l2p l2f prof lev ent lfm cache fk].
  exact (fun H => H).
Qed.

Lemma after_job_configured c :
  after_job c true =
  set_step (fst (cedrus_enc_h264_job_prepare c)) CEDRUS_ENC_H264_STEP_SLICE.
Proof. unfold after_job. now rewrite configure_headers_result. Qed.

Lemma after_job_in_range c configured :
  enc_context_in_range c -> enc_context_in_range (after_job c configured).
Proof.
  intros H. destruct (job_prepare_in_range c H) as [H1 _].
  destruct configured; [|exact H1].
  rewrite after_job_configured. now apply set_step_in_range.
Qed.

Lemma ctrl_prepare_step_start c ctrl :
  step (state c) = CEDRUS_ENC_H264_STEP_START ->
  step (state (cedrus_enc_h264_ctrl_prepare c ctrl)) =
    CEDRUS_ENC_H264_STEP_START.
Proof.
  destruct c as [[stp gi fn poc qi] pot l2p l2f prof lev ent lfm cache fk].
  cbn. intros ->.
  destruct ctrl as [id v|p e|l|m|m| |];
    cbn [cedrus_enc_h264_ctrl_prepare];
    unfold ctrl_prepare_entropy_mode, step_cap;
    try (destruct (cedrus_enc_h264_profile_cabac_check _); [|destruct e]);
    reflexivity.
Qed.

Lemma fold_ctrl_prepare_in_range cs : forall c,
  forallb ctrl_in_range cs = true ->
  enc_context_in_range c ->
  step (state c) = CEDRUS_ENC_H264_STEP_START ->
  enc_context_in_range (fold_left cedrus_enc_h264_ctrl_prepare cs c) /\
  step (state (fold_left cedrus_enc_h264_ctrl_prepare cs c)) =
    CEDRUS_ENC_H264_STEP_START.
Proof.
  induction cs as [|ctrl cs IH]; intros c Hr Hc Hs; [now split|].
  cbn [forallb] in Hr. apply andb_prop in Hr as [Hr Hrs].
  cbn [fold_left]. apply IH; [exact Hrs| |].
  - now apply ctrl_prepare_in_range.
  - now apply ctrl_prepare_step_start.
Qed.

Lemma forallb_filter {A} (f g : A -> bool) l :
  forallb f l = true -> forallb f (List.filter g l) = true.
Proof.
  induction l as [|a l IH]; [reflexivity|].
  cbn [forallb List.filter]. intros H. apply andb_prop in H as [Ha Hl].
  destruct (g a); cbn [forallb]; [rewrite Ha|]; now apply IH.
Qed.

(** [cedrus_enc_h264_setup] leaves a context in range whose headers are
    all still to be written. *)
Lemma setup_in_range initial :
  forallb ctrl_in_range initial = true ->
  enc_context_in_range (cedrus_enc_h264_setup initial) /\
  step (state (cedrus_enc_h264_setup initial)) = CEDRUS_ENC_H264_STEP_START.
Proof.
  intros H. unfold cedrus_enc_h264_setup.
  apply fold_ctrl_prepare_in_range.
  - now apply forallb_filter.
  - unfold enc_context_in_range, qp_controls_in_range, counters_ok. cbn. lia.
  - reflexivity.
Qed.

Lemma enc_units_ctrl c ctrl es :
  enc_units c (Ev_ctrl ctrl :: es) =
  enc_units (cedrus_enc_h264_ctrl_prepare c ctrl) es.
Proof. reflexivity. Qed.

Lemma enc_units_job c configured es :
  enc_units c (Ev_job configured :: es) =
  mk_enc_unit c (snd (cedrus_enc_h264_job_prepare c))
    (fst (cedrus_enc_h264_job_prepare c))
    (if configured
     then snd (cedrus_enc_h264_job_configure_headers
                 (fst (cedrus_enc_h264_job_prepare c)))
     else []) ::
  enc_units (after_job c configured) es.
Proof.
  cbn [enc_units]. now destruct (cedrus_enc_h264_job_prepare c).
Qed.

Lemma ctrl_prepare_pps_link c prev ctrl :
  pps_link c prev -> pps_link (cedrus_enc_h264_ctrl_prepare c ctrl) prev.
Proof.
  intros Hl Hs.
  destruct (ctrl_prepare_step_slice c ctrl Hs) as (Hs' & Hq & He).
  destruct (Hl Hs') as (v & Hv & Hvq & Hve & Hvr).
  exists v. rewrite Hq, He.
  split; [exact Hv|]. split; [exact Hvq|]. split; [exact Hve|exact Hvr].
Qed.

(** One job: the link to the picture parameter set in force is kept,
    and a job that writes a slice header has one in force, written with
    the initial QP and the entropy mode the slice header is written
    with. *)
Lemma job_pps_link c prev (configured : bool) :
  enc_context_in_range c ->
  pps_link c prev ->
  let u :=
    mk_enc_unit c (snd (cedrus_enc_h264_job_prepare c))
      (fst (cedrus_enc_h264_job_prepare c))
      (if configured
       then snd (cedrus_enc_h264_job_configure_headers
                   (fst (cedrus_enc_h264_job_prepare c)))
       else []) in
  let prev' := if nal_written NAL_PPS u then Some u else prev in
  pps_link (after_job c configured) prev' /\
  (nal_written NAL_SLICE u = true ->
   exists v,
     prev' = Some v /\
     qp_init (state (unit_state v)) = qp_init (state (unit_state u)) /\
     entropy_coding_mode_flag (unit_job v) =
       entropy_coding_mode_flag (unit_job u) /\
     job_in_range (unit_state v) (unit_job v)).
Proof.
  intros Hc Hl.
  destruct (job_prepare_in_range c Hc) as [_ Hjr].
  destruct (job_prepare_entropy_flag c) as [Hej Hec].
  pose proof (job_prepare_step_slice c) as Hslice.
  destruct configured; cbv zeta.
  - rewrite configure_headers_result, after_job_configured. cbn [snd].
    unfold nal_written. cbn [unit_nals unit_state unit_job].
    destruct (step (state (fst (cedrus_enc_h264_job_prepare c)))) eqn:Hs;
      cbn [existsb nal_unit_eqb orb].
    1-3: split;
      [ intros _; eexists; split; [reflexivity|];
        cbn [unit_state unit_job];
        split; [now destruct (fst (cedrus_enc_h264_job_prepare c)) as [[]]|];
        split; [|exact Hjr];
        rewrite Hej, <- Hec;
        now destruct (fst (cedrus_enc_h264_job_prepare c)) as [[]]
      | intros _; eexists; split; [reflexivity|];
        split; [reflexivity|]; split; [reflexivity|exact Hjr] ].
    destruct (Hslice eq_refl) as [Hs' Hq].
    destruct (Hl Hs') as (v & Hv & Hvq & Hve & Hvr).
    split.
    + intros _. exists v. split; [exact Hv|]. split; [|split; [|exact Hvr]].
      * rewrite Hvq, <- Hq.
        now destruct (fst (cedrus_enc_h264_job_prepare c)) as [[]].
      * rewrite Hve, <- Hec.
        now destruct (fst (cedrus_enc_h264_job_prepare c)) as [[]].
    + intros _. exists v. split; [exact Hv|].
      split; [congruence|]. split; [congruence|exact Hvr].
  - unfold nal_written, after_job. cbn [unit_nals existsb].
    split; [|discriminate].
    intros Hs. destruct (Hslice Hs) as [Hs' Hq].
    destruct (Hl Hs') as (v & Hv & Hvq & Hve & Hvr).
    exists v. split; [exact Hv|]. split; [congruence|].
    split; [congruence|exact Hvr].
Qed.

Lemma active_pps_from_cons prev u us :
  active_pps_from prev (u :: us) =
  active_pps_from (if nal_written NAL_PPS u then Some u else prev) us.
Proof. reflexivity. Qed.

(** Every job of a session in range, with the picture parameter set in
    force when its slice header is written. *)
Lemma enc_units_link es : forall c prev,
  enc_context_in_range c ->
  pps_link c prev ->
  forallb event_in_range es = true ->
  forall (n : nat) u,
    enc_units c es !! n = Some u ->
    enc_context_in_range (unit_context u) /\
    unit_job u = snd (cedrus_enc_h264_job_prepare (unit_context u)) /\
    unit_state u = fst (cedrus_enc_h264_job_prepare (unit_context u)) /\
    (nal_written NAL_SLICE u = true ->
     exists v,
       active_pps_from prev (take (S n) (enc_units c es)) = Some v /\
       qp_init (state (unit_state v)) = qp_init (state (unit_state u)) /\
       entropy_coding_mode_flag (unit_job v) =
         entropy_coding_mode_flag (unit_job u) /\
       job_in_range (unit_state v) (unit_job v)).
Proof.
  induction es as [|e es IH]; intros c prev Hc Hl Hr n u Hu.
  - discriminate.
  - cbn [forallb] in Hr. apply andb_prop in Hr as [He Hes].
    destruct e as [ctrl|configured].
    + rewrite enc_units_ctrl in *.
      apply IH; try assumption.
      * now apply ctrl_prepare_in_range.
      * now apply ctrl_prepare_pps_link.
    + rewrite enc_units_job in *.
      destruct (job_pps_link c prev configured Hc Hl) as [Hl' Hv].
      cbv zeta in Hl', Hv.
      destruct n as [|n]; cbn [lookup list_lookup] in Hu.
      * injection Hu as <-. cbn [unit_context unit_job unit_state].
        split; [exact Hc|]. split; [reflexivity|]. split; [reflexivity|].
        intros Hw. cbn [take]. rewrite active_pps_from_cons.
        exact (Hv Hw).
      * destruct (IH _ _ (after_job_in_range c configured Hc) Hl' Hes n u Hu)
          as (H1 & H2 & H3 & H4).
        split; [exact H1|]. split; [exact H2|]. split; [exact H3|].
        intros Hw. cbn [take]. rewrite active_pps_from_cons.
        exact (H4 Hw).
Qed.

(** The QP block of [cedrus_enc_h264_job_prepare] on controls in
    range. *)
Lemma job_prepare_qp_saturates c :
  qp_controls_in_range c ->
  let job := snd (cedrus_enc_h264_job_prepare c) in
  let requested := frame_qp c (frame_type job) in
  frame_type job <> CEDRUS_ENC_H264_FRAME_TYPE_B /\
  qp job = (if qp_max c <? requested then qp_max c
            else if requested <? qp_min c then qp_min c
            else requested) /\
  (qp_min c <= qp_max c ->
   qp job = Z.max (qp_min c) (Z.min requested (qp_max c)) /\
   qp_min c <= qp job <= qp_max c).
Proof.
  intros (Hmin & Hmax & Hi & Hp) job requested.
  pose proof (job_prepare_frame_type_not_b c) as Hb. fold job in Hb.
  assert (Hq : qp job = (if qp_max c <? requested then qp_max c
                         else if requested <? qp_min c then qp_min c
                         else requested)).
  { unfold job at 1. rewrite job_prepare_qp_eq. fold job.
    unfold requested, job_prepare_qp, frame_qp.
    destruct (frame_type job); try contradiction;
      rewrite !u32_small by lia; reflexivity. }
  assert (Hreq : 0 <= requested <= 51).
  { unfold requested, frame_qp. destruct (frame_type job); lia. }
  split; [exact Hb|]. split; [exact Hq|].
  intros Hle. rewrite Hq.
  destruct (Z.ltb_spec (qp_max c) requested);
    [|destruct (Z.ltb_spec requested (qp_min c))]; lia.
Qed.




(* ================================================================== *)
(** ** The encoder's headers in a session *)

(** X4.  The NAL unit header byte keeps the forbidden bit clear and
    carries nal_ref_idc in bits 5 and 6 and nal_unit_type in the low
    five bits, each argument reduced to its field's width; reading the
    byte by the nal_unit() syntax returns the two fields. *)
Theorem nalu_header_reads_back (type ref_idc : Z) (rest : list bool) :
  let header := cedrus_enc_h264_nalu_header type ref_idc in
  header = type mod 32 + 32 * (ref_idc mod 4) /\
  0 <= header < 128 /\
  p_nal_header (be_bits 8 header ++ rest) =
    Some (mk_nal_header (ref_idc mod 4) (type mod 32), rest).
Proof.
  intros header. subst header.
  split; [apply nalu_header_value|]. split.
  - rewrite nalu_header_value.
    pose proof (Z.mod_pos_bound type 32 ltac:(lia)).
    pose proof (Z.mod_pos_bound ref_idc 4 ltac:(lia)). lia.
  - apply p_nal_header_bits.
Qed.

(** X5.  The signed Exp-Golomb emitter has a result for every [int]:
    the code number it computes is never 2^32 - 1, the one value on
    which the unsigned emitter reaches the undefined [__fls(0)].  What
    it appends is the code word of that code number, an odd number of
    bits, 63 at most. *)
Theorem coded_se_always_defined (dev : cedrus_device) (value : Z) :
  INT_MIN <= value <= INT_MAX ->
  let code_num := coded_se_value_ue value in
  0 <= code_num < UINT_MAX /\
  cedrus_enc_h264_coded_se dev value =
    Some (mk_device (coded_stream dev ++ ue_bits code_num)) /\
  decode_ue (ue_bits code_num) = Some (code_num, []) /\
  Z.of_nat (length (ue_bits code_num)) = 2 * Z.log2 (code_num + 1) + 1 /\
  Z.of_nat (length (ue_bits code_num)) <= 63.
Proof.
  unfold INT_MIN, INT_MAX, UINT_MAX. intros Hv. cbv zeta.
  assert (Hc : 0 <= coded_se_value_ue value < 2 ^ 32 - 1).
  { unfold coded_se_value_ue.
    destruct (Z.ltb_spec 0 value).
    - rewrite u32_s32, u32_small by lia. lia.
    - rewrite u32_s32.
      destruct (Z.eq_dec value (- 2 ^ 31)) as [->|Hne].
      + change (u32 (-2 * - 2 ^ 31)) with 0. lia.
      + rewrite u32_small by lia. lia. }
  assert (Hlog : 0 <= Z.log2 (coded_se_value_ue value + 1) < 32).
  { split; [apply Z.log2_nonneg|].
    apply Z.log2_lt_pow2; lia. }
  split; [exact Hc|]. split; [|split; [|split]].
  - unfold cedrus_enc_h264_coded_se.
    rewrite coded_ue_in_range by (unfold ue_arg, UINT_MAX; lia).
    now destruct dev.
  - pose proof (p_ue_bits (coded_se_value_ue value) []) as H.
    rewrite app_nil_r in H. apply H. unfold ue_arg, UINT_MAX. lia.
  - unfold ue_bits. rewrite be_bits_length, Z2Nat.id by lia. reflexivity.
  - unfold ue_bits. rewrite be_bits_length, Z2Nat.id by lia. lia.
Qed.

Lemma coded_se_always_defined_witness :
  INT_MIN <= INT_MIN <= INT_MAX /\
  cedrus_enc_h264_coded_se (mk_device []) INT_MIN = Some (mk_device [true]).
Proof.
  split; [unfold INT_MIN, INT_MAX; lia|].
  destruct (coded_se_always_defined (mk_device []) INT_MIN) as (_ & E & _);
    [unfold INT_MIN, INT_MAX; lia|].
  rewrite E. reflexivity.
Defined.

Lemma enc_units_nals es : forall c (n : nat) u,
  enc_units c es !! n = Some u ->
  unit_nals u = [] \/
  unit_nals u = snd (cedrus_enc_h264_job_configure_headers (unit_state u)).
Proof.
  induction es as [|e es IH]; intros c n u Hu; [discriminate|].
  destruct e as [ctrl|configured].
  - rewrite enc_units_ctrl in Hu. exact (IH _ n u Hu).
  - rewrite enc_units_job in Hu.
    destruct n as [|n]; cbn [lookup list_lookup] in Hu;
      [|exact (IH _ n u Hu)].
    injection Hu as <-. cbn [unit_nals unit_state].
    destruct configured; [right|left]; reflexivity.
Qed.

Lemma nal_written_pps_step u :
  unit_nals u = [] \/
  unit_nals u = snd (cedrus_enc_h264_job_configure_headers (unit_state u)) ->
  nal_written NAL_PPS u = true ->
  step (state (unit_state u)) <> CEDRUS_ENC_H264_STEP_SLICE.
Proof.
  unfold nal_written. intros [E|E]; rewrite E; [discriminate|].
  rewrite configure_headers_result. cbn [snd].
  destruct (step (state (unit_state u))); cbn; congruence.
Qed.

Lemma job_prepare_qp_init_fresh c :
  step (state (fst (cedrus_enc_h264_job_prepare c))) <>
    CEDRUS_ENC_H264_STEP_SLICE ->
  qp_init (state (fst (cedrus_enc_h264_job_prepare c))) =
    qp (snd (cedrus_enc_h264_job_prepare c)).
Proof.
  unfold cedrus_enc_h264_job_prepare. cbn.
  destruct (is_idr _ && negb _); [reflexivity|].
  destruct (step (state c)); cbn; congruence.
Qed.



Lemma ctrl_prepare_step_le c ctrl :
  step_value (step (state (cedrus_enc_h264_ctrl_prepare c ctrl))) <=
  step_value (step (state c)).
Proof.
  destruct c as [[stp gi fn poc qi] pot l2p l2f prof lev ent lfm cache fk].
  destruct ctrl as [id v|p e|l|m|m| |];
    cbn [cedrus_enc_h264_ctrl_prepare];
    unfold ctrl_prepare_entropy_mode, step_cap;
    try (destruct (cedrus_enc_h264_profile_cabac_check _); [|destruct e]);
    destruct stp; cbn; lia.
Qed.

Lemma job_prepare_step c :
  step (state (fst (cedrus_enc_h264_job_prepare c))) =
    if is_idr (frame_type (snd (cedrus_enc_h264_job_prepare c))) &&
       negb (prepend_sps_pps_idr c =? 0)
    then CEDRUS_ENC_H264_STEP_SPS else step (state c).
Proof. reflexivity. Qed.

Lemma setup_step_start initial :
  step (state (cedrus_enc_h264_setup initial)) = CEDRUS_ENC_H264_STEP_START.
Proof.
  unfold cedrus_enc_h264_setup.
  generalize (List.filter (fun ctrl => negb (v4l2_ctrl_is_button ctrl)) initial).
  intros cs.
  assert (H : forall c, step (state c) = CEDRUS_ENC_H264_STEP_START ->
                        step (state (fold_left cedrus_enc_h264_ctrl_prepare cs c)) =
                          CEDRUS_ENC_H264_STEP_START).
  { induction cs as [|ctrl cs IH]; intros c Hc; [exact Hc|].
    cbn [fold_left]. apply IH. now apply ctrl_prepare_step_start. }
  now apply H.
Qed.

Lemma configured_unit_nals u :
  unit_nals u = [] \/
  unit_nals u = snd (cedrus_enc_h264_job_configure_headers (unit_state u)) ->
  nal_written NAL_SLICE u = true ->
  unit_nals u =
    match step (state (unit_state u)) with
    | CEDRUS_ENC_H264_STEP_START
    | CEDRUS_ENC_H264_STEP_SPS => [NAL_SPS; NAL_PPS; NAL_SLICE]
    | CEDRUS_ENC_H264_STEP_PPS => [NAL_PPS; NAL_SLICE]
    | CEDRUS_ENC_H264_STEP_SLICE => [NAL_SLICE]
    end.
Proof.
  unfold nal_written. intros [E|E]; rewrite E; [discriminate|].
  now rewrite configure_headers_result.
Qed.

Lemma first_configured_unit es : forall c (n : nat) u,
  step_value (step (state c)) <= 1 ->
  enc_units c es !! n = Some u ->
  nal_written NAL_SLICE u = true ->
  (forall (m : nat) v, (m < n)%nat -> enc_units c es !! m = Some v ->
                       nal_written NAL_SLICE v = false) ->
  step_value (step (state (unit_state u))) <= 1.
Proof.
  induction es as [|e es IH]; intros c n u Hs Hu Hw Hfirst; [discriminate|].
  destruct e as [ctrl|configured].
  - rewrite enc_units_ctrl in *.
    apply (IH (cedrus_enc_h264_ctrl_prepare c ctrl) n); try assumption.
    pose proof (ctrl_prepare_step_le c ctrl). lia.
  - rewrite enc_units_job in *.
    assert (Hs1 : step_value
                    (step (state (fst (cedrus_enc_h264_job_prepare c)))) <= 1).
    { rewrite job_prepare_step. destruct (_ && _); [cbn; lia|exact Hs]. }
    destruct n as [|n]; cbn [lookup list_lookup] in Hu.
    + injection Hu as <-. exact Hs1.
    + specialize (Hfirst 0%nat _ ltac:(lia) eq_refl) as H0.
      destruct configured.
      * unfold nal_written in H0. cbn [unit_nals] in H0.
        rewrite configure_headers_result in H0. cbn [snd] in H0.
        destruct (step _) in H0; discriminate H0.
      * apply (IH (after_job c false) n); try assumption.
        intros m v Hm Hv. apply (Hfirst (S m)); [lia|exact Hv].
Qed.

(** X7.  What the header pass of a Job writes.  It is nothing (the Job
    was not configured) or the slice header preceded by the parameter
    sets still due: SPS, PPS and slice; PPS and slice; or the slice
    alone.  The first Job of a session to be configured writes all
    three, and so does every configured IDR Job while the
    prepend-SPS/PPS-to-IDR control is set. *)
Theorem header_pass_nal_units (initial : list v4l2_ctrl)
    (es : list enc_event) (n : nat) (u : enc_unit) :
  let units := enc_units (cedrus_enc_h264_setup initial) es in
  units !! n = Some u ->
  (unit_nals u = [] \/ unit_nals u = [NAL_SLICE] \/
   unit_nals u = [NAL_PPS; NAL_SLICE] \/
   unit_nals u = [NAL_SPS; NAL_PPS; NAL_SLICE]) /\
  (nal_written NAL_SLICE u = true ->
   (forall (m : nat) v, (m < n)%nat -> units !! m = Some v ->
                        nal_written NAL_SLICE v = false) ->
   unit_nals u = [NAL_SPS; NAL_PPS; NAL_SLICE]) /\
  (nal_written NAL_SLICE u = true ->
   frame_type (unit_job u) = CEDRUS_ENC_H264_FRAME_TYPE_IDR ->
   prepend_sps_pps_idr (unit_context u) <> 0 ->
   unit_nals u = [NAL_SPS; NAL_PPS; NAL_SLICE]).
Proof.
  intros units Hu.
  pose proof (enc_units_nals es _ n u Hu) as Hn.
  split; [|split].
  - destruct Hn as [E|E]; rewrite E; [now left|].
    rewrite configure_headers_result. cbn [snd].
    destruct (step _); auto.
  - intros Hw Hfirst.
    rewrite (configured_unit_nals u Hn Hw).
    assert (Hs : step_value (step (state (unit_state u))) <= 1).
    { apply (first_configured_unit es (cedrus_enc_h264_setup initial) n u);
        try assumption.
      rewrite setup_step_start. cbn. lia. }
    destruct (step _); cbn in Hs; try lia; reflexivity.
  - intros Hw Hidr Hprepend.
    rewrite (configured_unit_nals u Hn Hw).
    assert (E : unit_job u = snd (cedrus_enc_h264_job_prepare (unit_context u)) /\
                unit_state u = fst (cedrus_enc_h264_job_prepare (unit_context u))).
    { clear - Hu. subst units. revert Hu.
      generalize (cedrus_enc_h264_setup initial) as c. revert n.
      induction es as [|e es IH]; intros n c Hu; [discriminate|].
      destruct e as [ctrl|configured].
      - rewrite enc_units_ctrl in Hu. exact (IH n _ Hu).
      - rewrite enc_units_job in Hu.
        destruct n as [|n]; cbn [lookup list_lookup] in Hu;
          [|exact (IH n _ Hu)].
        injection Hu as <-. now split. }
    destruct E as [Ej Es]. rewrite Es, job_prepare_step, <- Ej, Hidr.
    cbn [is_idr andb].
    rewrite (proj2 (Z.eqb_neq _ _) Hprepend). reflexivity.
Qed.
Lemma header_pass_nal_units_witness :
  let units :=
    enc_units (cedrus_enc_h264_setup [])
      [Ev_job false; Ev_job true; Ev_job true] in
  exists u u',
    units !! 1%nat = Some u /\ units !! 2%nat = Some u' /\
    unit_nals u = [NAL_SPS; NAL_PPS; NAL_SLICE] /\
    unit_nals u' = [NAL_SLICE].
Proof.
  cbv zeta. eexists _, _.
  split; [vm_compute; reflexivity|]. split; [vm_compute; reflexivity|].
  split; [|reflexivity].
  match goal with
  | |- unit_nals ?a = _ =>
      destruct (header_pass_nal_units []
                  [Ev_job false; Ev_job true; Ev_job true] 1 a)
        as (_ & Hfirst & _); [vm_compute; reflexivity|]
  end.
  apply Hfirst; [reflexivity|].
  intros m v Hm Hv. destruct m as [|m]; [|lia].
  vm_compute in Hv. injection Hv as <-. reflexivity.
Defined.

Lemma active_pps_from_spec us : forall prev v,
  active_pps_from prev us = Some v ->
  prev = Some v \/ (In v us /\ nal_written NAL_PPS v = true).
Proof.
  induction us as [|u us IH]; intros prev v H; [now left|].
  rewrite active_pps_from_cons in H.
  destruct (IH _ _ H) as [E|[Hin Hw]].
  - destruct (nal_written NAL_PPS u) eqn:Hu.
    + injection E as <-. right. split; [now left|exact Hu].
    + now left.
  - right. split; [now right|exact Hw].
Qed.

Lemma In_take {A} (l : list A) : forall (k : nat) x,
  In x (take k l) -> In x l.
Proof.
  induction l as [|a l IH]; intros [|k] x H; try contradiction.
  cbn [take] in H. destruct H as [<-|H]; [now left|right; eauto].
Qed.


